(** * Vision store: capture / analyze coordinator

    A shallow embedding of [packages/stage-ui/src/stores/modules/vision.ts]
    (the Pinia store [useVisionStore]) and the properties of its capture and
    analysis life cycle.

    The store is a single-threaded JavaScript object whose [async] methods
    suspend at every [await] of a device or network promise.  A method is
    modelled as a function that runs its synchronous prefix on the machine
    state and then either finishes or stops at an [Await] node that carries the
    request issued and the continuation to resume with the promise's outcome
    ([Task], [Async]).  [call] runs a method to completion against a script
    of outcomes with nothing interleaved; a timer tick that lands while
    another method is parked is the callback applied to the parked machine.
    Two calls overlap when the second is started on the machine the first is
    parked on and each is resumed later ([run]): the store has no lock, and
    what is proved of a whole call is proved of a call that nothing overlaps.

    Thrown JavaScript errors are values ([JsError]); every [try], [catch]
    and [finally] of the source is written out in the continuation it guards,
    so a method of the embedding returns where the source returns.  The
    machine pairs the store's refs with the part of the platform the store
    acts on: the media streams whose tracks run, the armed interval timers,
    and a log of the requests and canvas operations issued.  [console.error]
    is left out.  Numbers that are sizes, intervals and time stamps are
    integers; qualities are rationals. *)

From Stdlib Require Import ZArith QArith String List Bool Lia.
Import ListNotations.
Open Scope string_scope.
Open Scope Z_scope.

Set Implicit Arguments.

(* ------------------------------------------------------------------ *)
(** ** JavaScript values *)

(** A thrown value: [catch (e)] tests [e instanceof Error]. *)
Inductive JsError : Type :=
| ErrorObj (message : string)
| NonError.

(** [error instanceof Error ? error.message : 'Unknown error'] *)
Definition errorMessage (e : JsError) : string :=
  match e with
  | ErrorObj m => m
  | NonError => "Unknown error"
  end.

(** The settlement of an awaited promise. *)
Inductive Outcome (A : Type) : Type :=
| Resolved (a : A)
| Rejected (e : JsError).
Arguments Rejected {A} e.

(** Truthiness of a JavaScript string: [!s] is true exactly for ['']. *)
Definition truthy (s : string) : bool :=
  match s with
  | EmptyString => false
  | String _ _ => true
  end.

(** [s.includes(pat)] *)
Fixpoint includes (s pat : string) : bool :=
  if String.prefix pat s then true
  else match s with
       | EmptyString => false
       | String _ s' => includes s' pat
       end.

(** [s.startsWith(pat)] *)
Definition startsWith (s pat : string) : bool := String.prefix pat s.

(** An object property as the spread operator sees it: the key may be
    missing, present with value [undefined], or present with a number. *)
Inductive Field (A : Type) : Type :=
| Absent
| Undefined
| Present (a : A).
Arguments Absent {A}.
Arguments Undefined {A}.

(* ------------------------------------------------------------------ *)
(** ** Data model *)

Inductive CaptureSource : Type := Screen | Camera | Window.
Inductive AnalysisMode : Type := OnDemand | Continuous.
Inductive DesktopSourceType : Type := ScreenSource | WindowSource.

Definition CaptureSource_eqb (a b : CaptureSource) : bool :=
  match a, b with
  | Screen, Screen | Camera, Camera | Window, Window => true
  | _, _ => false
  end.

Definition DesktopSourceType_eqb (a b : DesktopSourceType) : bool :=
  match a, b with
  | ScreenSource, ScreenSource | WindowSource, WindowSource => true
  | _, _ => false
  end.

Record VisionAnalysisResult : Type := mkResult {
  timestamp : Z;
  description : string
}.

(** [CaptureOptions]: every key optional. *)
Record CaptureOptions : Type := mkOptions {
  maxWidth : Field Z;
  maxHeight : Field Z;
  quality : Field Q
}.

(** [{ ...DEFAULT_CAPTURE_OPTIONS, ...options }] read at one key: an own
    property of [options] overrides the default even when its value is
    [undefined]; [None] stands for a merged value of [undefined]. *)
Definition spreadField {A : Type} (dflt : A) (f : Field A) : option A :=
  match f with
  | Absent => Some dflt
  | Undefined => None
  | Present a => Some a
  end.

Record MergedOptions : Type := mkMerged {
  optMaxWidth : option Z;
  optMaxHeight : option Z;
  optQuality : option Q
}.

Definition DEFAULT_maxWidth : Z := 1280.
Definition DEFAULT_maxHeight : Z := 720.
Definition DEFAULT_quality : Q := 7 # 10.

(** [const opts = { ...DEFAULT_CAPTURE_OPTIONS, ...options }] with
    [options?: CaptureOptions] ([None] is a call without the argument). *)
Definition mergeOptions (options : option CaptureOptions) : MergedOptions :=
  match options with
  | None => mkMerged (Some DEFAULT_maxWidth) (Some DEFAULT_maxHeight) (Some DEFAULT_quality)
  | Some o =>
      mkMerged (spreadField DEFAULT_maxWidth (maxWidth o))
               (spreadField DEFAULT_maxHeight (maxHeight o))
               (spreadField DEFAULT_quality (quality o))
  end.

(** An entry of [availableDesktopSources]. *)
Record DesktopSource : Type := mkSource {
  srcId : string;
  srcName : string;
  srcThumbnail : string;
  srcType : DesktopSourceType
}.

(** An entry of the IPC reply, before classification. *)
Record RawSource : Type := mkRaw {
  rawId : string;
  rawName : string;
  rawThumbnail : string
}.

Definition StreamId : Type := nat.
Definition TimerId : Type := positive.

(* ------------------------------------------------------------------ *)
(** ** The store

    One field per [ref] of [useVisionStore], under the source's names; the
    module-level [captureIntervalId] is the last field. *)

Record Store : Type := mkStore {
  activeVisionProvider : string;
  activeVisionModel : string;
  activeCustomModelName : string;
  visionModelSearchQuery : string;
  captureSource : CaptureSource;
  analysisMode : AnalysisMode;
  captureIntervalMs : Z;
  compressionQuality : Q;
  maxImageWidth : Z;
  maxImageHeight : Z;
  selectedDesktopSourceId : string;
  isCapturing : bool;
  isAnalyzing : bool;
  lastAnalysisResult : option VisionAnalysisResult;
  analysisError : option string;
  currentStream : option StreamId;
  previewImageDataUrl : option string;
  availableDesktopSources : list DesktopSource;
  isLoadingDesktopSources : bool;
  captureIntervalId : option TimerId
}.

(** Assignment to one ref ([x.value = v]). *)
Definition set_activeVisionProvider (v : string) (s : Store) : Store :=
  mkStore v (activeVisionModel s) (activeCustomModelName s) (visionModelSearchQuery s) (captureSource s) (analysisMode s) (captureIntervalMs s) (compressionQuality s) (maxImageWidth s) (maxImageHeight s) (selectedDesktopSourceId s) (isCapturing s) (isAnalyzing s) (lastAnalysisResult s) (analysisError s) (currentStream s) (previewImageDataUrl s) (availableDesktopSources s) (isLoadingDesktopSources s) (captureIntervalId s).
Definition set_activeVisionModel (v : string) (s : Store) : Store :=
  mkStore (activeVisionProvider s) v (activeCustomModelName s) (visionModelSearchQuery s) (captureSource s) (analysisMode s) (captureIntervalMs s) (compressionQuality s) (maxImageWidth s) (maxImageHeight s) (selectedDesktopSourceId s) (isCapturing s) (isAnalyzing s) (lastAnalysisResult s) (analysisError s) (currentStream s) (previewImageDataUrl s) (availableDesktopSources s) (isLoadingDesktopSources s) (captureIntervalId s).
Definition set_activeCustomModelName (v : string) (s : Store) : Store :=
  mkStore (activeVisionProvider s) (activeVisionModel s) v (visionModelSearchQuery s) (captureSource s) (analysisMode s) (captureIntervalMs s) (compressionQuality s) (maxImageWidth s) (maxImageHeight s) (selectedDesktopSourceId s) (isCapturing s) (isAnalyzing s) (lastAnalysisResult s) (analysisError s) (currentStream s) (previewImageDataUrl s) (availableDesktopSources s) (isLoadingDesktopSources s) (captureIntervalId s).
Definition set_visionModelSearchQuery (v : string) (s : Store) : Store :=
  mkStore (activeVisionProvider s) (activeVisionModel s) (activeCustomModelName s) v (captureSource s) (analysisMode s) (captureIntervalMs s) (compressionQuality s) (maxImageWidth s) (maxImageHeight s) (selectedDesktopSourceId s) (isCapturing s) (isAnalyzing s) (lastAnalysisResult s) (analysisError s) (currentStream s) (previewImageDataUrl s) (availableDesktopSources s) (isLoadingDesktopSources s) (captureIntervalId s).
Definition set_captureSource (v : CaptureSource) (s : Store) : Store :=
  mkStore (activeVisionProvider s) (activeVisionModel s) (activeCustomModelName s) (visionModelSearchQuery s) v (analysisMode s) (captureIntervalMs s) (compressionQuality s) (maxImageWidth s) (maxImageHeight s) (selectedDesktopSourceId s) (isCapturing s) (isAnalyzing s) (lastAnalysisResult s) (analysisError s) (currentStream s) (previewImageDataUrl s) (availableDesktopSources s) (isLoadingDesktopSources s) (captureIntervalId s).
Definition set_analysisMode (v : AnalysisMode) (s : Store) : Store :=
  mkStore (activeVisionProvider s) (activeVisionModel s) (activeCustomModelName s) (visionModelSearchQuery s) (captureSource s) v (captureIntervalMs s) (compressionQuality s) (maxImageWidth s) (maxImageHeight s) (selectedDesktopSourceId s) (isCapturing s) (isAnalyzing s) (lastAnalysisResult s) (analysisError s) (currentStream s) (previewImageDataUrl s) (availableDesktopSources s) (isLoadingDesktopSources s) (captureIntervalId s).
Definition set_captureIntervalMs (v : Z) (s : Store) : Store :=
  mkStore (activeVisionProvider s) (activeVisionModel s) (activeCustomModelName s) (visionModelSearchQuery s) (captureSource s) (analysisMode s) v (compressionQuality s) (maxImageWidth s) (maxImageHeight s) (selectedDesktopSourceId s) (isCapturing s) (isAnalyzing s) (lastAnalysisResult s) (analysisError s) (currentStream s) (previewImageDataUrl s) (availableDesktopSources s) (isLoadingDesktopSources s) (captureIntervalId s).
Definition set_compressionQuality (v : Q) (s : Store) : Store :=
  mkStore (activeVisionProvider s) (activeVisionModel s) (activeCustomModelName s) (visionModelSearchQuery s) (captureSource s) (analysisMode s) (captureIntervalMs s) v (maxImageWidth s) (maxImageHeight s) (selectedDesktopSourceId s) (isCapturing s) (isAnalyzing s) (lastAnalysisResult s) (analysisError s) (currentStream s) (previewImageDataUrl s) (availableDesktopSources s) (isLoadingDesktopSources s) (captureIntervalId s).
Definition set_maxImageWidth (v : Z) (s : Store) : Store :=
  mkStore (activeVisionProvider s) (activeVisionModel s) (activeCustomModelName s) (visionModelSearchQuery s) (captureSource s) (analysisMode s) (captureIntervalMs s) (compressionQuality s) v (maxImageHeight s) (selectedDesktopSourceId s) (isCapturing s) (isAnalyzing s) (lastAnalysisResult s) (analysisError s) (currentStream s) (previewImageDataUrl s) (availableDesktopSources s) (isLoadingDesktopSources s) (captureIntervalId s).
Definition set_maxImageHeight (v : Z) (s : Store) : Store :=
  mkStore (activeVisionProvider s) (activeVisionModel s) (activeCustomModelName s) (visionModelSearchQuery s) (captureSource s) (analysisMode s) (captureIntervalMs s) (compressionQuality s) (maxImageWidth s) v (selectedDesktopSourceId s) (isCapturing s) (isAnalyzing s) (lastAnalysisResult s) (analysisError s) (currentStream s) (previewImageDataUrl s) (availableDesktopSources s) (isLoadingDesktopSources s) (captureIntervalId s).
Definition set_selectedDesktopSourceId (v : string) (s : Store) : Store :=
  mkStore (activeVisionProvider s) (activeVisionModel s) (activeCustomModelName s) (visionModelSearchQuery s) (captureSource s) (analysisMode s) (captureIntervalMs s) (compressionQuality s) (maxImageWidth s) (maxImageHeight s) v (isCapturing s) (isAnalyzing s) (lastAnalysisResult s) (analysisError s) (currentStream s) (previewImageDataUrl s) (availableDesktopSources s) (isLoadingDesktopSources s) (captureIntervalId s).
Definition set_isCapturing (v : bool) (s : Store) : Store :=
  mkStore (activeVisionProvider s) (activeVisionModel s) (activeCustomModelName s) (visionModelSearchQuery s) (captureSource s) (analysisMode s) (captureIntervalMs s) (compressionQuality s) (maxImageWidth s) (maxImageHeight s) (selectedDesktopSourceId s) v (isAnalyzing s) (lastAnalysisResult s) (analysisError s) (currentStream s) (previewImageDataUrl s) (availableDesktopSources s) (isLoadingDesktopSources s) (captureIntervalId s).
Definition set_isAnalyzing (v : bool) (s : Store) : Store :=
  mkStore (activeVisionProvider s) (activeVisionModel s) (activeCustomModelName s) (visionModelSearchQuery s) (captureSource s) (analysisMode s) (captureIntervalMs s) (compressionQuality s) (maxImageWidth s) (maxImageHeight s) (selectedDesktopSourceId s) (isCapturing s) v (lastAnalysisResult s) (analysisError s) (currentStream s) (previewImageDataUrl s) (availableDesktopSources s) (isLoadingDesktopSources s) (captureIntervalId s).
Definition set_lastAnalysisResult (v : option VisionAnalysisResult) (s : Store) : Store :=
  mkStore (activeVisionProvider s) (activeVisionModel s) (activeCustomModelName s) (visionModelSearchQuery s) (captureSource s) (analysisMode s) (captureIntervalMs s) (compressionQuality s) (maxImageWidth s) (maxImageHeight s) (selectedDesktopSourceId s) (isCapturing s) (isAnalyzing s) v (analysisError s) (currentStream s) (previewImageDataUrl s) (availableDesktopSources s) (isLoadingDesktopSources s) (captureIntervalId s).
Definition set_analysisError (v : option string) (s : Store) : Store :=
  mkStore (activeVisionProvider s) (activeVisionModel s) (activeCustomModelName s) (visionModelSearchQuery s) (captureSource s) (analysisMode s) (captureIntervalMs s) (compressionQuality s) (maxImageWidth s) (maxImageHeight s) (selectedDesktopSourceId s) (isCapturing s) (isAnalyzing s) (lastAnalysisResult s) v (currentStream s) (previewImageDataUrl s) (availableDesktopSources s) (isLoadingDesktopSources s) (captureIntervalId s).
Definition set_currentStream (v : option StreamId) (s : Store) : Store :=
  mkStore (activeVisionProvider s) (activeVisionModel s) (activeCustomModelName s) (visionModelSearchQuery s) (captureSource s) (analysisMode s) (captureIntervalMs s) (compressionQuality s) (maxImageWidth s) (maxImageHeight s) (selectedDesktopSourceId s) (isCapturing s) (isAnalyzing s) (lastAnalysisResult s) (analysisError s) v (previewImageDataUrl s) (availableDesktopSources s) (isLoadingDesktopSources s) (captureIntervalId s).
Definition set_previewImageDataUrl (v : option string) (s : Store) : Store :=
  mkStore (activeVisionProvider s) (activeVisionModel s) (activeCustomModelName s) (visionModelSearchQuery s) (captureSource s) (analysisMode s) (captureIntervalMs s) (compressionQuality s) (maxImageWidth s) (maxImageHeight s) (selectedDesktopSourceId s) (isCapturing s) (isAnalyzing s) (lastAnalysisResult s) (analysisError s) (currentStream s) v (availableDesktopSources s) (isLoadingDesktopSources s) (captureIntervalId s).
Definition set_availableDesktopSources (v : list DesktopSource) (s : Store) : Store :=
  mkStore (activeVisionProvider s) (activeVisionModel s) (activeCustomModelName s) (visionModelSearchQuery s) (captureSource s) (analysisMode s) (captureIntervalMs s) (compressionQuality s) (maxImageWidth s) (maxImageHeight s) (selectedDesktopSourceId s) (isCapturing s) (isAnalyzing s) (lastAnalysisResult s) (analysisError s) (currentStream s) (previewImageDataUrl s) v (isLoadingDesktopSources s) (captureIntervalId s).
Definition set_isLoadingDesktopSources (v : bool) (s : Store) : Store :=
  mkStore (activeVisionProvider s) (activeVisionModel s) (activeCustomModelName s) (visionModelSearchQuery s) (captureSource s) (analysisMode s) (captureIntervalMs s) (compressionQuality s) (maxImageWidth s) (maxImageHeight s) (selectedDesktopSourceId s) (isCapturing s) (isAnalyzing s) (lastAnalysisResult s) (analysisError s) (currentStream s) (previewImageDataUrl s) (availableDesktopSources s) v (captureIntervalId s).
Definition set_captureIntervalId (v : option TimerId) (s : Store) : Store :=
  mkStore (activeVisionProvider s) (activeVisionModel s) (activeCustomModelName s) (visionModelSearchQuery s) (captureSource s) (analysisMode s) (captureIntervalMs s) (compressionQuality s) (maxImageWidth s) (maxImageHeight s) (selectedDesktopSourceId s) (isCapturing s) (isAnalyzing s) (lastAnalysisResult s) (analysisError s) (currentStream s) (previewImageDataUrl s) (availableDesktopSources s) (isLoadingDesktopSources s) v.

(* ------------------------------------------------------------------ *)
(** ** The host environment *)

(** [navigator.mediaDevices] and the two methods the store probes. *)
Record MediaDevices : Type := mkMediaDevices {
  hasGetDisplayMedia : bool;
  hasGetUserMedia : bool
}.

(** What the synchronous platform calls answer.  [navigator = None] is a host
    without the global (reading it throws [referenceError]);
    [navigator = Some None] is [navigator.mediaDevices === undefined] (calling
    a method on it throws [typeError], as does calling a missing method). *)
Record Env : Type := mkEnv {
  windowHasElectron : bool;
  windowElectron : bool;
  navigator : option (option MediaDevices);
  referenceError : JsError;
  typeError : JsError;
  canvasContext2d : bool;
  toDataURL : Z -> Z -> Q -> string;
  dateNow : Z
}.

(** The promises the store awaits, indexed by what they settle with.
    A media request resolves with [true] for a [MediaStream] (the platform
    then has one more live stream) and with [false] for a value that is not
    one ([null], [undefined]); [VideoLoaded] is the hand-made promise that
    waits for [readyState >= 2] and answers with [videoWidth] and
    [videoHeight]; [GetProviderInstance] answers whether the instance is
    truthy; [GenerateText] answers [res.text], which may be [undefined], and
    is [Rejected] also when building the request throws.  Every promise
    settles. *)
Inductive Request : Type -> Type :=
| IpcGetDesktopSources : Request (Outcome (list RawSource))
| GetUserMediaDesktop (chromeMediaSourceId : string) (maxW maxH : Z) : Request (Outcome bool)
| GetDisplayMedia (idealW idealH : Z) : Request (Outcome bool)
| GetUserMediaCamera (idealW idealH : Z) : Request (Outcome bool)
| VideoPlay (sid : StreamId) : Request (Outcome unit)
| VideoLoaded (sid : StreamId) : Request (Z * Z)
| GetProviderInstance (provider : string) : Request (Outcome bool)
| GenerateText (model systemPrompt imageDataUrl : string) : Request (Outcome (option string)).

(** Observable effects on the world outside the store, oldest first. *)
Inductive Event : Type :=
| EvAwait (R : Type) (req : Request R)
| EvStopTracks (sid : StreamId)
| EvDrawImage (sid : StreamId) (w h : Z)
| EvToDataURL (w h : Z) (q : Q)
| EvSetInterval (id : TimerId) (ms : Z)
| EvClearInterval (id : TimerId).

(** The world outside the store: the media streams handed out whose tracks
    are still running, the repeating timers that are armed, and the log. *)
Record World : Type := mkWorld {
  liveStreams : list StreamId;
  nextStream : StreamId;
  activeTimers : list (TimerId * Z);
  nextTimer : TimerId;
  trace : list Event
}.

Record Machine : Type := mkMachine {
  store : Store;
  world : World
}.

Definition onStore (f : Store -> Store) (m : Machine) : Machine :=
  mkMachine (f (store m)) (world m).

Definition emit (e : Event) (m : Machine) : Machine :=
  let w := world m in
  mkMachine (store m)
    (mkWorld (liveStreams w) (nextStream w) (activeTimers w) (nextTimer w) (trace w ++ [e])).

(** [stream.getTracks().forEach(track => track.stop())] *)
Definition stopTracks (sid : StreamId) (m : Machine) : Machine :=
  let w := world m in
  emit (EvStopTracks sid)
    (mkMachine (store m)
       (mkWorld (filter (fun x => negb (Nat.eqb x sid)) (liveStreams w))
                (nextStream w) (activeTimers w) (nextTimer w) (trace w))).

(** A granted media request: the platform creates a new live stream. *)
Definition grantStream (m : Machine) : StreamId * Machine :=
  let w := world m in
  (nextStream w,
   mkMachine (store m)
     (mkWorld (nextStream w :: liveStreams w) (S (nextStream w))
              (activeTimers w) (nextTimer w) (trace w))).

(** [setInterval(cb, ms)]: a fresh non-zero handle. *)
Definition setInterval (ms : Z) (m : Machine) : TimerId * Machine :=
  let w := world m in
  (nextTimer w,
   emit (EvSetInterval (nextTimer w) ms)
     (mkMachine (store m)
        (mkWorld (liveStreams w) (nextStream w)
                 ((nextTimer w, ms) :: activeTimers w) (Pos.succ (nextTimer w)) (trace w)))).

(** [clearInterval(id)] *)
Definition clearInterval (id : TimerId) (m : Machine) : Machine :=
  let w := world m in
  emit (EvClearInterval id)
    (mkMachine (store m)
       (mkWorld (liveStreams w) (nextStream w)
                (filter (fun t => negb (Pos.eqb (fst t) id)) (activeTimers w))
                (nextTimer w) (trace w))).

(* ------------------------------------------------------------------ *)
(** ** Asynchronous functions *)

(** A suspended [async] call: finished with a value, or parked at an [await]
    with the code to run when the promise settles.  The continuation receives
    the machine as it is at resumption, so whatever ran in between is seen. *)
#[local] Unset Elimination Schemes.
Inductive Task (A : Type) : Type :=
| Done (a : A)
| Await (R : Type) (req : Request R) (k : R -> Machine -> Machine * Task A).
#[local] Set Elimination Schemes.
Arguments Await {A R} req k.

Definition Async (A : Type) : Type := Machine -> Machine * Task A.

Definition ret {A : Type} (a : A) : Async A := fun m => (m, Done a).

(** [await req], then [k] on the settlement.  The request is issued (and
    logged) now. *)
Definition await {R A : Type} (req : Request R) (k : R -> Async A) : Async A :=
  fun m => (emit (EvAwait req) m, Await req k).

(** [const a = await t; f a] for a task already started. *)
Fixpoint andThen {A B : Type} (t : Task A) (f : A -> Async B) (m : Machine) : Machine * Task B :=
  match t with
  | Done a => f a m
  | Await req k =>
      (m, Await req (fun r m' => let (m'', t') := k r m' in andThen t' f m''))
  end.

Definition bind {A B : Type} (c : Async A) (f : A -> Async B) : Async B :=
  fun m => let (m', t) := c m in andThen t f m'.

(** An environment script: how each awaited promise settles. *)
Definition Oracle : Type := forall R : Type, Request R -> R.

(** Run a parked task to completion with nothing interleaved. *)
Fixpoint run {A : Type} (o : Oracle) (t : Task A) (m : Machine) : Machine * A :=
  match t with
  | Done a => (m, a)
  | Await req k => let (m', t') := k (o _ req) m in run o t' m'
  end.

(** A whole call, start to finish, with nothing interleaved. *)
Definition call {A : Type} (o : Oracle) (c : Async A) (m : Machine) : Machine * A :=
  let (m', t) := c m in run o t m'.

(* ------------------------------------------------------------------ *)
(** ** Resettable settings *)

(** Modelled from the spec: [createResettableLocalStorage] and
    [createResettableRef] live in [utils/resettable], which is not among the
    sources.  The spec says each persisted setting is "independently
    resettable to its documented default": the helper returns the ref and a
    reset action that writes back the default it was created with.  The pair
    below is the default together with that action on the ref's value. *)
Definition createResettableLocalStorage {A : Type} (key : string) (dflt : A) : A * (A -> A) :=
  (dflt, fun _ => dflt).

(** Modelled from the spec: as above, without the storage key. *)
Definition createResettableRef {A : Type} (dflt : A) : A * (A -> A) :=
  (dflt, fun _ => dflt).

Definition resetActiveVisionProvider (s : Store) : Store :=
  set_activeVisionProvider
    (snd (createResettableLocalStorage "settings/vision/active-provider" "") (activeVisionProvider s)) s.
Definition resetActiveVisionModel (s : Store) : Store :=
  set_activeVisionModel
    (snd (createResettableLocalStorage "settings/vision/active-model" "") (activeVisionModel s)) s.
Definition resetActiveCustomModelName (s : Store) : Store :=
  set_activeCustomModelName
    (snd (createResettableLocalStorage "settings/vision/active-custom-model" "") (activeCustomModelName s)) s.
Definition resetVisionModelSearchQuery (s : Store) : Store :=
  set_visionModelSearchQuery (snd (createResettableRef "") (visionModelSearchQuery s)) s.
Definition resetCaptureSource (s : Store) : Store :=
  set_captureSource
    (snd (createResettableLocalStorage "settings/vision/capture-source" Screen) (captureSource s)) s.
Definition resetAnalysisMode (s : Store) : Store :=
  set_analysisMode
    (snd (createResettableLocalStorage "settings/vision/analysis-mode" OnDemand) (analysisMode s)) s.
Definition resetCaptureIntervalMs (s : Store) : Store :=
  set_captureIntervalMs
    (snd (createResettableLocalStorage "settings/vision/capture-interval" 5000) (captureIntervalMs s)) s.
Definition resetCompressionQuality (s : Store) : Store :=
  set_compressionQuality
    (snd (createResettableLocalStorage "settings/vision/compression-quality" (7 # 10)%Q) (compressionQuality s)) s.
Definition resetMaxImageWidth (s : Store) : Store :=
  set_maxImageWidth
    (snd (createResettableLocalStorage "settings/vision/max-width" 1280) (maxImageWidth s)) s.
Definition resetMaxImageHeight (s : Store) : Store :=
  set_maxImageHeight
    (snd (createResettableLocalStorage "settings/vision/max-height" 720) (maxImageHeight s)) s.
Definition resetSelectedDesktopSourceId (s : Store) : Store :=
  set_selectedDesktopSourceId
    (snd (createResettableLocalStorage "settings/vision/selected-source-id" "") (selectedDesktopSourceId s)) s.

(* ------------------------------------------------------------------ *)
(** ** Synchronous operations *)

(** [stopCapture()] *)
Definition stopCapture (m : Machine) : Machine :=
  let m1 :=
    match currentStream (store m) with
    | Some sid => onStore (set_currentStream None) (stopTracks sid m)
    | None => m
    end in
  onStore (set_previewImageDataUrl None) (onStore (set_isCapturing false) m1).

(** [stopContinuousCapture()]: a timer handle is a non-zero number, so
    [if (captureIntervalId)] tests for [null] only. *)
Definition stopContinuousCapture (m : Machine) : Machine :=
  match captureIntervalId (store m) with
  | Some id => onStore (set_captureIntervalId None) (clearInterval id m)
  | None => m
  end.

(** [resetState()] *)
Definition resetState (m : Machine) : Machine :=
  let m := stopContinuousCapture m in
  let m := stopCapture m in
  let m := onStore resetActiveVisionProvider m in
  let m := onStore resetActiveVisionModel m in
  let m := onStore resetActiveCustomModelName m in
  let m := onStore resetVisionModelSearchQuery m in
  let m := onStore resetCaptureSource m in
  let m := onStore resetAnalysisMode m in
  let m := onStore resetCaptureIntervalMs m in
  let m := onStore resetCompressionQuality m in
  let m := onStore resetMaxImageWidth m in
  let m := onStore resetMaxImageHeight m in
  let m := onStore resetSelectedDesktopSourceId m in
  let m := onStore (set_lastAnalysisResult None) m in
  let m := onStore (set_analysisError None) m in
  onStore (set_previewImageDataUrl None) m.

(* ------------------------------------------------------------------ *)
(** ** Frame scaling *)

(** [Math.round(a / b)] for integers [0 <= a < 2^52] and [0 < b]: the nearest
    integer, halves towards plus infinity.  There the double-precision
    quotient rounds as the rational one does.  Outside that range the model
    is not the source's (a larger quotient can round across a half, and a
    zero divisor gives an infinity or NaN); what is stated about scaling
    keeps sizes and bounds non-negative and below 2^26, where every
    numerator is below 2^52 and no divisor is zero. *)
Definition roundDiv (a b : Z) : Z := (2 * a + b) / (2 * b).

(** Lines 390-400 of [captureFrame]: the two rescaling steps.  A bound that
    is [undefined] makes its comparison false. *)
Definition scaleDimensions (videoWidth videoHeight : Z) (opts : MergedOptions) : Z * Z :=
  let width := videoWidth in
  let height := videoHeight in
  let '(width, height) :=
    match optMaxWidth opts with
    | Some maxW =>
        if maxW <? width then (maxW, roundDiv (height * maxW) width) else (width, height)
    | None => (width, height)
    end in
  match optMaxHeight opts with
  | Some maxH =>
      if maxH <? height then (roundDiv (width * maxH) height, maxH) else (width, height)
  | None => (width, height)
  end.

(* ------------------------------------------------------------------ *)
(** ** Asynchronous operations *)

Definition defaultPrompt : string :=
"You are AIRI's vision system. Describe what you see in this image concisely but comprehensively.
Focus on:
- What application or content is visible
- Any text or code that appears
- The general activity or context
- Anything notable or interesting

Keep your response brief (2-3 sentences) unless there's something particularly important to note.".

Section VisionStore.

Variable env : Env.

(** [isElectron()] *)
Definition isElectron : bool := windowHasElectron env.

(** [getElectronApi()], as the truthiness of what it returns. *)
Definition getElectronApi : bool :=
  if negb isElectron then false else windowElectron env.

(** The [sources.map(...)] of [fetchDesktopSources]. *)
Definition classifySource (r : RawSource) : DesktopSource :=
  mkSource (rawId r) (rawName r) (rawThumbnail r)
    (if startsWith (rawId r) "screen:" then ScreenSource else WindowSource).

(** [fetchDesktopSources()].  A reply that is not a list of well-formed
    entries makes [sources.map] throw inside the [try]; it is covered by
    [Rejected]. *)
Definition fetchDesktopSources : Async unit := fun m =>
  if negb getElectronApi then ret tt m
  else
    await IpcGetDesktopSources
      (fun r m =>
         let m :=
           match r with
           | Resolved sources =>
               onStore (set_availableDesktopSources (map classifySource sources)) m
           | Rejected _ =>
               onStore (set_availableDesktopSources []) m
           end in
         ret tt (onStore (set_isLoadingDesktopSources false) m))
      (onStore (set_isLoadingDesktopSources true) m).

(** [analysisError.value = msg; return false] *)
Definition failWith (msg : string) : Async bool := fun m =>
  ret false (onStore (set_analysisError (Some msg)) m).

(** The tail of [startCapture] (lines 335-341). *)
Definition finishCapture : Async bool := fun m =>
  match currentStream (store m) with
  | None => failWith "Failed to start capture stream." m
  | Some _ => ret true (onStore (set_isCapturing true) m)
  end.

(** [currentStream.value = await <request>] once the request has resolved,
    then the tail. *)
Definition holdResolved (isStream : bool) : Async bool := fun m =>
  if isStream then
    let (sid, m) := grantStream m in
    finishCapture (onStore (set_currentStream (Some sid)) m)
  else finishCapture (onStore (set_currentStream None) m).

(** The outer [catch] of [startCapture]. *)
Definition outerCatch (e : JsError) : Async bool :=
  failWith ("Failed to start capture: " ++ errorMessage e).

(** The [catch (electronError)] block. *)
Definition electronCatch (e : JsError) : Async bool :=
  failWith ("Screen capture failed: " ++ errorMessage e ++ ". Try selecting a different source.").

(** The [catch (displayError)] block. *)
Definition displayCatch (e : JsError) : Async bool :=
  let errorMessage := errorMessage e in
  if includes errorMessage "NotAllowedError" || includes errorMessage "Permission denied"
  then failWith "Screen capture was denied. Please allow screen sharing permissions."
  else failWith ("Screen capture failed: " ++ errorMessage).

(** The [catch (cameraError)] block. *)
Definition cameraCatch (e : JsError) : Async bool :=
  let errorMessage := errorMessage e in
  if includes errorMessage "NotAllowedError" || includes errorMessage "Permission denied"
  then failWith "Camera access was denied. Please allow camera permissions and try again."
  else if includes errorMessage "NotFoundError"
  then failWith "No camera found. Please connect a camera and try again."
  else failWith ("Camera capture failed: " ++ errorMessage).

(** The inner [try] of the Electron branch (lines 257-276). *)
Definition electronAcquire : Async bool := fun m =>
  match navigator env with
  | None => electronCatch (referenceError env) m
  | Some None => electronCatch (typeError env) m
  | Some (Some md) =>
      if hasGetUserMedia md then
        await (GetUserMediaDesktop (selectedDesktopSourceId (store m))
                 (maxImageWidth (store m)) (maxImageHeight (store m)))
          (fun r => match r with
                    | Resolved isStream => holdResolved isStream
                    | Rejected e => electronCatch e
                    end) m
      else electronCatch (typeError env) m
  end.

(** The Electron branch (lines 243-276). *)
Definition electronCapture : Async bool := fun m =>
  if negb (truthy (selectedDesktopSourceId (store m))) then
    bind fetchDesktopSources
      (fun _ m =>
         match availableDesktopSources (store m) with
         | [] => failWith "No screen or window sources available." m
         | first :: _ =>
             let sourceType :=
               if CaptureSource_eqb (captureSource (store m)) Screen
               then ScreenSource else WindowSource in
             let defaultSource :=
               match find (fun s => DesktopSourceType_eqb (srcType s) sourceType)
                          (availableDesktopSources (store m)) with
               | Some d => d
               | None => first
               end in
             electronAcquire (onStore (set_selectedDesktopSourceId (srcId defaultSource)) m)
         end) m
  else electronAcquire m.

(** The browser branch (lines 280-302). *)
Definition displayCapture : Async bool := fun m =>
  match navigator env with
  | None => outerCatch (referenceError env) m
  | Some md =>
      if negb (match md with Some d => hasGetDisplayMedia d | None => false end)
      then failWith "Screen capture is not supported in this browser." m
      else
        await (GetDisplayMedia (maxImageWidth (store m)) (maxImageHeight (store m)))
          (fun r => match r with
                    | Resolved isStream => holdResolved isStream
                    | Rejected e => displayCatch e
                    end) m
  end.

(** The camera branch (lines 307-332). *)
Definition cameraCapture : Async bool := fun m =>
  match navigator env with
  | None => outerCatch (referenceError env) m
  | Some md =>
      if negb (match md with Some d => hasGetUserMedia d | None => false end)
      then failWith "Camera access is not supported in this environment." m
      else
        await (GetUserMediaCamera (maxImageWidth (store m)) (maxImageHeight (store m)))
          (fun r => match r with
                    | Resolved isStream => holdResolved isStream
                    | Rejected e => cameraCatch e
                    end) m
  end.

(** [startCapture()] *)
Definition startCapture : Async bool := fun m =>
  let m := stopCapture m in
  let m := onStore (set_analysisError None) m in
  match captureSource (store m) with
  | Screen | Window => if isElectron then electronCapture m else displayCapture m
  | Camera => cameraCapture m
  end.

(** [opts.quality ?? compressionQuality.value] *)
Definition encodingQuality (opts : MergedOptions) (s : Store) : Q :=
  match optQuality opts with
  | Some q => q
  | None => compressionQuality s
  end.

(** The [catch] of [captureFrame]. *)
Definition frameCatch (e : JsError) : Async (option string) := fun m =>
  ret None (onStore (set_analysisError (Some ("Failed to capture frame: " ++ errorMessage e))) m).

(** [captureFrame(options?)].  The video element keeps the stream it was
    given before the first [await]. *)
Definition captureFrame (options : option CaptureOptions) : Async (option string) := fun m =>
  match currentStream (store m) with
  | None =>
      ret None
        (onStore (set_analysisError (Some "No capture stream available. Start capture first.")) m)
  | Some sid =>
      let opts := mergeOptions options in
      await (VideoPlay sid)
        (fun r =>
           match r with
           | Rejected e => frameCatch e
           | Resolved _ =>
               await (VideoLoaded sid)
                 (fun dims m =>
                    let '(width, height) := scaleDimensions (fst dims) (snd dims) opts in
                    if negb (canvasContext2d env)
                    then frameCatch (ErrorObj "Failed to get canvas context") m
                    else
                      let m := emit (EvDrawImage sid width height) m in
                      let q := encodingQuality opts (store m) in
                      let dataUrl := toDataURL env width height q in
                      let m := emit (EvToDataURL width height q) m in
                      ret (Some dataUrl) (onStore (set_previewImageDataUrl (Some dataUrl)) m))
           end) m
  end.

(** The [catch] and [finally] of [analyzeImage]. *)
Definition analyzeCatch (e : JsError) : Async (option VisionAnalysisResult) := fun m =>
  let m := onStore (set_analysisError (Some ("Analysis failed: " ++ errorMessage e))) m in
  ret None (onStore (set_isAnalyzing false) m).

(** [analyzeImage(imageDataUrl, prompt?)] *)
Definition analyzeImage (imageDataUrl : string) (prompt : option string)
  : Async (option VisionAnalysisResult) := fun m =>
  if negb (truthy (activeVisionProvider (store m))) || negb (truthy (activeVisionModel (store m)))
  then ret None (onStore (set_analysisError (Some "Vision provider and model must be configured")) m)
  else
    let m := onStore (set_isAnalyzing true) m in
    let m := onStore (set_analysisError None) m in
    await (GetProviderInstance (activeVisionProvider (store m)))
      (fun r m =>
         match r with
         | Rejected e => analyzeCatch e m
         | Resolved false => analyzeCatch (ErrorObj "Failed to get provider instance") m
         | Resolved true =>
             let modelToUse :=
               if truthy (activeCustomModelName (store m))
               then activeCustomModelName (store m)
               else activeVisionModel (store m) in
             let systemPrompt :=
               match prompt with
               | Some p => p
               | None => defaultPrompt
               end in
             await (GenerateText modelToUse systemPrompt imageDataUrl)
               (fun r m =>
                  match r with
                  | Rejected e => analyzeCatch e m
                  | Resolved text =>
                      let result :=
                        mkResult (dateNow env)
                                 (match text with Some t => t | None => "" end) in
                      let m := onStore (set_lastAnalysisResult (Some result)) m in
                      ret (Some result) (onStore (set_isAnalyzing false) m)
                  end) m
         end) m.

(** [captureAndAnalyze(prompt?)]: [!imageDataUrl] holds for [null] and for
    the empty string. *)
Definition captureAndAnalyze (prompt : option string) : Async (option VisionAnalysisResult) :=
  bind (captureFrame None)
    (fun imageDataUrl =>
       match imageDataUrl with
       | None => ret None
       | Some url => if negb (truthy url) then ret None else analyzeImage url prompt
       end).

(** The callback handed to [setInterval] in [startContinuousCapture]. *)
Definition tick : Async unit := fun m =>
  if negb (isAnalyzing (store m)) && isCapturing (store m)
  then bind (captureAndAnalyze None) (fun _ => ret tt) m
  else ret tt m.

(** [startContinuousCapture()] *)
Definition startContinuousCapture (m : Machine) : Machine :=
  match analysisMode (store m) with
  | Continuous =>
      let m := stopContinuousCapture m in
      let (id, m) := setInterval (captureIntervalMs (store m)) m in
      onStore (set_captureIntervalId (Some id)) m
  | OnDemand => m
  end.

(** The platform fires an armed timer: its callback starts.  A cleared timer
    never fires. *)
Definition fire (id : TimerId) : Async unit := fun m =>
  if existsb (fun t => Pos.eqb (fst t) id) (activeTimers (world m))
  then tick m
  else ret tt m.

End VisionStore.

(* ------------------------------------------------------------------ *)
(** ** Messages and derived values *)

Definition noStreamMessage : string := "No capture stream available. Start capture first.".

Definition frameFailure (e : JsError) : string := "Failed to capture frame: " ++ errorMessage e.

(** The [quality] property of the argument, as the spread sees it. *)
Definition suppliedQuality (options : option CaptureOptions) : Field Q :=
  match options with
  | None => Absent
  | Some o => quality o
  end.


Definition cameraDeniedMessage : string :=
  "Camera access was denied. Please allow camera permissions and try again.".

(** The computed ref [configured]. *)
Definition configured (s : Store) : bool :=
  truthy (activeVisionProvider s) && truthy (activeVisionModel s).

Definition configMessage : string := "Vision provider and model must be configured".

Definition analysisFailure (e : JsError) : string := "Analysis failed: " ++ errorMessage e.

(** Whether a logged event is a request to the provider side. *)
Definition isProviderRequest (e : Event) : bool :=
  match e with
  | EvAwait (GetProviderInstance _) => true
  | EvAwait (GenerateText _ _ _) => true
  | _ => false
  end.

(* ------------------------------------------------------------------ *)
(** ** Operations run to completion *)

(** The public operations of the store that change its state, and the
    timer callback. *)
Inductive Op : Type :=
| ResetState
| StartCapture
| StopCapture
| CaptureFrame (options : option CaptureOptions)
| AnalyzeImage (imageDataUrl : string) (prompt : option string)
| CaptureAndAnalyze (prompt : option string)
| StartContinuousCapture
| StopContinuousCapture
| FetchDesktopSources
| TimerFires (id : TimerId).

(** One operation, run to completion with the given script. *)
Definition perform (env : Env) (o : Oracle) (op : Op) (m : Machine) : Machine :=
  match op with
  | ResetState => resetState m
  | StartCapture => fst (call o (startCapture env) m)
  | StopCapture => stopCapture m
  | CaptureFrame options => fst (call o (captureFrame env options) m)
  | AnalyzeImage imageDataUrl prompt => fst (call o (analyzeImage env imageDataUrl prompt) m)
  | CaptureAndAnalyze prompt => fst (call o (captureAndAnalyze env prompt) m)
  | StartContinuousCapture => startContinuousCapture m
  | StopContinuousCapture => stopContinuousCapture m
  | FetchDesktopSources => fst (call o (fetchDesktopSources env) m)
  | TimerFires id => fst (call o (fire env id) m)
  end.

(** Operations one after the other, each with its own script. *)
Fixpoint performAll (env : Env) (script : list (Oracle * Op)) (m : Machine) : Machine :=
  match script with
  | [] => m
  | (o, op) :: rest => performAll env rest (perform env o op m)
  end.

(* ------------------------------------------------------------------ *)
(** ** Predicates on machines *)

(** No stream is held, the capture flag is down and no error is recorded:
    the state [startCapture] is in once it has stopped the previous capture. *)
Definition idle (m : Machine) : Prop :=
  isCapturing (store m) = false /\
  currentStream (store m) = None /\
  analysisError (store m) = None.

(** What the acquisition does not touch. *)
Definition sameSession (m m' : Machine) : Prop :=
  isAnalyzing (store m') = isAnalyzing (store m) /\
  captureIntervalId (store m') = captureIntervalId (store m) /\
  lastAnalysisResult (store m') = lastAnalysisResult (store m) /\
  previewImageDataUrl (store m') = previewImageDataUrl (store m) /\
  activeTimers (world m') = activeTimers (world m) /\
  nextTimer (world m') = nextTimer (world m).

(** The acquisition succeeded from [m]: the platform's fresh stream is live
    and held, the capture flag is up, no error is recorded. *)
Definition acquired (m : Machine) (r : Machine * bool) : Prop :=
  snd r = true /\
  isCapturing (store (fst r)) = true /\
  currentStream (store (fst r)) = Some (nextStream (world m)) /\
  analysisError (store (fst r)) = None /\
  liveStreams (world (fst r)) = nextStream (world m) :: liveStreams (world m) /\
  nextStream (world (fst r)) = S (nextStream (world m)).

(** The acquisition failed from [m]: nothing is held, the capture flag is
    down, a message is recorded, and no stream was created. *)
Definition refused (m : Machine) (r : Machine * bool) : Prop :=
  snd r = false /\
  isCapturing (store (fst r)) = false /\
  currentStream (store (fst r)) = None /\
  (exists msg, analysisError (store (fst r)) = Some msg /\ msg <> "") /\
  liveStreams (world (fst r)) = liveStreams (world m) /\
  nextStream (world (fst r)) = nextStream (world m).

Definition settled (m : Machine) (r : Machine * bool) : Prop :=
  sameSession m (fst r) /\ (acquired m r \/ refused m r).

(** The streams of the world are the same in both machines. *)
Definition sameStreams (m m' : Machine) : Prop :=
  liveStreams (world m') = liveStreams (world m) /\
  nextStream (world m') = nextStream (world m).

(** The armed timers are exactly the one the store holds a handle to. *)
Definition timerInv (m : Machine) : Prop :=
  map fst (activeTimers (world m)) =
  match captureIntervalId (store m) with
  | Some id => [id]
  | None => []
  end.

(** The streams that are live in the world are exactly the one the store
    holds, the capture flag is up exactly when it holds one, and the
    platform has not yet handed out the identifier it will use next. *)
Definition streamInv (m : Machine) : Prop :=
  liveStreams (world m) =
    match currentStream (store m) with
    | Some sid => [sid]
    | None => []
    end /\
  (isCapturing (store m) = true <-> currentStream (store m) <> None) /\
  (forall sid, currentStream (store m) = Some sid -> (sid < nextStream (world m))%nat).

(** The part of the machine [streamInv] reads. *)
Definition sameStreamState (m m' : Machine) : Prop :=
  currentStream (store m') = currentStream (store m) /\
  isCapturing (store m') = isCapturing (store m) /\
  liveStreams (world m') = liveStreams (world m) /\
  nextStream (world m') = nextStream (world m).

(* ------------------------------------------------------------------ *)
(** ** Sample machines and scripts *)

Definition freshStore : Store :=
  mkStore "" "" "" "" Screen OnDemand 5000 (7 # 10)%Q 1280 720 ""
          false false None None None None [] false None.

Definition freshWorld : World := mkWorld [] 0%nat [] 1%positive [].

Definition freshMachine : Machine := mkMachine freshStore freshWorld.

(** A browser with every capability. *)
Definition browserEnv : Env :=
  mkEnv false false (Some (Some (mkMediaDevices true true)))
        (ErrorObj "navigator is not defined")
        (ErrorObj "Cannot read properties of undefined")
        true
        (fun _ _ _ => "data:image/jpeg;base64,/9j/4AAQ")
        1700000000000.

(** The desktop shell: [window.electron] is there. *)
Definition electronEnv : Env :=
  mkEnv true true (Some (Some (mkMediaDevices true true)))
        (ErrorObj "navigator is not defined")
        (ErrorObj "Cannot read properties of undefined")
        true
        (fun _ _ _ => "data:image/jpeg;base64,/9j/4AAQ")
        1700000000000.

(** The source directory answers with a window and a screen, in this order;
    everything else as in [grantAll] below. *)
Definition twoSources : list RawSource :=
  [mkRaw "window:42:0" "Editor" "data:image/png;base64,AA";
   mkRaw "screen:0:0" "Entire screen" "data:image/png;base64,BB"].

(** Every promise resolves; the video is 1920x1080. *)
Definition grantAll : Oracle := fun R req =>
  match req in Request T return T with
  | IpcGetDesktopSources => Resolved [mkRaw "screen:0:0" "Entire screen" "data:image/png;base64,AA"]
  | GetUserMediaDesktop _ _ _ => Resolved true
  | GetDisplayMedia _ _ => Resolved true
  | GetUserMediaCamera _ _ => Resolved true
  | VideoPlay _ => Resolved tt
  | VideoLoaded _ => (1920, 1080)
  | GetProviderInstance _ => Resolved true
  | GenerateText _ _ _ => Resolved (Some "A code editor is open.")
  end.

(** Every media request is refused with a permission error. *)
Definition denyAll : Oracle := fun R req =>
  match req in Request T return T with
  | IpcGetDesktopSources => Rejected (ErrorObj "ipc failed")
  | GetUserMediaDesktop _ _ _ => Rejected (ErrorObj "Permission denied")
  | GetDisplayMedia _ _ => Rejected (ErrorObj "Permission denied")
  | GetUserMediaCamera _ _ => Rejected (ErrorObj "Permission denied")
  | VideoPlay _ => Rejected (ErrorObj "play() failed")
  | VideoLoaded _ => (0, 0)
  | GetProviderInstance _ => Rejected NonError
  | GenerateText _ _ _ => Rejected (ErrorObj "HTTP 500")
  end.

(** As [grantAll], with a source directory of the given entries. *)
Definition grantWithSources (sources : list RawSource) : Oracle := fun R req =>
  match req in Request T return T -> T with
  | IpcGetDesktopSources => fun _ => Resolved sources
  | _ => fun dflt => dflt
  end (grantAll req).

(** A configured store that captures the screen and has analysed a frame. *)
Definition capturingMachine : Machine :=
  let m := onStore (set_activeVisionModel "gpt-4o")
             (onStore (set_activeVisionProvider "openai") freshMachine) in
  let m := fst (call grantAll (startCapture browserEnv) m) in
  fst (call grantAll (captureAndAnalyze browserEnv None) m).

(** The capturing store with its [compressionQuality] set to 0.5. *)
Definition halfQualityMachine : Machine :=
  onStore (set_compressionQuality (1 # 2)%Q) capturingMachine.

(** A store set to the camera. *)
Definition cameraMachine : Machine := onStore (set_captureSource Camera) capturingMachine.

(** A capturing store without provider or model. *)
Definition unconfiguredMachine : Machine :=
  fst (call grantAll (startCapture browserEnv) freshMachine).

(** A store in continuous mode, and the same store with an analysis parked
    at its first await. *)
Definition continuousMachine : Machine :=
  onStore (set_analysisMode Continuous) capturingMachine.

Definition inFlightMachine : Machine :=
  fst (analyzeImage browserEnv "data:image/jpeg;base64,/9j/4AAQ" None continuousMachine).

(* ------------------------------------------------------------------ *)
(** ** Sequential execution *)

Lemma call_ret {A : Type} (o : Oracle) (a : A) (m : Machine) :
  call o (ret a) m = (m, a).
Proof. reflexivity. Qed.

Lemma call_await {R A : Type} (o : Oracle) (req : Request R) (k : R -> Async A) (m : Machine) :
  call o (await req k) m = call o (k (o _ req)) (emit (EvAwait req) m).
Proof. reflexivity. Qed.

Lemma run_andThen {A B : Type} (o : Oracle) (f : A -> Async B) :
  forall (t : Task A) (m : Machine),
    (let (m', t') := andThen t f m in run o t' m') =
    (let (m1, a) := run o t m in call o (f a) m1).
Proof.
  fix IH 1. intros [a | R req k] m; simpl.
  - reflexivity.
  - destruct (k (o R req) m) as [m'' t'']. apply IH.
Qed.

(** Awaiting a whole call and going on is running it, then going on. *)
Lemma call_bind {A B : Type} (o : Oracle) (c : Async A) (f : A -> Async B) (m : Machine) :
  call o (bind c f) m = (let (m1, a) := call o c m in call o (f a) m1).
Proof.
  unfold call, bind. destruct (c m) as [m' t]. apply run_andThen.
Qed.

(* ------------------------------------------------------------------ *)
(** ** The stretches of a call *)

(** Every stretch of a parked call, however its promises settle and on
    whatever machine it is resumed, relates the machine before to the
    machine after by [P]. *)
Fixpoint everyStretch {A : Type} (P : Machine -> Machine -> Prop) (t : Task A) : Prop :=
  match t with
  | Done _ => True
  | Await req k => forall r x, let (m', t') := k r x in P x m' /\ everyStretch P t'
  end.

(** Every stretch of a call, its first included. *)
Definition stretchesKeep {A : Type} (P : Machine -> Machine -> Prop) (c : Async A) : Prop :=
  forall m, let (m', t) := c m in P m m' /\ everyStretch P t.

Section Stretches.

Variable P : Machine -> Machine -> Prop.
Hypothesis P_refl : forall m, P m m.
Hypothesis P_trans : forall m1 m2 m3, P m1 m2 -> P m2 m3 -> P m1 m3.

Lemma stretches_ret {A : Type} (a : A) : stretchesKeep P (ret a).
Proof. intros m. split; [apply P_refl | exact I]. Qed.

Lemma stretches_andThen {A B : Type} (f : A -> Async B) :
  (forall a, stretchesKeep P (f a)) ->
  forall (t : Task A) (m : Machine),
    everyStretch P t ->
    let (m2, t2) := andThen t f m in P m m2 /\ everyStretch P t2.
Proof.
  intros Hf. fix IH 1. intros [a | R req k] m Ht; cbn [andThen].
  - apply Hf.
  - split; [apply P_refl |]. cbn [everyStretch]. intros r x.
    cbn [everyStretch] in Ht. specialize (Ht r x).
    destruct (k r x) as [m'' t'']. destruct Ht as [Hstep Hrest].
    specialize (IH t'' m'' Hrest).
    destruct (andThen t'' f m'') as [m3 t3]. destruct IH as [Hstep' Hrest'].
    split; [eapply P_trans; eassumption | exact Hrest'].
Qed.

Lemma stretches_bind {A B : Type} (c : Async A) (f : A -> Async B) :
  stretchesKeep P c -> (forall a, stretchesKeep P (f a)) -> stretchesKeep P (bind c f).
Proof.
  intros Hc Hf m. unfold bind. specialize (Hc m).
  destruct (c m) as [m1 t]. destruct Hc as [Hstep Hrest].
  pose proof (stretches_andThen f Hf t m1 Hrest) as H.
  destruct (andThen t f m1) as [m2 t2]. destruct H as [Hstep' Hrest'].
  split; [eapply P_trans; eassumption | exact Hrest'].
Qed.

End Stretches.

(* ------------------------------------------------------------------ *)
(** ** Sample runs *)

Example capturingMachine_store :
  store capturingMachine =
  mkStore "openai" "gpt-4o" "" "" Screen OnDemand 5000 (7 # 10)%Q 1280 720 ""
          true false (Some (mkResult 1700000000000 "A code editor is open."))
          None (Some 0%nat) (Some "data:image/jpeg;base64,/9j/4AAQ") [] false None.
Proof. reflexivity. Qed.

Example includes_substring :
  includes "NotAllowedError: Permission denied by system" "Permission denied" = true /\
  includes "Requested device not found" "NotFoundError" = false /\
  startsWith "screen:0:0" "screen:" = true /\
  startsWith "window:42:0" "screen:" = false.
Proof. repeat split. Qed.

(** In the desktop shell with no source selected and an empty directory,
    [startCapture] fails with the no-sources message. *)
Example electron_no_sources :
  let r := call (grantWithSources []) (startCapture electronEnv) freshMachine in
  snd r = false /\
  analysisError (store (fst r)) = Some "No screen or window sources available." /\
  isCapturing (store (fst r)) = false.
Proof. vm_compute. repeat split. Qed.

(** With a window listed before a screen, screen capture selects the screen
    and window capture the window. *)
Example electron_selects_matching_source :
  selectedDesktopSourceId
    (store (fst (call (grantWithSources twoSources) (startCapture electronEnv) freshMachine)))
    = "screen:0:0" /\
  selectedDesktopSourceId
    (store (fst (call (grantWithSources twoSources) (startCapture electronEnv)
                   (onStore (set_captureSource Window) freshMachine))))
    = "window:42:0".
Proof. vm_compute. repeat split. Qed.

Example capturingMachine_world :
  world capturingMachine =
  mkWorld [0%nat] 1%nat [] 1%positive
    [EvAwait (GetDisplayMedia 1280 720);
     EvAwait (VideoPlay 0%nat); EvAwait (VideoLoaded 0%nat);
     EvDrawImage 0%nat 1280 720; EvToDataURL 1280 720 (7 # 10)%Q;
     EvAwait (GetProviderInstance "openai");
     EvAwait (GenerateText "gpt-4o" defaultPrompt "data:image/jpeg;base64,/9j/4AAQ")].
Proof. reflexivity. Qed.

(* ------------------------------------------------------------------ *)
(** ** stopCapture *)

(** C8.  [stopCapture] is idempotent; with no stream held it leaves the world
    untouched; after every call [isCapturing] is false, the stream reference
    is released (and its tracks are no longer live), the preview is cleared,
    and [lastAnalysisResult] is what it was before the call. *)
Theorem stopCapture_idempotent_clears_preview_keeps_result :
  forall m : Machine,
    stopCapture (stopCapture m) = stopCapture m /\
    (currentStream (store m) = None -> world (stopCapture m) = world m) /\
    isCapturing (store (stopCapture m)) = false /\
    currentStream (store (stopCapture m)) = None /\
    (forall sid, currentStream (store m) = Some sid ->
                 ~ In sid (liveStreams (world (stopCapture m)))) /\
    previewImageDataUrl (store (stopCapture m)) = None /\
    lastAnalysisResult (store (stopCapture m)) = lastAnalysisResult (store m).
Proof.
  intros [s w]. unfold stopCapture. simpl.
  destruct (currentStream s) as [sid |] eqn:Hcur; simpl.
  - repeat split; try reflexivity; try discriminate.
    intros sid' Heq. injection Heq as <-. rewrite filter_In.
    intros [_ Hneq]. rewrite Nat.eqb_refl in Hneq. discriminate.
  - rewrite Hcur. repeat split; try reflexivity. intros sid Heq. discriminate.
Qed.

(** The result of an analysis survives [stopCapture]; the preview does not. *)
Lemma stopCapture_idempotent_clears_preview_keeps_result_witness :
  lastAnalysisResult (store capturingMachine)
    = Some (mkResult 1700000000000 "A code editor is open.") /\
  previewImageDataUrl (store capturingMachine) <> None /\
  previewImageDataUrl (store (stopCapture capturingMachine)) = None /\
  lastAnalysisResult (store (stopCapture capturingMachine))
    = Some (mkResult 1700000000000 "A code editor is open.") /\
  ~ In 0%nat (liveStreams (world (stopCapture capturingMachine))).
Proof.
  pose proof (stopCapture_idempotent_clears_preview_keeps_result capturingMachine)
    as (_ & _ & _ & _ & Hlive & Hprev & Hlast).
  split; [reflexivity |].
  split; [discriminate |].
  split; [exact Hprev |].
  split; [rewrite Hlast; reflexivity |].
  apply Hlive. reflexivity.
Defined.

(* ------------------------------------------------------------------ *)
(** ** captureFrame without a stream *)

(** C7.  Called while no stream is held, [captureFrame] finishes at once,
    without awaiting anything: it returns empty and the only change to the
    machine is [analysisError], set to the no-stream message.  The preview,
    every other ref and the world are as before. *)
Theorem captureFrame_without_stream :
  forall (env : Env) (options : option CaptureOptions) (m : Machine),
    currentStream (store m) = None ->
    captureFrame env options m
      = (onStore (set_analysisError (Some noStreamMessage)) m, Done None) /\
    (forall o : Oracle,
        call o (captureFrame env options) m
          = (onStore (set_analysisError (Some noStreamMessage)) m, None)).
Proof.
  intros env options m Hcur.
  assert (H : captureFrame env options m
              = (onStore (set_analysisError (Some noStreamMessage)) m, Done None)).
  { unfold captureFrame. rewrite Hcur. reflexivity. }
  split; [exact H |].
  intros o. unfold call. rewrite H. reflexivity.
Qed.

(** [stopCapture] followed by [captureFrame]. *)
Lemma captureFrame_without_stream_witness :
  call denyAll (captureFrame browserEnv None) (stopCapture capturingMachine)
    = (onStore (set_analysisError (Some noStreamMessage)) (stopCapture capturingMachine), None).
Proof.
  apply (captureFrame_without_stream browserEnv None (stopCapture capturingMachine)).
  reflexivity.
Defined.

(* ------------------------------------------------------------------ *)
(** ** resetState *)

(** C9.  [resetState] disarms the continuous timer and stops the capture,
    puts every persisted setting (and the search query) back to the default
    it was created with, and clears the last result, the error and the
    preview. *)
Theorem resetState_restores_defaults :
  forall m : Machine,
    let s' := store (resetState m) in
    let w' := world (resetState m) in
    (captureIntervalId s' = None /\
     (forall id, captureIntervalId (store m) = Some id ->
                 ~ In id (map fst (activeTimers w')))) /\
    (isCapturing s' = false /\ currentStream s' = None /\
     (forall sid, currentStream (store m) = Some sid -> ~ In sid (liveStreams w'))) /\
    (activeVisionProvider s' = "" /\
     activeVisionModel s' = "" /\
     activeCustomModelName s' = "" /\
     visionModelSearchQuery s' = "" /\
     captureSource s' = Screen /\
     analysisMode s' = OnDemand /\
     captureIntervalMs s' = 5000 /\
     compressionQuality s' = (7 # 10)%Q /\
     maxImageWidth s' = 1280 /\
     maxImageHeight s' = 720 /\
     selectedDesktopSourceId s' = "") /\
    (lastAnalysisResult s' = None /\
     analysisError s' = None /\
     previewImageDataUrl s' = None).
Proof.
  intros [s w]. destruct s. unfold resetState, stopContinuousCapture, stopCapture. simpl.
  destruct captureIntervalId0 as [id |]; destruct currentStream0 as [sid |]; simpl.
  all: repeat match goal with |- _ /\ _ => split end; try reflexivity.
  all: try discriminate.
  all: intros x Hx; try discriminate; injection Hx as <-.
  all: try (rewrite in_map_iff; intros [[a b] [Ha Hin]]; simpl in Ha; subst a;
            apply filter_In in Hin; destruct Hin as [_ Hneq]; simpl in Hneq;
            rewrite Pos.eqb_refl in Hneq; discriminate).
  all: try (rewrite filter_In; intros [_ Hneq]; rewrite Nat.eqb_refl in Hneq; discriminate).
Qed.

(* ------------------------------------------------------------------ *)
(** ** captureFrame, run to completion *)

(** What an uninterrupted [captureFrame] does, case by case. *)
Lemma call_captureFrame (env : Env) (o : Oracle) (options : option CaptureOptions) (m : Machine) :
  call o (captureFrame env options) m =
  match currentStream (store m) with
  | None => (onStore (set_analysisError (Some noStreamMessage)) m, None)
  | Some sid =>
      let m1 := emit (EvAwait (VideoPlay sid)) m in
      match o _ (VideoPlay sid) with
      | Rejected e => (onStore (set_analysisError (Some (frameFailure e))) m1, None)
      | Resolved _ =>
          let m2 := emit (EvAwait (VideoLoaded sid)) m1 in
          let dims := o _ (VideoLoaded sid) in
          let wh := scaleDimensions (fst dims) (snd dims) (mergeOptions options) in
          if canvasContext2d env then
            let q := encodingQuality (mergeOptions options) (store m) in
            let url := toDataURL env (fst wh) (snd wh) q in
            (onStore (set_previewImageDataUrl (Some url))
               (emit (EvToDataURL (fst wh) (snd wh) q)
                  (emit (EvDrawImage sid (fst wh) (snd wh)) m2)),
             Some url)
          else
            (onStore (set_analysisError
                        (Some (frameFailure (ErrorObj "Failed to get canvas context")))) m2,
             None)
      end
  end.
Proof.
  unfold call, captureFrame. cbv beta.
  destruct (currentStream (store m)) as [sid |]; [| reflexivity].
  unfold await. cbn [run].
  destruct (o _ (VideoPlay sid)) as [u | e]; [| reflexivity].
  cbn [run]. cbv zeta.
  destruct (scaleDimensions _ _ _) as [w h].
  destruct (canvasContext2d env); reflexivity.
Qed.

(** [captureFrame] never touches the stream, the capture flag, the analysis
    flag, the timer handle or the last result. *)
Lemma call_captureFrame_frame (env : Env) (o : Oracle) (options : option CaptureOptions)
      (m : Machine) :
  let m' := fst (call o (captureFrame env options) m) in
  currentStream (store m') = currentStream (store m) /\
  isCapturing (store m') = isCapturing (store m) /\
  isAnalyzing (store m') = isAnalyzing (store m) /\
  captureIntervalId (store m') = captureIntervalId (store m) /\
  lastAnalysisResult (store m') = lastAnalysisResult (store m) /\
  activeVisionProvider (store m') = activeVisionProvider (store m) /\
  activeVisionModel (store m') = activeVisionModel (store m) /\
  liveStreams (world m') = liveStreams (world m) /\
  nextStream (world m') = nextStream (world m) /\
  activeTimers (world m') = activeTimers (world m).
Proof.
  cbv zeta. rewrite call_captureFrame.
  destruct (currentStream (store m)) as [sid |] eqn:Hcur;
    [| simpl; rewrite Hcur; repeat split].
  destruct (o _ (VideoPlay sid)) as [u | e];
    [| simpl; rewrite Hcur; repeat split].
  cbv zeta. destruct (canvasContext2d env); simpl; rewrite Hcur; repeat split.
Qed.

(* ------------------------------------------------------------------ *)
(** ** Frame scaling: bounds and aspect ratio *)

Lemma roundDiv_spec (a b : Z) :
  0 < b -> 2 * b * roundDiv a b <= 2 * a + b < 2 * b * roundDiv a b + 2 * b.
Proof.
  intros Hb. unfold roundDiv.
  pose proof (Z.div_mod (2 * a + b) (2 * b) ltac:(lia)) as Hdm.
  pose proof (Z.mod_pos_bound (2 * a + b) (2 * b) ltac:(lia)) as Hmod.
  lia.
Qed.

Lemma roundDiv_nonneg (a b : Z) : 0 < b -> 0 <= a -> 0 <= roundDiv a b.
Proof. intros Hb Ha. unfold roundDiv. apply Z.div_pos; lia. Qed.

(** Rounding a quotient that is at most the integer [c] stays at most [c]. *)
Lemma roundDiv_le (a b c : Z) : 0 < b -> a <= c * b -> roundDiv a b <= c.
Proof.
  intros Hb Hle. pose proof (@roundDiv_spec a b Hb) as [H1 _]. nia.
Qed.

(** The error of two roundings in a row, seen from the source frame. *)
Lemma two_roundings (vw vh maxW maxH h1 w2 : Z) :
  0 <= maxW -> 0 <= maxH -> maxW < vw -> 0 <= vh -> maxH < h1 ->
  2 * vw * h1 <= 2 * (vh * maxW) + vw < 2 * vw * h1 + 2 * vw ->
  2 * h1 * w2 <= 2 * (maxW * maxH) + h1 < 2 * h1 * w2 + 2 * h1 ->
  2 * Z.abs (w2 * vh - maxH * vw) <= vw + vh.
Proof.
  intros HmaxW HmaxH Hvw Hvh Hh1 R1 R2.
  assert (Hpos : 0 < vw * h1) by nia.
  apply Z.mul_le_mono_pos_r with (p := vw * h1); [exact Hpos |].
  assert (E : (w2 * vh - maxH * vw) * (vw * h1)
              = vw * (vh * (w2 * h1 - maxW * maxH) + maxH * (vh * maxW - h1 * vw))) by ring.
  assert (A1 : 2 * Z.abs (w2 * h1 - maxW * maxH) <= h1) by lia.
  assert (A2 : 2 * Z.abs (vh * maxW - h1 * vw) <= vw) by lia.
  rewrite <- Z.mul_assoc, <- (Z.abs_eq (vw * h1)) at 1 by lia.
  rewrite <- Z.abs_mul, E.
  rewrite Z.abs_mul. rewrite (Z.abs_eq vw) by lia.
  assert (T : Z.abs (vh * (w2 * h1 - maxW * maxH) + maxH * (vh * maxW - h1 * vw))
              <= vh * Z.abs (w2 * h1 - maxW * maxH) + maxH * Z.abs (vh * maxW - h1 * vw)).
  { eapply Z.le_trans; [apply Z.abs_triangle |].
    rewrite !Z.abs_mul. rewrite (Z.abs_eq vh), (Z.abs_eq maxH) by lia. lia. }
  assert (B1 : 2 * (vh * Z.abs (w2 * h1 - maxW * maxH)) <= vh * h1) by nia.
  assert (B2 : 2 * (maxH * Z.abs (vh * maxW - h1 * vw)) <= h1 * vw) by nia.
  assert (B3 : 2 * Z.abs (vh * (w2 * h1 - maxW * maxH) + maxH * (vh * maxW - h1 * vw))
               <= (vw + vh) * h1) by lia.
  replace ((vw + vh) * (vw * h1)) with (vw * ((vw + vh) * h1)) by ring.
  rewrite Z.mul_assoc, (Z.mul_comm 2 vw), <- Z.mul_assoc.
  apply Z.mul_le_mono_nonneg_l; lia.
Qed.

(** The output of the two rescaling steps for numeric, non-negative bounds:
    inside the box, no larger than the source on either axis, proportional to
    the source up to half a pixel on each axis, and the source itself when
    that already fits. *)
Lemma scaleDimensions_spec (vw vh maxW maxH : Z) (q : option Q) :
  0 <= vw -> 0 <= vh -> 0 <= maxW -> 0 <= maxH ->
  let wh := scaleDimensions vw vh (mkMerged (Some maxW) (Some maxH) q) in
  (0 <= fst wh <= maxW /\ 0 <= snd wh <= maxH) /\
  (fst wh <= vw /\ snd wh <= vh) /\
  2 * Z.abs (fst wh * vh - snd wh * vw) <= vw + vh /\
  (vw <= maxW -> vh <= maxH -> wh = (vw, vh)).
Proof.
  intros Hvw Hvh HmaxW HmaxH. unfold scaleDimensions.
  cbn [optMaxWidth optMaxHeight]. cbv zeta.
  destruct (Z.ltb_spec maxW vw) as [Hw | Hw].
  - (* the width is cut to maxW *)
    pose proof (@roundDiv_spec (vh * maxW) vw ltac:(lia)) as R1.
    pose proof (@roundDiv_nonneg (vh * maxW) vw ltac:(lia) ltac:(nia)) as N1.
    pose proof (@roundDiv_le (vh * maxW) vw vh ltac:(lia) ltac:(nia)) as L1.
    set (h1 := roundDiv (vh * maxW) vw) in *.
    destruct (Z.ltb_spec maxH h1) as [Hh | Hh]; cbv zeta; simpl fst; simpl snd.
    + (* and then the height to maxH *)
      pose proof (@roundDiv_spec (maxW * maxH) h1 ltac:(lia)) as R2.
      pose proof (@roundDiv_nonneg (maxW * maxH) h1 ltac:(lia) ltac:(nia)) as N2.
      pose proof (@roundDiv_le (maxW * maxH) h1 maxW ltac:(lia) ltac:(nia)) as L2.
      set (w2 := roundDiv (maxW * maxH) h1) in *.
      repeat split; try lia.
      apply two_roundings with (maxW := maxW) (h1 := h1); lia.
    + repeat split; try lia.
  - destruct (Z.ltb_spec maxH vh) as [Hh | Hh]; cbv zeta; simpl fst; simpl snd.
    + (* only the height is cut *)
      pose proof (@roundDiv_spec (vw * maxH) vh ltac:(lia)) as R2.
      pose proof (@roundDiv_nonneg (vw * maxH) vh ltac:(lia) ltac:(nia)) as N2.
      pose proof (@roundDiv_le (vw * maxH) vh vw ltac:(lia) ltac:(nia)) as L2.
      set (w2 := roundDiv (vw * maxH) vh) in *.
      repeat split; try lia.
    + repeat split; lia.
Qed.

(** What a successful [captureFrame] did: the stream it sampled, the canvas
    it drew and encoded, and the preview it stored. *)
Lemma call_captureFrame_success (env : Env) (o : Oracle) (options : option CaptureOptions)
      (m m' : Machine) (url : string) :
  call o (captureFrame env options) m = (m', Some url) ->
  exists sid,
    currentStream (store m) = Some sid /\
    let dims := o _ (VideoLoaded sid) in
    let wh := scaleDimensions (fst dims) (snd dims) (mergeOptions options) in
    let q := encodingQuality (mergeOptions options) (store m) in
    trace (world m') =
      (trace (world m) ++ [EvAwait (VideoPlay sid); EvAwait (VideoLoaded sid);
                           EvDrawImage sid (fst wh) (snd wh);
                           EvToDataURL (fst wh) (snd wh) q])%list /\
    url = toDataURL env (fst wh) (snd wh) q /\
    previewImageDataUrl (store m') = Some url.
Proof.
  rewrite call_captureFrame.
  destruct (currentStream (store m)) as [sid |]; [| discriminate].
  destruct (o _ (VideoPlay sid)) as [u | e]; [| discriminate].
  cbv zeta. destruct (canvasContext2d env); [| discriminate].
  intros H. injection H as <- <-. exists sid. split; [reflexivity |].
  simpl. rewrite <- !app_assoc. repeat split.
Qed.

(** The [maxWidth] and [maxHeight] properties of the argument, as the spread
    sees them. *)
Definition suppliedMaxWidth (options : option CaptureOptions) : Field Z :=
  match options with
  | None => Absent
  | Some o => maxWidth o
  end.

Definition suppliedMaxHeight (options : option CaptureOptions) : Field Z :=
  match options with
  | None => Absent
  | Some o => maxHeight o
  end.

(** The merged bounds follow the keys of the argument. *)
Lemma mergeOptions_bounds (options : option CaptureOptions) :
  optMaxWidth (mergeOptions options) =
    match suppliedMaxWidth options with
    | Absent => Some 1280
    | Undefined => None
    | Present w => Some w
    end /\
  optMaxHeight (mergeOptions options) =
    match suppliedMaxHeight options with
    | Absent => Some 720
    | Undefined => None
    | Present h => Some h
    end.
Proof. destruct options as [[[| | w] [| | h] q] |]; split; reflexivity. Qed.

(** Every promise resolves; the video is 4000x2000. *)
Definition wideFrame : Oracle := fun R req =>
  match req in Request T return T -> T with
  | VideoLoaded _ => fun _ => (4000, 2000)
  | _ => fun dflt => dflt
  end (grantAll req).

(** C6, as stated, fails.  An argument whose [maxWidth] key is present with
    the value [undefined] overrides the default in the merge; the comparison
    with it is false, so the width is cut by the height step only.  On a
    4000x2000 frame the call succeeds with a canvas of 1440x720, wider than
    the default bound of 1280. *)
Lemma captureFrame_undefined_maxWidth_exceeds_default :
  suppliedMaxWidth (Some (mkOptions Undefined Absent Absent)) = Undefined /\
  snd (call wideFrame (captureFrame browserEnv (Some (mkOptions Undefined Absent Absent)))
         capturingMachine)
    = Some "data:image/jpeg;base64,/9j/4AAQ" /\
  trace (world (fst (call wideFrame
                       (captureFrame browserEnv (Some (mkOptions Undefined Absent Absent)))
                       capturingMachine))) =
    (trace (world capturingMachine)
       ++ [EvAwait (VideoPlay 0%nat); EvAwait (VideoLoaded 0%nat);
           EvDrawImage 0%nat 1440 720; EvToDataURL 1440 720 (7 # 10)%Q])%list /\
  DEFAULT_maxWidth < 1440.
Proof.
  split; [reflexivity |]. split; [vm_compute; reflexivity |].
  split; [vm_compute; reflexivity | reflexivity].
Qed.

(** The sizes below which [roundDiv] is the source's rounding: with width,
    height and bounds under 2^26 the products are under 2^52, the quotient is
    off its double by less than the distance to the nearest half, and
    [Math.round] of either is the same integer. *)
Definition exactSize : Z := 2 ^ 26.

(** C6, amended.  The effective bound on an axis is the caller's when the
    argument carries a number under that key, and the default (1280, 720)
    when the argument or the key is absent; a key passed as [undefined]
    leaves its axis without a bound and is outside this statement.  For
    effective bounds that are not negative and a frame whose dimensions are
    not negative, all below 2^26: a successful [captureFrame] draws and
    encodes a canvas whose width and height do not exceed the effective
    bounds, are never larger than the source frame's, keep the source's
    aspect ratio up to half a pixel of rounding on each axis, and equal the
    source's when that already fits. *)
Theorem captureFrame_output_fits_bounds :
  forall (env : Env) (o : Oracle) (options : option CaptureOptions)
         (m m' : Machine) (url : string) (sid : StreamId) (maxW maxH : Z),
    currentStream (store m) = Some sid ->
    (suppliedMaxWidth options = Absent /\ maxW = 1280 \/
     suppliedMaxWidth options = Present maxW) ->
    (suppliedMaxHeight options = Absent /\ maxH = 720 \/
     suppliedMaxHeight options = Present maxH) ->
    0 <= maxW < exactSize -> 0 <= maxH < exactSize ->
    0 <= fst (o _ (VideoLoaded sid)) < exactSize ->
    0 <= snd (o _ (VideoLoaded sid)) < exactSize ->
    call o (captureFrame env options) m = (m', Some url) ->
    let vw := fst (o _ (VideoLoaded sid)) in
    let vh := snd (o _ (VideoLoaded sid)) in
    exists (w h : Z) (q : Q),
      trace (world m') =
        (trace (world m) ++ [EvAwait (VideoPlay sid); EvAwait (VideoLoaded sid);
                             EvDrawImage sid w h; EvToDataURL w h q])%list /\
      url = toDataURL env w h q /\
      (0 <= w <= maxW /\ 0 <= h <= maxH) /\
      (w <= vw /\ h <= vh) /\
      2 * Z.abs (w * vh - h * vw) <= vw + vh /\
      (vw <= maxW -> vh <= maxH -> w = vw /\ h = vh).
Proof.
  intros env o options m m' url sid maxW maxH Hcur Hwidth Hheight [HW _] [HH _]
         [Hvw _] [Hvh _] Hcall vw vh.
  destruct (mergeOptions_bounds options) as [HmaxW HmaxH].
  assert (HmaxW' : optMaxWidth (mergeOptions options) = Some maxW).
  { destruct Hwidth as [[Habs ->] | Hpres]; rewrite HmaxW;
      [rewrite Habs | rewrite Hpres]; reflexivity. }
  assert (HmaxH' : optMaxHeight (mergeOptions options) = Some maxH).
  { destruct Hheight as [[Habs ->] | Hpres]; rewrite HmaxH;
      [rewrite Habs | rewrite Hpres]; reflexivity. }
  clear HmaxW HmaxH.
  apply call_captureFrame_success in Hcall.
  destruct Hcall as (sid' & Hcur' & Htrace & Hurl & _).
  rewrite Hcur in Hcur'. injection Hcur' as <-.
  cbv zeta in Htrace, Hurl.
  destruct (mergeOptions options) as [ow oh oq] eqn:Hopts.
  simpl in HmaxW', HmaxH'. subst ow oh.
  pose proof (@scaleDimensions_spec vw vh maxW maxH oq Hvw Hvh HW HH) as Hspec.
  cbv zeta in Hspec. fold vw vh in Htrace, Hurl.
  destruct (scaleDimensions vw vh (mkMerged (Some maxW) (Some maxH) oq)) as [w h].
  simpl fst in *. simpl snd in *.
  destruct Hspec as (Hbox & Hshrink & Hratio & Hsame).
  exists w, h, (encodingQuality (mkMerged (Some maxW) (Some maxH) oq) (store m)).
  split; [exact Htrace |]. split; [exact Hurl |]. split; [exact Hbox |].
  split; [exact Hshrink |]. split; [exact Hratio |].
  intros Hw Hh. specialize (Hsame Hw Hh). injection Hsame as -> ->. split; reflexivity.
Qed.

(** A 1920x1080 screen sampled with [maxWidth] 640 and the default height:
    640x360. *)
Lemma captureFrame_output_fits_bounds_witness :
  exists (w h : Z) (q : Q),
    trace (world (fst (call grantAll
                         (captureFrame browserEnv (Some (mkOptions (Present 640) Absent Absent)))
                         capturingMachine))) =
      (trace (world capturingMachine)
         ++ [EvAwait (VideoPlay 0%nat); EvAwait (VideoLoaded 0%nat);
             EvDrawImage 0%nat w h; EvToDataURL w h q])%list /\
    "data:image/jpeg;base64,/9j/4AAQ" = toDataURL browserEnv w h q /\
    (0 <= w <= 640 /\ 0 <= h <= 720) /\
    (w <= 1920 /\ h <= 1080) /\
    2 * Z.abs (w * 1080 - h * 1920) <= 1920 + 1080 /\
    (1920 <= 640 -> 1080 <= 720 -> w = 1920 /\ h = 1080).
Proof.
  refine (@captureFrame_output_fits_bounds browserEnv grantAll
            (Some (mkOptions (Present 640) Absent Absent)) capturingMachine
            (fst (call grantAll
                    (captureFrame browserEnv (Some (mkOptions (Present 640) Absent Absent)))
                    capturingMachine))
            "data:image/jpeg;base64,/9j/4AAQ" 0%nat 640 720 _ _ _ _ _ _ _ _).
  - vm_compute. reflexivity.
  - right. reflexivity.
  - left. split; reflexivity.
  - vm_compute. split; [discriminate | reflexivity].
  - vm_compute. split; [discriminate | reflexivity].
  - vm_compute. split; [discriminate | reflexivity].
  - vm_compute. split; [discriminate | reflexivity].
  - vm_compute. reflexivity.
Defined.

(** The same frame with the default options: 1280x720. *)
Example captureFrame_default_bounds :
  trace (world (fst (call grantAll (captureFrame browserEnv None) capturingMachine))) =
    (trace (world capturingMachine)
       ++ [EvAwait (VideoPlay 0%nat); EvAwait (VideoLoaded 0%nat);
           EvDrawImage 0%nat 1280 720; EvToDataURL 1280 720 (7 # 10)%Q])%list.
Proof. vm_compute. reflexivity. Qed.

(** Both steps fire on a frame slightly taller than 16:9. *)
Example scaleDimensions_two_steps :
  scaleDimensions 2560 1441 (mergeOptions None) = (1278, 720).
Proof. reflexivity. Qed.

(* ------------------------------------------------------------------ *)
(** ** The encoding quality *)

(** The merged quality, and so the encoding quality, follows the [quality]
    key of the argument. *)
Lemma encodingQuality_cases (options : option CaptureOptions) (s : Store) :
  encodingQuality (mergeOptions options) s =
  match suppliedQuality options with
  | Absent => DEFAULT_quality
  | Undefined => compressionQuality s
  | Present q => q
  end.
Proof.
  destruct options as [[ow oh [| | q]] |]; reflexivity.
Qed.

(** C10, as stated, fails.  An argument whose [quality] key is present with
    the value [undefined] overrides the default in the merge, the [??]
    fallback is taken, and the frame is encoded at the persisted
    [compressionQuality] (here 0.5), not at 0.7. *)
Lemma captureFrame_undefined_quality_reads_setting :
  optQuality (mergeOptions (Some (mkOptions Absent Absent Undefined))) = None /\
  compressionQuality (store halfQualityMachine) = (1 # 2)%Q /\
  trace (world (fst (call grantAll
                       (captureFrame browserEnv (Some (mkOptions Absent Absent Undefined)))
                       halfQualityMachine))) =
    (trace (world halfQualityMachine)
       ++ [EvAwait (VideoPlay 0%nat); EvAwait (VideoLoaded 0%nat);
           EvDrawImage 0%nat 1280 720; EvToDataURL 1280 720 (1 # 2)%Q])%list /\
  ~ ((1 # 2) == DEFAULT_quality)%Q.
Proof.
  split; [reflexivity |]. split; [reflexivity |]. split; [vm_compute; reflexivity |].
  unfold DEFAULT_quality, Qeq. simpl. discriminate.
Qed.

(** C10, amended.  When the argument is omitted or has no [quality] key, a
    successful [captureFrame] encodes at exactly 0.7, and neither its result
    nor what it does to the world depends on [compressionQuality]: the
    setting is not read.  When the key is present with value [undefined],
    the fallback is taken and the frame is encoded at [compressionQuality]. *)
Theorem captureFrame_quality_default_unless_undefined :
  forall (env : Env) (o : Oracle) (options : option CaptureOptions) (m : Machine),
    (suppliedQuality options = Absent ->
       (forall m' url,
           call o (captureFrame env options) m = (m', Some url) ->
           exists sid w h,
             trace (world m') =
               (trace (world m) ++ [EvAwait (VideoPlay sid); EvAwait (VideoLoaded sid);
                                    EvDrawImage sid w h;
                                    EvToDataURL w h DEFAULT_quality])%list /\
             url = toDataURL env w h DEFAULT_quality) /\
       (forall c : Q,
           let mc := onStore (set_compressionQuality c) m in
           snd (call o (captureFrame env options) mc) = snd (call o (captureFrame env options) m) /\
           world (fst (call o (captureFrame env options) mc))
             = world (fst (call o (captureFrame env options) m)))) /\
    (suppliedQuality options = Undefined ->
       forall m' url,
         call o (captureFrame env options) m = (m', Some url) ->
         exists sid w h,
           trace (world m') =
             (trace (world m) ++ [EvAwait (VideoPlay sid); EvAwait (VideoLoaded sid);
                                  EvDrawImage sid w h;
                                  EvToDataURL w h (compressionQuality (store m))])%list /\
           url = toDataURL env w h (compressionQuality (store m))).
Proof.
  intros env o options m. split.
  - intros Habsent. split.
    + intros m' url Hcall.
      apply call_captureFrame_success in Hcall.
      destruct Hcall as (sid & _ & Htrace & Hurl & _). cbv zeta in Htrace, Hurl.
      rewrite encodingQuality_cases, Habsent in Htrace, Hurl.
      eexists sid, _, _. split; [exact Htrace | exact Hurl].
    + intros c mc. subst mc. rewrite !call_captureFrame.
      rewrite !encodingQuality_cases, Habsent.
      destruct m as [s w]. simpl.
      destruct (currentStream s) as [sid |]; [| split; reflexivity].
      destruct (o _ (VideoPlay sid)) as [u | e]; [| split; reflexivity].
      destruct (canvasContext2d env); split; reflexivity.
  - intros Hundef m' url Hcall.
    apply call_captureFrame_success in Hcall.
    destruct Hcall as (sid & _ & Htrace & Hurl & _). cbv zeta in Htrace, Hurl.
    rewrite encodingQuality_cases, Hundef in Htrace, Hurl.
    eexists sid, _, _. split; [exact Htrace | exact Hurl].
Qed.

(** The default options on a store whose [compressionQuality] is 0.5: the
    frame is still encoded at 0.7. *)
Lemma captureFrame_quality_default_unless_undefined_witness :
  exists sid w h,
    trace (world (fst (call grantAll (captureFrame browserEnv None) halfQualityMachine))) =
      (trace (world halfQualityMachine)
         ++ [EvAwait (VideoPlay sid); EvAwait (VideoLoaded sid);
             EvDrawImage sid w h; EvToDataURL w h DEFAULT_quality])%list /\
    "data:image/jpeg;base64,/9j/4AAQ" = toDataURL browserEnv w h DEFAULT_quality.
Proof.
  refine (proj1 (proj1 (@captureFrame_quality_default_unless_undefined
                          browserEnv grantAll None halfQualityMachine) eq_refl)
                (fst (call grantAll (captureFrame browserEnv None) halfQualityMachine))
                "data:image/jpeg;base64,/9j/4AAQ" _).
  vm_compute. reflexivity.
Defined.

(* ------------------------------------------------------------------ *)
(** ** startCapture, run to completion *)

Lemma settled_failWith (o : Oracle) (msg : string) (m : Machine) :
  idle m -> msg <> "" -> settled m (call o (failWith msg) m).
Proof.
  intros (Hcap & Hcur & _) Hmsg. split.
  - repeat split.
  - right. unfold refused. simpl. repeat split; try assumption.
    exists msg. split; [reflexivity | assumption].
Qed.

Lemma settled_holdResolved (o : Oracle) (isStream : bool) (m : Machine) :
  idle m -> settled m (call o (holdResolved isStream) m).
Proof.
  intros (Hcap & Hcur & Herr). destruct isStream; split.
  - repeat split.
  - left. unfold acquired. simpl. repeat split. exact Herr.
  - repeat split.
  - right. unfold refused. simpl. repeat split; try assumption.
    eexists. split; [reflexivity | discriminate].
Qed.

(** Issuing a request changes the log only. *)
Lemma settled_emit (e : Event) (m : Machine) (r : Machine * bool) :
  settled (emit e m) r -> settled m r.
Proof. intros H. exact H. Qed.

Lemma idle_emit (e : Event) (m : Machine) : idle m -> idle (emit e m).
Proof. intros H. exact H. Qed.

Lemma append_nonempty (a : Ascii.ascii) (s t : string) : String a s ++ t <> "".
Proof. simpl. discriminate. Qed.

Ltac nonempty := first [ apply append_nonempty | discriminate ].

Lemma settled_outerCatch (o : Oracle) (e : JsError) (m : Machine) :
  idle m -> settled m (call o (outerCatch e) m).
Proof. intros H. apply settled_failWith; [exact H | nonempty]. Qed.

Lemma settled_electronCatch (o : Oracle) (e : JsError) (m : Machine) :
  idle m -> settled m (call o (electronCatch e) m).
Proof. intros H. apply settled_failWith; [exact H | nonempty]. Qed.

Lemma settled_displayCatch (o : Oracle) (e : JsError) (m : Machine) :
  idle m -> settled m (call o (displayCatch e) m).
Proof.
  intros H. unfold displayCatch.
  destruct (includes _ _ || includes _ _); apply settled_failWith; try exact H; nonempty.
Qed.

Lemma settled_cameraCatch (o : Oracle) (e : JsError) (m : Machine) :
  idle m -> settled m (call o (cameraCatch e) m).
Proof.
  intros H. unfold cameraCatch.
  destruct (includes _ _ || includes _ _); [apply settled_failWith; [exact H | nonempty] |].
  destruct (includes _ _); apply settled_failWith; try exact H; nonempty.
Qed.

(** Step into a call: expose the synchronous prefix of its body. *)
Ltac enter := unfold call; cbv beta.

(** Step over an [await]: the request is logged and the continuation runs on
    the oracle's answer. *)
Ltac resume := cbv beta iota delta [await]; cbn [run]; cbv beta.

Lemma settled_electronAcquire (env : Env) (o : Oracle) (m : Machine) :
  idle m -> settled m (call o (electronAcquire env) m).
Proof.
  intros H. unfold electronAcquire. enter.
  destruct (navigator env) as [[md |] |]; try (apply (@settled_electronCatch o); exact H).
  destruct (hasGetUserMedia md); [| apply (@settled_electronCatch o); exact H].
  resume.
  destruct (o _ _) as [u | e]; eapply settled_emit;
    [apply (@settled_holdResolved o) | apply (@settled_electronCatch o)];
    apply idle_emit; exact H.
Qed.

Lemma settled_displayCapture (env : Env) (o : Oracle) (m : Machine) :
  idle m -> settled m (call o (displayCapture env) m).
Proof.
  intros H. unfold displayCapture. enter.
  destruct (navigator env) as [md |]; [| apply (@settled_outerCatch o); exact H].
  destruct (negb _); [apply (@settled_failWith o); [exact H | nonempty] |].
  resume.
  destruct (o _ _) as [u | e]; eapply settled_emit;
    [apply (@settled_holdResolved o) | apply (@settled_displayCatch o)];
    apply idle_emit; exact H.
Qed.

Lemma settled_cameraCapture (env : Env) (o : Oracle) (m : Machine) :
  idle m -> settled m (call o (cameraCapture env) m).
Proof.
  intros H. unfold cameraCapture. enter.
  destruct (navigator env) as [md |]; [| apply (@settled_outerCatch o); exact H].
  destruct (negb _); [apply (@settled_failWith o); [exact H | nonempty] |].
  resume.
  destruct (o _ _) as [u | e]; eapply settled_emit;
    [apply (@settled_holdResolved o) | apply (@settled_cameraCatch o)];
    apply idle_emit; exact H.
Qed.

Lemma settled_transfer (m m1 : Machine) (r : Machine * bool) :
  sameSession m m1 -> sameStreams m m1 -> settled m1 r -> settled m r.
Proof.
  intros (Ha & Hb & Hc & Hd & He & Hf) (Hl & Hn) ((Ha' & Hb' & Hc' & Hd' & He' & Hf') & Hr).
  split.
  - repeat split; congruence.
  - destruct Hr as [Hacq | Href]; [left | right].
    + destruct Hacq as (H1 & H2 & H3 & H4 & H5 & H6).
      repeat split; try assumption; congruence.
    + destruct Href as (H1 & H2 & H3 & H4 & H5 & H6).
      repeat split; try assumption; congruence.
Qed.

(** [fetchDesktopSources] rewrites the source list and the loading flag and
    nothing else of the store. *)
Lemma call_fetchDesktopSources (env : Env) (o : Oracle) (m : Machine) :
  let m' := fst (call o (fetchDesktopSources env) m) in
  (idle m -> idle m') /\ sameSession m m' /\ sameStreams m m' /\
  isCapturing (store m') = isCapturing (store m) /\
  currentStream (store m') = currentStream (store m).
Proof.
  cbv zeta. unfold fetchDesktopSources. enter.
  destruct (negb (getElectronApi env)).
  - simpl. split; [intros H; exact H | repeat split].
  - resume. destruct (o _ IpcGetDesktopSources) as [sources | e]; simpl;
      (split; [intros H; exact H | repeat split]).
Qed.

Lemma settled_electronCapture (env : Env) (o : Oracle) (m : Machine) :
  idle m -> settled m (call o (electronCapture env) m).
Proof.
  intros H. unfold electronCapture. enter.
  destruct (negb (truthy (selectedDesktopSourceId (store m))));
    [| apply (@settled_electronAcquire env o); exact H].
  change (settled m (call o (bind (fetchDesktopSources env)
    (fun (_ : unit) (m0 : Machine) =>
       match availableDesktopSources (store m0) with
       | [] => failWith "No screen or window sources available." m0
       | first :: _ =>
           electronAcquire env
             (onStore (set_selectedDesktopSourceId
                (srcId match find (fun s => DesktopSourceType_eqb (srcType s)
                                     (if CaptureSource_eqb (captureSource (store m0)) Screen
                                      then ScreenSource else WindowSource))
                                  (availableDesktopSources (store m0)) with
                       | Some d => d
                       | None => first
                       end)) m0)
       end)) m)).
  rewrite call_bind.
  pose proof (call_fetchDesktopSources env o m) as (Hidle & Hsess & Hstr & _).
  destruct (call o (fetchDesktopSources env) m) as [m1 u]. simpl fst in *.
  specialize (Hidle H).
  apply settled_transfer with (m1 := m1); try assumption.
  enter.
  destruct (availableDesktopSources (store m1)) as [| first rest].
  - apply (@settled_failWith o); [exact Hidle | nonempty].
  - match goal with
    | |- settled _ (let (_, _) := electronAcquire _ ?m2 in _) =>
        apply settled_transfer with (m1 := m2);
          [repeat split | repeat split | apply (@settled_electronAcquire env o); exact Hidle]
    end.
Qed.

(** [startCapture] first stops whatever was captured and clears the error;
    from there it either acquires the platform's next stream or records a
    message. *)
Lemma call_startCapture (env : Env) (o : Oracle) (m : Machine) :
  settled (onStore (set_analysisError None) (stopCapture m)) (call o (startCapture env) m).
Proof.
  assert (Hidle : idle (onStore (set_analysisError None) (stopCapture m))).
  { unfold idle, stopCapture. destruct (currentStream (store m)) eqn:Hcur; simpl;
      rewrite ?Hcur; repeat split. }
  unfold startCapture. enter. cbv zeta.
  destruct (captureSource _).
  - destruct (isElectron env);
      [apply (@settled_electronCapture env o) | apply (@settled_displayCapture env o)];
      exact Hidle.
  - apply (@settled_cameraCapture env o); exact Hidle.
  - destruct (isElectron env);
      [apply (@settled_electronCapture env o) | apply (@settled_displayCapture env o)];
      exact Hidle.
Qed.

(** The camera branch when the platform refuses with a permission error. *)
Lemma call_startCapture_camera_denied (env : Env) (o : Oracle) (m : Machine)
      (md : MediaDevices) (e : JsError) :
  captureSource (store m) = Camera ->
  navigator env = Some (Some md) ->
  hasGetUserMedia md = true ->
  o _ (GetUserMediaCamera (maxImageWidth (store m)) (maxImageHeight (store m))) = Rejected e ->
  includes (errorMessage e) "NotAllowedError"
    || includes (errorMessage e) "Permission denied" = true ->
  snd (call o (startCapture env) m) = false /\
  analysisError (store (fst (call o (startCapture env) m))) = Some cameraDeniedMessage.
Proof.
  intros Hsrc Hnav Hmd Hrej Hdenied.
  unfold startCapture. enter. cbv zeta.
  replace (captureSource (store (onStore (set_analysisError None) (stopCapture m))))
    with Camera
    by (rewrite <- Hsrc; unfold stopCapture; destruct (currentStream (store m)); reflexivity).
  unfold cameraCapture. rewrite Hnav, Hmd. cbn [negb]. resume.
  replace (maxImageWidth (store (onStore (set_analysisError None) (stopCapture m))))
    with (maxImageWidth (store m))
    by (unfold stopCapture; destruct (currentStream (store m)); reflexivity).
  replace (maxImageHeight (store (onStore (set_analysisError None) (stopCapture m))))
    with (maxImageHeight (store m))
    by (unfold stopCapture; destruct (currentStream (store m)); reflexivity).
  rewrite Hrej. unfold cameraCatch. rewrite Hdenied. split; reflexivity.
Qed.

(** Stopping the previous capture and clearing the error leave the source
    and the size settings alone. *)
Lemma startCapture_entry_settings (m : Machine) :
  let m0 := onStore (set_analysisError None) (stopCapture m) in
  captureSource (store m0) = captureSource (store m) /\
  maxImageWidth (store m0) = maxImageWidth (store m) /\
  maxImageHeight (store m0) = maxImageHeight (store m) /\
  selectedDesktopSourceId (store m0) = selectedDesktopSourceId (store m).
Proof.
  cbv zeta. unfold stopCapture. destruct (currentStream (store m)); repeat split.
Qed.

(** The camera branch when the platform hands over a stream. *)
Lemma call_startCapture_camera_granted (env : Env) (o : Oracle) (m : Machine)
      (md : MediaDevices) :
  captureSource (store m) = Camera ->
  navigator env = Some (Some md) ->
  hasGetUserMedia md = true ->
  o _ (GetUserMediaCamera (maxImageWidth (store m)) (maxImageHeight (store m)))
    = Resolved true ->
  snd (call o (startCapture env) m) = true.
Proof.
  intros Hsrc Hnav Hmd Hok.
  pose proof (startCapture_entry_settings m) as H. cbv zeta in H.
  destruct H as (Hs & Hw & Hh & _).
  unfold startCapture. enter. cbv zeta. rewrite Hs, Hsrc.
  unfold cameraCapture. rewrite Hnav, Hmd. cbn [negb]. resume.
  rewrite Hw, Hh, Hok. reflexivity.
Qed.

(** The browser branch when the platform hands over a stream. *)
Lemma call_startCapture_display_granted (env : Env) (o : Oracle) (m : Machine)
      (md : MediaDevices) :
  captureSource (store m) <> Camera ->
  isElectron env = false ->
  navigator env = Some (Some md) ->
  hasGetDisplayMedia md = true ->
  o _ (GetDisplayMedia (maxImageWidth (store m)) (maxImageHeight (store m)))
    = Resolved true ->
  snd (call o (startCapture env) m) = true.
Proof.
  intros Hsrc Hshell Hnav Hmd Hok.
  pose proof (startCapture_entry_settings m) as H. cbv zeta in H.
  destruct H as (Hs & Hw & Hh & _).
  unfold startCapture. enter. cbv zeta. rewrite Hs, Hshell.
  assert (Hgo : snd (let (m', t) :=
                       displayCapture env (onStore (set_analysisError None) (stopCapture m)) in
                     run o t m') = true).
  { unfold displayCapture. rewrite Hnav, Hmd. cbn [negb]. resume.
    rewrite Hw, Hh, Hok. reflexivity. }
  destruct (captureSource (store m)); [exact Hgo | contradiction Hsrc; reflexivity | exact Hgo].
Qed.

(** The desktop shell with a source already selected, when the platform
    hands over a stream. *)
Lemma call_startCapture_desktop_granted (env : Env) (o : Oracle) (m : Machine)
      (md : MediaDevices) :
  captureSource (store m) <> Camera ->
  isElectron env = true ->
  truthy (selectedDesktopSourceId (store m)) = true ->
  navigator env = Some (Some md) ->
  hasGetUserMedia md = true ->
  o _ (GetUserMediaDesktop (selectedDesktopSourceId (store m))
         (maxImageWidth (store m)) (maxImageHeight (store m)))
    = Resolved true ->
  snd (call o (startCapture env) m) = true.
Proof.
  intros Hsrc Hshell Hsel Hnav Hmd Hok.
  pose proof (startCapture_entry_settings m) as H. cbv zeta in H.
  destruct H as (Hs & Hw & Hh & Hid).
  unfold startCapture. enter. cbv zeta. rewrite Hs, Hshell.
  assert (Hgo : snd (let (m', t) :=
                       electronCapture env (onStore (set_analysisError None) (stopCapture m)) in
                     run o t m') = true).
  { unfold electronCapture. rewrite Hid, Hsel. cbn [negb].
    unfold electronAcquire. rewrite Hnav, Hmd. resume.
    rewrite Hid, Hw, Hh, Hok. reflexivity. }
  destruct (captureSource (store m)); [exact Hgo | contradiction Hsrc; reflexivity | exact Hgo].
Qed.

(** The desktop shell with no source selected: the directory lists at least
    one source, and the platform hands over a stream for whichever is
    chosen. *)
Lemma call_startCapture_desktop_fetched_granted (env : Env) (o : Oracle) (m : Machine)
      (md : MediaDevices) (raw : RawSource) (rest : list RawSource) :
  captureSource (store m) <> Camera ->
  isElectron env = true ->
  windowElectron env = true ->
  truthy (selectedDesktopSourceId (store m)) = false ->
  o _ IpcGetDesktopSources = Resolved (raw :: rest) ->
  navigator env = Some (Some md) ->
  hasGetUserMedia md = true ->
  (forall id, o _ (GetUserMediaDesktop id (maxImageWidth (store m)) (maxImageHeight (store m)))
              = Resolved true) ->
  snd (call o (startCapture env) m) = true.
Proof.
  intros Hsrc Hshell Hwin Hsel Hipc Hnav Hmd Hok.
  pose proof (startCapture_entry_settings m) as H. cbv zeta in H.
  destruct H as (Hs & Hw & Hh & Hid).
  set (m0 := onStore (set_analysisError None) (stopCapture m)) in *.
  assert (Hgo : snd (call o (electronCapture env) m0) = true).
  { unfold electronCapture. enter. rewrite Hid, Hsel. cbn [negb].
    unfold bind, fetchDesktopSources, getElectronApi. rewrite Hshell, Hwin. cbn [negb].
    resume. cbn [andThen]. cbn [run]. rewrite Hipc. cbv beta iota zeta.
    unfold ret. cbn [andThen]. cbn [onStore store availableDesktopSources set_availableDesktopSources
       set_isLoadingDesktopSources map].
    unfold electronAcquire. rewrite Hnav, Hmd. resume.
    match goal with |- context [o _ (GetUserMediaDesktop ?i ?w ?h)] =>
      change w with (maxImageWidth (store m0)); change h with (maxImageHeight (store m0)) end.
    rewrite Hw, Hh, Hok. reflexivity. }
  unfold startCapture. enter. cbv zeta. fold m0. rewrite Hs, Hshell.
  destruct (captureSource (store m)); [exact Hgo | contradiction Hsrc; reflexivity | exact Hgo].
Qed.


(* ------------------------------------------------------------------ *)
(** ** analyzeImage, run to completion *)

(** The guard of [analyzeImage] is the negation of [configured]. *)
Lemma analyzeImage_guard (s : Store) :
  negb (truthy (activeVisionProvider s)) || negb (truthy (activeVisionModel s))
  = negb (configured s).
Proof. unfold configured. rewrite negb_andb. reflexivity. Qed.

(** What an uninterrupted [analyzeImage] does, case by case. *)
Lemma call_analyzeImage (env : Env) (o : Oracle) (imageDataUrl : string)
      (prompt : option string) (m : Machine) :
  call o (analyzeImage env imageDataUrl prompt) m =
  if configured (store m) then
    let getProvider := GetProviderInstance (activeVisionProvider (store m)) in
    let m1 := emit (EvAwait getProvider)
                (onStore (set_analysisError None) (onStore (set_isAnalyzing true) m)) in
    let failed e m :=
      (onStore (set_isAnalyzing false)
         (onStore (set_analysisError (Some (analysisFailure e))) m), None) in
    match o _ getProvider with
    | Rejected e => failed e m1
    | Resolved false => failed (ErrorObj "Failed to get provider instance") m1
    | Resolved true =>
        let generate :=
          GenerateText
            (if truthy (activeCustomModelName (store m))
             then activeCustomModelName (store m) else activeVisionModel (store m))
            (match prompt with Some p => p | None => defaultPrompt end)
            imageDataUrl in
        let m2 := emit (EvAwait generate) m1 in
        match o _ generate with
        | Rejected e => failed e m2
        | Resolved text =>
            let result := mkResult (dateNow env) (match text with Some t => t | None => "" end) in
            (onStore (set_isAnalyzing false) (onStore (set_lastAnalysisResult (Some result)) m2),
             Some result)
        end
    end
  else (onStore (set_analysisError (Some configMessage)) m, None).
Proof.
  unfold analyzeImage. enter. rewrite analyzeImage_guard.
  destruct (configured (store m)); [| reflexivity].
  cbn [negb]. cbv zeta. resume.
  destruct (o _ (GetProviderInstance _)) as [[|] | e]; try reflexivity.
  resume. cbn [store onStore emit].
  destruct (o _ (GenerateText _ _ _)) as [text | e]; reflexivity.
Qed.

(** [analyzeImage] never touches the stream, the capture flag, the preview
    or the timer, nor the streams and timers of the world. *)
Lemma call_analyzeImage_frame (env : Env) (o : Oracle) (imageDataUrl : string)
      (prompt : option string) (m : Machine) :
  let m' := fst (call o (analyzeImage env imageDataUrl prompt) m) in
  currentStream (store m') = currentStream (store m) /\
  isCapturing (store m') = isCapturing (store m) /\
  captureIntervalId (store m') = captureIntervalId (store m) /\
  previewImageDataUrl (store m') = previewImageDataUrl (store m) /\
  liveStreams (world m') = liveStreams (world m) /\
  nextStream (world m') = nextStream (world m) /\
  activeTimers (world m') = activeTimers (world m).
Proof.
  cbv zeta. rewrite call_analyzeImage.
  destruct (configured (store m)); [| repeat split].
  cbv zeta.
  destruct (o _ (GetProviderInstance _)) as [[|] | e];
    [| repeat split; reflexivity | repeat split; reflexivity].
  destruct (o _ (GenerateText _ _ _)) as [text | e]; repeat split; reflexivity.
Qed.

(* ------------------------------------------------------------------ *)
(** ** captureAndAnalyze *)

(** An uninterrupted [captureAndAnalyze] is [captureFrame] run to
    completion, then [analyzeImage] on its result if there is one. *)
Lemma call_captureAndAnalyze (env : Env) (o : Oracle) (prompt : option string) (m : Machine) :
  call o (captureAndAnalyze env prompt) m =
  match snd (call o (captureFrame env None) m) with
  | None => (fst (call o (captureFrame env None) m), None)
  | Some url =>
      if negb (truthy url) then (fst (call o (captureFrame env None) m), None)
      else call o (analyzeImage env url prompt) (fst (call o (captureFrame env None) m))
  end.
Proof.
  unfold captureAndAnalyze. rewrite call_bind.
  destruct (call o (captureFrame env None) m) as [m1 [url |]]; cbv beta iota; cbn [fst snd].
  - destruct (negb (truthy url)); reflexivity.
  - reflexivity.
Qed.

(** C4.  [captureAndAnalyze] runs [captureFrame] first and [analyzeImage]
    second, on the frame's machine and result; when the frame is empty it
    returns empty without analysing.  With a frame captured but provider or
    model unset, the result is empty, the preview holds the captured frame,
    the configuration error is recorded, and the world saw the frame being
    drawn and encoded and no request to the provider. *)
Theorem captureAndAnalyze_frames_then_analyzes :
  forall (env : Env) (o : Oracle) (prompt : option string) (m : Machine),
    let framed := call o (captureFrame env None) m in
    let r := call o (captureAndAnalyze env prompt) m in
    (r = match snd framed with
         | None => (fst framed, None)
         | Some url =>
             if negb (truthy url) then (fst framed, None)
             else call o (analyzeImage env url prompt) (fst framed)
         end) /\
    (snd framed = None -> r = (fst framed, None)) /\
    (forall url : string,
        snd framed = Some url -> truthy url = true -> configured (store m) = false ->
        snd r = None /\
        previewImageDataUrl (store (fst r)) = Some url /\
        analysisError (store (fst r)) = Some configMessage /\
        (exists sid w h q,
            currentStream (store m) = Some sid /\
            url = toDataURL env w h q /\
            trace (world (fst r)) =
              (trace (world m) ++ [EvAwait (VideoPlay sid); EvAwait (VideoLoaded sid);
                                   EvDrawImage sid w h; EvToDataURL w h q])%list) /\
        existsb isProviderRequest
          (skipn (length (trace (world m))) (trace (world (fst r)))) = false).
Proof.
  intros env o prompt m framed r.
  assert (Hr : r = match snd framed with
                   | None => (fst framed, None)
                   | Some url =>
                       if negb (truthy url) then (fst framed, None)
                       else call o (analyzeImage env url prompt) (fst framed)
                   end)
    by apply call_captureAndAnalyze.
  split; [exact Hr |]. split.
  - intros Hnone. rewrite Hr, Hnone. reflexivity.
  - intros url Hsome Htruthy Hconf.
    rewrite Hsome, Htruthy in Hr. cbn [negb] in Hr.
    pose proof (call_captureFrame_frame env o None m) as Hframe. cbv zeta in Hframe.
    fold framed in Hframe.
    destruct Hframe as (_ & _ & _ & _ & _ & Hprov & Hmodel & _).
    assert (Hconf' : configured (store (fst framed)) = false)
      by (unfold configured in *; rewrite Hprov, Hmodel; exact Hconf).
    rewrite call_analyzeImage, Hconf' in Hr.
    assert (Hcall : call o (captureFrame env None) m = (fst framed, Some url))
      by (rewrite <- Hsome; subst framed; apply surjective_pairing).
    apply call_captureFrame_success in Hcall.
    destruct Hcall as (sid & Hcur & Htrace & Hurl & Hprev). cbv zeta in Htrace, Hurl.
    rewrite Hr. cbn [fst snd]. split; [reflexivity |].
    split; [exact Hprev |]. split; [reflexivity |]. split.
    + exists sid. eexists _, _, _. split; [exact Hcur |]. split; [exact Hurl | exact Htrace].
    + cbn [world onStore]. rewrite Htrace, skipn_app, skipn_all, Nat.sub_diag. reflexivity.
Qed.

(** The frame is captured, then the configuration check fails. *)
Lemma captureAndAnalyze_frames_then_analyzes_witness :
  snd (call grantAll (captureAndAnalyze browserEnv None) unconfiguredMachine) = None /\
  previewImageDataUrl
    (store (fst (call grantAll (captureAndAnalyze browserEnv None) unconfiguredMachine)))
    = Some "data:image/jpeg;base64,/9j/4AAQ" /\
  analysisError
    (store (fst (call grantAll (captureAndAnalyze browserEnv None) unconfiguredMachine)))
    = Some configMessage.
Proof.
  pose proof (proj2 (proj2 (captureAndAnalyze_frames_then_analyzes browserEnv grantAll None
                              unconfiguredMachine))
                    "data:image/jpeg;base64,/9j/4AAQ") as H.
  cbv zeta in H.
  destruct H as (Hres & Hprev & Herr & _); try (vm_compute; reflexivity).
  split; [exact Hres |]. split; [exact Hprev | exact Herr].
Defined.

(* ------------------------------------------------------------------ *)
(** ** Continuous capture *)

Lemma filter_timer_only (id : TimerId) (timers : list (TimerId * Z)) :
  map fst timers = [id] ->
  filter (fun t => negb (Pos.eqb (fst t) id)) timers = [].
Proof.
  destruct timers as [| [a ms] [| t rest]]; try discriminate.
  simpl. intros H. injection H as ->. rewrite Pos.eqb_refl. reflexivity.
Qed.

(** The analysis flag is the same in both machines. *)
Definition sameFlag (m m' : Machine) : Prop :=
  isAnalyzing (store m') = isAnalyzing (store m).

Lemma sameFlag_refl (m : Machine) : sameFlag m m.
Proof. reflexivity. Qed.

Lemma sameFlag_trans (m1 m2 m3 : Machine) : sameFlag m1 m2 -> sameFlag m2 m3 -> sameFlag m1 m3.
Proof. unfold sameFlag. congruence. Qed.

Ltac flag_done := split; [reflexivity | exact I].

Lemma failWith_flag (msg : string) : stretchesKeep sameFlag (failWith msg).
Proof. intros m. unfold failWith, ret. flag_done. Qed.

Lemma holdResolved_flag (isStream : bool) : stretchesKeep sameFlag (holdResolved isStream).
Proof.
  intros m. unfold holdResolved, grantStream, finishCapture, failWith, ret.
  destruct isStream; cbn; flag_done.
Qed.

Lemma displayCatch_flag (e : JsError) : stretchesKeep sameFlag (displayCatch e).
Proof. unfold displayCatch. cbv zeta. destruct (_ || _); apply failWith_flag. Qed.

Lemma cameraCatch_flag (e : JsError) : stretchesKeep sameFlag (cameraCatch e).
Proof.
  unfold cameraCatch. cbv zeta. destruct (_ || _); [apply failWith_flag |].
  destruct (includes _ _); apply failWith_flag.
Qed.

Lemma displayCapture_flag (env : Env) : stretchesKeep sameFlag (displayCapture env).
Proof.
  intros m. unfold displayCapture, outerCatch.
  destruct (navigator env) as [md |]; [| apply failWith_flag].
  destruct (negb _); [apply failWith_flag |].
  unfold await. split; [reflexivity |]. cbn [everyStretch].
  intros [isStream | e] x; [apply holdResolved_flag | apply displayCatch_flag].
Qed.

Lemma cameraCapture_flag (env : Env) : stretchesKeep sameFlag (cameraCapture env).
Proof.
  intros m. unfold cameraCapture, outerCatch.
  destruct (navigator env) as [md |]; [| apply failWith_flag].
  destruct (negb _); [apply failWith_flag |].
  unfold await. split; [reflexivity |]. cbn [everyStretch].
  intros [isStream | e] x; [apply holdResolved_flag | apply cameraCatch_flag].
Qed.

Lemma electronAcquire_flag (env : Env) : stretchesKeep sameFlag (electronAcquire env).
Proof.
  intros m. unfold electronAcquire, electronCatch.
  destruct (navigator env) as [[md |] |]; try apply failWith_flag.
  destruct (hasGetUserMedia md); [| apply failWith_flag].
  unfold await. split; [reflexivity |]. cbn [everyStretch].
  intros [isStream | e] x; [apply holdResolved_flag | apply failWith_flag].
Qed.

Lemma fetchDesktopSources_flag (env : Env) : stretchesKeep sameFlag (fetchDesktopSources env).
Proof.
  intros m. unfold fetchDesktopSources.
  destruct (negb (getElectronApi env)); [unfold ret; flag_done |].
  unfold await. split; [reflexivity |]. cbn [everyStretch].
  intros [sources | e] x; unfold ret; flag_done.
Qed.

Lemma electronCapture_flag (env : Env) : stretchesKeep sameFlag (electronCapture env).
Proof.
  intros m. unfold electronCapture.
  destruct (negb (truthy (selectedDesktopSourceId (store m))));
    [| apply electronAcquire_flag].
  assert (H : stretchesKeep sameFlag
    (bind (fetchDesktopSources env)
       (fun (_ : unit) (m0 : Machine) =>
          match availableDesktopSources (store m0) with
          | [] => failWith "No screen or window sources available." m0
          | first :: _ =>
              electronAcquire env
                (onStore (set_selectedDesktopSourceId
                   (srcId match find (fun s => DesktopSourceType_eqb (srcType s)
                                        (if CaptureSource_eqb (captureSource (store m0)) Screen
                                         then ScreenSource else WindowSource))
                                     (availableDesktopSources (store m0)) with
                          | Some d => d
                          | None => first
                          end)) m0)
          end))).
  { apply stretches_bind;
      [exact sameFlag_refl | exact sameFlag_trans | apply fetchDesktopSources_flag |].
    intros u m0. destruct (availableDesktopSources (store m0)) as [| first rest].
    - apply failWith_flag.
    - match goal with
      | |- let (_, _) := electronAcquire _ ?m2 in _ =>
          pose proof (electronAcquire_flag env m2) as H
      end.
      destruct (electronAcquire env _) as [m' t]. exact H. }
  exact (H m).
Qed.

Lemma stopCapture_flag (m : Machine) : sameFlag m (stopCapture m).
Proof. unfold sameFlag, stopCapture. destruct (currentStream (store m)); reflexivity. Qed.

Lemma startCapture_flag_kept (env : Env) : stretchesKeep sameFlag (startCapture env).
Proof.
  intros m.
  assert (Hentry : sameFlag m (onStore (set_analysisError None) (stopCapture m)))
    by exact (stopCapture_flag m).
  assert (Hlift : forall c : Async bool,
             stretchesKeep sameFlag c ->
             let (m', t) := c (onStore (set_analysisError None) (stopCapture m)) in
             sameFlag m m' /\ everyStretch sameFlag t).
  { intros c Hc. specialize (Hc (onStore (set_analysisError None) (stopCapture m))).
    destruct (c _) as [m' t]. destruct Hc as [Hstep Hrest].
    split; [exact (sameFlag_trans Hentry Hstep) | exact Hrest]. }
  unfold startCapture. cbv zeta.
  destruct (captureSource _).
  - destruct (isElectron env);
      [exact (Hlift _ (electronCapture_flag env)) | exact (Hlift _ (displayCapture_flag env))].
  - exact (Hlift _ (cameraCapture_flag env)).
  - destruct (isElectron env);
      [exact (Hlift _ (electronCapture_flag env)) | exact (Hlift _ (displayCapture_flag env))].
Qed.

Lemma captureFrame_flag (env : Env) (options : option CaptureOptions) :
  stretchesKeep sameFlag (captureFrame env options).
Proof.
  intros m. unfold captureFrame.
  destruct (currentStream (store m)) as [sid |]; [| unfold ret; flag_done].
  unfold await. split; [reflexivity |]. cbn [everyStretch]. intros [u | e] x.
  - split; [reflexivity |]. cbn [everyStretch]. intros dims y. cbv zeta.
    destruct (scaleDimensions _ _ _) as [w h].
    destruct (canvasContext2d env); cbn [negb]; unfold frameCatch, ret; flag_done.
  - unfold frameCatch, ret. flag_done.
Qed.

Lemma resetState_flag (m : Machine) : sameFlag m (resetState m).
Proof.
  unfold sameFlag, resetState, stopContinuousCapture, stopCapture.
  destruct m as [s w]. destruct s. simpl.
  destruct captureIntervalId0; destruct currentStream0; reflexivity.
Qed.

Lemma continuousCapture_flag (m : Machine) :
  sameFlag m (startContinuousCapture m) /\ sameFlag m (stopContinuousCapture m).
Proof.
  unfold sameFlag, startContinuousCapture, stopContinuousCapture. split.
  - destruct (analysisMode (store m)); [reflexivity |].
    destruct (captureIntervalId (store m)); reflexivity.
  - destruct (captureIntervalId (store m)); reflexivity.
Qed.

(** Wherever the call is parked the flag is up, as long as it is up on the
    machine the call is resumed on. *)
Fixpoint parkedWithFlagUp {A : Type} (t : Task A) (m : Machine) : Prop :=
  match t with
  | Done _ => True
  | Await req k =>
      isAnalyzing (store m) = true /\
      forall r x, isAnalyzing (store x) = true ->
                  let (m', t') := k r x in parkedWithFlagUp t' m'
  end.

(** [analyzeImage] raises the flag before its first await and lowers it only
    in the stretch that returns. *)
Lemma analyzeImage_parked_flag (env : Env) (imageDataUrl : string) (prompt : option string)
      (m : Machine) :
  let (m1, t) := analyzeImage env imageDataUrl prompt m in parkedWithFlagUp t m1.
Proof.
  unfold analyzeImage.
  destruct (_ || _); [unfold ret; exact I |].
  cbv zeta. unfold await at 1. cbn [parkedWithFlagUp]. split; [reflexivity |].
  intros [[|] | e] x Hx; try (unfold analyzeCatch, ret; exact I).
  unfold await. cbn [parkedWithFlagUp]. split; [exact Hx |].
  intros [text | e] y Hy; unfold analyzeCatch, ret; exact I.
Qed.

(** The operations that run an [analyzeImage] of their own to its end. *)
Definition completesAnalysis (op : Op) : bool :=
  match op with
  | AnalyzeImage _ _ | CaptureAndAnalyze _ => true
  | _ => false
  end.

(** No operation of the script completes an analysis of its own. *)
Definition noAnalysisCompletes (script : list (Oracle * Op)) : bool :=
  forallb (fun step => negb (completesAnalysis (snd step))) script.

(** While the flag is up, only an [analyzeImage] that returns lowers it: a
    timer that fires in between is dropped, and nothing else writes it. *)
Lemma perform_keeps_flag_up (env : Env) (o : Oracle) (op : Op) (m : Machine) :
  isAnalyzing (store m) = true -> completesAnalysis op = false ->
  isAnalyzing (store (perform env o op m)) = true.
Proof.
  intros Hup Hop. destruct op; try discriminate Hop; simpl perform.
  - rewrite <- Hup. unfold resetState, stopContinuousCapture, stopCapture.
    destruct m as [s w]. destruct s. simpl.
    destruct captureIntervalId0; destruct currentStream0; reflexivity.
  - pose proof (call_startCapture env o m) as ((Hflag & _) & _).
    rewrite Hflag. rewrite <- Hup. unfold stopCapture.
    destruct (currentStream (store m)); reflexivity.
  - rewrite <- Hup. unfold stopCapture. destruct (currentStream (store m)); reflexivity.
  - pose proof (call_captureFrame_frame env o options m) as H. cbv zeta in H.
    destruct H as (_ & _ & Hflag & _). rewrite Hflag. exact Hup.
  - rewrite <- Hup. unfold startContinuousCapture, stopContinuousCapture.
    destruct (analysisMode (store m)); [reflexivity |].
    destruct (captureIntervalId (store m)); reflexivity.
  - rewrite <- Hup. unfold stopContinuousCapture.
    destruct (captureIntervalId (store m)); reflexivity.
  - pose proof (call_fetchDesktopSources env o m) as H. cbv zeta in H.
    destruct H as (_ & (Hflag & _) & _). rewrite Hflag. exact Hup.
  - unfold fire, tick. enter. rewrite Hup. cbn [negb andb].
    destruct (existsb _ _); exact Hup.
Qed.

Lemma performAll_keeps_flag_up (env : Env) (script : list (Oracle * Op)) :
  forall m : Machine,
    isAnalyzing (store m) = true -> noAnalysisCompletes script = true ->
    isAnalyzing (store (performAll env script m)) = true.
Proof.
  induction script as [| [o op] rest IH]; intros m Hup Hquiet; simpl.
  - exact Hup.
  - simpl in Hquiet. apply andb_prop in Hquiet. destruct Hquiet as [Hop Hrest].
    apply IH; [| exact Hrest].
    apply perform_keeps_flag_up; [exact Hup |].
    destruct (completesAnalysis op); [discriminate Hop | reflexivity].
Qed.

(** Two analyses that overlap: the older one is parked at its first await
    when the newer one is started and runs to its end; then the timer
    fires. *)
Definition olderAnalysisParked : Machine * Task (option VisionAnalysisResult) :=
  analyzeImage browserEnv "data:image/jpeg;base64,/9j/4AAQ" None continuousMachine.

Definition newerAnalysisDone : Machine * option VisionAnalysisResult :=
  call grantAll (analyzeImage browserEnv "data:image/jpeg;base64,/9j/4AAQ" None)
       (fst olderAnalysisParked).

Definition tickDone : Machine * unit :=
  call grantAll (tick browserEnv) (fst newerAnalysisDone).

(** C2, as stated, fails.  [isAnalyzing] is one flag for all calls, lowered
    by whichever [analyzeImage] returns.  With the older analysis still
    parked, the newer one has lowered it; the tick then captures a frame and
    calls the provider, and the older analysis completes only afterwards. *)
Lemma tick_runs_while_older_analysis_in_flight :
  (exists k, snd olderAnalysisParked = Await (GetProviderInstance "openai") k) /\
  isAnalyzing (store (fst olderAnalysisParked)) = true /\
  isAnalyzing (store (fst newerAnalysisDone)) = false /\
  isCapturing (store (fst newerAnalysisDone)) = true /\
  trace (world (fst tickDone)) =
    (trace (world (fst newerAnalysisDone))
       ++ [EvAwait (VideoPlay 0%nat); EvAwait (VideoLoaded 0%nat);
           EvDrawImage 0%nat 1280 720; EvToDataURL 1280 720 (7 # 10)%Q;
           EvAwait (GetProviderInstance "openai");
           EvAwait (GenerateText "gpt-4o" defaultPrompt "data:image/jpeg;base64,/9j/4AAQ")])%list /\
  snd (run grantAll (snd olderAnalysisParked) (fst tickDone))
    = Some (mkResult 1700000000000 "A code editor is open.").
Proof.
  split; [eexists; vm_compute; reflexivity |].
  split; [vm_compute; reflexivity |]. split; [vm_compute; reflexivity |].
  split; [vm_compute; reflexivity |]. split; vm_compute; reflexivity.
Qed.

(** C2, amended.  A tick starts [captureAndAnalyze] exactly when [isAnalyzing]
    is false and [isCapturing] is true; otherwise it leaves the machine as
    it is and awaits nothing: no capture, no provider call, nothing queued.
    While an analysis is in flight and no [analyzeImage] call has returned
    since it started, the flag is up and every tick is dropped: this is so
    at both awaits of [analyzeImage], whatever operations other than an
    analysis ran to completion while it was parked, timer ticks among them.
    It is so when calls overlap as well: [analyzeImage] raises the flag
    before its first await and, resumed on a machine whose flag is up, parks
    again with the flag up; and every stretch of [startCapture],
    [captureFrame] and [fetchDesktopSources], from the call or a resumption
    to the next await or the return, leaves the flag as it is, as do
    [stopCapture], [resetState], [startContinuousCapture] and
    [stopContinuousCapture].
    [startContinuousCapture] is the identity unless the mode is continuous;
    in continuous mode it clears the timer whose handle it holds and arms
    a new one at [captureIntervalMs], whose handle it keeps. *)
Theorem continuous_tick_is_guarded :
  forall (env : Env) (m : Machine),
    (isAnalyzing (store m) = true \/ isCapturing (store m) = false ->
       tick env m = (m, Done tt)) /\
    (isAnalyzing (store m) = false -> isCapturing (store m) = true ->
       tick env m = bind (captureAndAnalyze env None) (fun _ => ret tt) m) /\
    (forall (imageDataUrl : string) (prompt : option string),
        configured (store m) = true ->
        exists m1 k1,
          analyzeImage env imageDataUrl prompt m
            = (m1, Await (GetProviderInstance (activeVisionProvider (store m))) k1) /\
          forall script1 : list (Oracle * Op),
            noAnalysisCompletes script1 = true ->
            let m1' := performAll env script1 m1 in
            isAnalyzing (store m1') = true /\
            tick env m1' = (m1', Done tt) /\
            exists m2 (generate : Request (Outcome (option string))) k2,
              k1 (Resolved true) m1' = (m2, Await generate k2) /\
              isProviderRequest (EvAwait generate) = true /\
              forall script2 : list (Oracle * Op),
                noAnalysisCompletes script2 = true ->
                let m2' := performAll env script2 m2 in
                isAnalyzing (store m2') = true /\
                tick env m2' = (m2', Done tt)) /\
    (forall (imageDataUrl : string) (prompt : option string),
        let (m1, t) := analyzeImage env imageDataUrl prompt m in parkedWithFlagUp t m1) /\
    (stretchesKeep sameFlag (startCapture env) /\
     (forall options, stretchesKeep sameFlag (captureFrame env options)) /\
     stretchesKeep sameFlag (fetchDesktopSources env) /\
     (forall x, sameFlag x (stopCapture x)) /\
     (forall x, sameFlag x (resetState x)) /\
     (forall x, sameFlag x (startContinuousCapture x)) /\
     (forall x, sameFlag x (stopContinuousCapture x))) /\
    (analysisMode (store m) <> Continuous -> startContinuousCapture m = m) /\
    (analysisMode (store m) = Continuous ->
       let m' := startContinuousCapture m in
       captureIntervalId (store m') = Some (nextTimer (world m)) /\
       activeTimers (world m') =
         (nextTimer (world m), captureIntervalMs (store m))
           :: match captureIntervalId (store m) with
              | Some old => filter (fun t => negb (Pos.eqb (fst t) old)) (activeTimers (world m))
              | None => activeTimers (world m)
              end /\
       trace (world m') =
         (trace (world m)
            ++ match captureIntervalId (store m) with
               | Some old => [EvClearInterval old]
               | None => []
               end
            ++ [EvSetInterval (nextTimer (world m)) (captureIntervalMs (store m))])%list /\
       (timerInv m ->
          timerInv m' /\ map fst (activeTimers (world m')) = [nextTimer (world m)])).
Proof.
  intros env m.
  assert (Hdrop : forall m0 : Machine,
             isAnalyzing (store m0) = true \/ isCapturing (store m0) = false ->
             tick env m0 = (m0, Done tt)).
  { intros m0 [Ha | Hc]; unfold tick.
    - rewrite Ha. reflexivity.
    - rewrite Hc, andb_false_r. reflexivity. }
  split; [apply Hdrop |]. split.
  { intros Ha Hc. unfold tick. rewrite Ha, Hc. reflexivity. }
  split.
  { intros imageDataUrl prompt Hconf.
    unfold analyzeImage at 1. rewrite analyzeImage_guard, Hconf. cbn [negb]. cbv zeta.
    unfold await at 1. eexists _, _. split; [reflexivity |].
    intros script1 Hquiet1.
    match goal with |- isAnalyzing (store ?x) = true /\ _ => set (m1' := x) end.
    assert (Hup1 : isAnalyzing (store m1') = true)
      by (apply performAll_keeps_flag_up; [reflexivity | exact Hquiet1]).
    split; [exact Hup1 |]. split; [apply Hdrop; left; exact Hup1 |].
    cbv beta iota. unfold await at 1. eexists _, _, _.
    split; [reflexivity |]. split; [reflexivity |].
    intros script2 Hquiet2.
    match goal with |- isAnalyzing (store ?x) = true /\ _ => set (m2' := x) end.
    assert (Hup2 : isAnalyzing (store m2') = true)
      by (apply performAll_keeps_flag_up; [exact Hup1 | exact Hquiet2]).
    split; [exact Hup2 |]. apply Hdrop. left. exact Hup2. }
  split; [intros imageDataUrl prompt; apply analyzeImage_parked_flag |].
  split.
  { split; [apply startCapture_flag_kept |].
    split; [intros options; apply captureFrame_flag |].
    split; [apply fetchDesktopSources_flag |].
    split; [intros x; apply stopCapture_flag |].
    split; [intros x; apply resetState_flag |].
    split; intros x; apply continuousCapture_flag. }
  split.
  { intros Hmode. unfold startContinuousCapture.
    destruct (analysisMode (store m)); [reflexivity | contradiction Hmode; reflexivity]. }
  intros Hmode m'. subst m'. unfold startContinuousCapture, stopContinuousCapture, timerInv.
  rewrite Hmode. destruct m as [s w]. cbn [store world].
  destruct (captureIntervalId s) as [old |];
    unfold setInterval, clearInterval, emit, onStore; simpl.
  - rewrite <- !app_assoc.
    split; [reflexivity |]. split; [reflexivity |]. split; [reflexivity |].
    intros Hinv. rewrite (filter_timer_only _ Hinv). split; reflexivity.
  - split; [reflexivity |]. split; [reflexivity |]. split; [reflexivity |].
    intros Hinv. rewrite Hinv. split; reflexivity.
Qed.

(** A tick during the in-flight analysis changes nothing. *)
Lemma continuous_tick_is_guarded_witness :
  isAnalyzing (store inFlightMachine) = true /\
  isCapturing (store inFlightMachine) = true /\
  tick browserEnv inFlightMachine = (inFlightMachine, Done tt).
Proof.
  split; [vm_compute; reflexivity |]. split; [vm_compute; reflexivity |].
  refine (proj1 (continuous_tick_is_guarded browserEnv inFlightMachine) _).
  left. vm_compute. reflexivity.
Defined.

(* ------------------------------------------------------------------ *)
(** ** One live stream *)

Lemma streamInv_transfer (m m' : Machine) :
  sameStreamState m m' -> streamInv m -> streamInv m'.
Proof.
  intros (Hcur & Hcap & Hlive & Hnext) (H1 & H2 & H3).
  unfold streamInv. rewrite Hcur, Hcap, Hlive, Hnext. auto.
Qed.

Lemma streamInv_fresh (m : Machine) :
  isCapturing (store m) = false -> currentStream (store m) = None ->
  liveStreams (world m) = [] -> streamInv m.
Proof.
  intros Hcap Hcur Hlive. unfold streamInv. rewrite Hcap, Hcur, Hlive.
  split; [reflexivity |]. split.
  - split; [discriminate | intros H; contradiction H; reflexivity].
  - discriminate.
Qed.

(** Under the invariant [stopCapture] leaves no stream live. *)
Lemma stopCapture_streams (m : Machine) :
  streamInv m ->
  liveStreams (world (stopCapture m)) = [] /\
  nextStream (world (stopCapture m)) = nextStream (world m) /\
  streamInv (stopCapture m).
Proof.
  intros (Hlive & _ & _).
  assert (H : liveStreams (world (stopCapture m)) = [] /\
              nextStream (world (stopCapture m)) = nextStream (world m)).
  { unfold stopCapture. destruct (currentStream (store m)) as [sid |]; simpl.
    - rewrite Hlive. simpl. rewrite Nat.eqb_refl. split; reflexivity.
    - split; [exact Hlive | reflexivity]. }
  destruct H as [H1 H2]. split; [exact H1 |]. split; [exact H2 |].
  apply streamInv_fresh; [| | exact H1];
    unfold stopCapture; destruct (currentStream (store m)) eqn:Hcur; simpl;
    rewrite ?Hcur; reflexivity.
Qed.

(** [startCapture] under the invariant: afterwards the only live stream, if
    any, is the one this call acquired. *)
Lemma startCapture_streams (env : Env) (o : Oracle) (m : Machine) :
  streamInv m ->
  let r := call o (startCapture env) m in
  streamInv (fst r) /\
  (snd r = true ->
     currentStream (store (fst r)) = Some (nextStream (world m)) /\
     liveStreams (world (fst r)) = [nextStream (world m)]) /\
  (snd r = false ->
     currentStream (store (fst r)) = None /\ liveStreams (world (fst r)) = []).
Proof.
  intros Hinv r.
  destruct (stopCapture_streams Hinv) as (Hlive & Hnext & _).
  pose proof (call_startCapture env o m) as (_ & Hr). fold r in Hr.
  assert (Hlive' : liveStreams (world (onStore (set_analysisError None) (stopCapture m))) = [])
    by exact Hlive.
  assert (Hnext' : nextStream (world (onStore (set_analysisError None) (stopCapture m)))
                   = nextStream (world m))
    by exact Hnext.
  unfold acquired, refused in Hr. rewrite Hlive', Hnext' in Hr.
  destruct Hr as [(H1 & H2 & H3 & _ & H5 & H6) | (H1 & H2 & H3 & _ & H5 & _)].
  - split; [| split].
    + unfold streamInv. rewrite H2, H3, H5, H6. split; [reflexivity |]. split.
      * split; [discriminate | reflexivity].
      * intros sid Hsid. injection Hsid as <-. apply Nat.lt_succ_diag_r.
    + intros _. split; assumption.
    + intros Hres. rewrite Hres in H1. discriminate.
  - split; [| split].
    + apply streamInv_fresh; assumption.
    + intros Hres. rewrite Hres in H1. discriminate.
    + intros _. split; assumption.
Qed.

Lemma sameStreamState_refl (m : Machine) : sameStreamState m m.
Proof. repeat split. Qed.

Lemma sameStreamState_trans (m1 m2 m3 : Machine) :
  sameStreamState m1 m2 -> sameStreamState m2 m3 -> sameStreamState m1 m3.
Proof.
  intros (A1 & A2 & A3 & A4) (B1 & B2 & B3 & B4). repeat split; congruence.
Qed.

Lemma captureFrame_sameStreamState (env : Env) (o : Oracle) (options : option CaptureOptions)
      (m : Machine) :
  sameStreamState m (fst (call o (captureFrame env options) m)).
Proof.
  pose proof (call_captureFrame_frame env o options m) as H. cbv zeta in H.
  destruct H as (H1 & H2 & _ & _ & _ & _ & _ & H3 & H4 & _). repeat split; assumption.
Qed.

Lemma analyzeImage_sameStreamState (env : Env) (o : Oracle) (imageDataUrl : string)
      (prompt : option string) (m : Machine) :
  sameStreamState m (fst (call o (analyzeImage env imageDataUrl prompt) m)).
Proof.
  pose proof (call_analyzeImage_frame env o imageDataUrl prompt m) as H. cbv zeta in H.
  destruct H as (H1 & H2 & _ & _ & H3 & H4 & _). repeat split; assumption.
Qed.

Lemma captureAndAnalyze_sameStreamState (env : Env) (o : Oracle) (prompt : option string)
      (m : Machine) :
  sameStreamState m (fst (call o (captureAndAnalyze env prompt) m)).
Proof.
  rewrite call_captureAndAnalyze.
  pose proof (captureFrame_sameStreamState env o None m) as Hframe.
  destruct (snd (call o (captureFrame env None) m)) as [url |]; [| exact Hframe].
  destruct (negb (truthy url)); [exact Hframe |].
  eapply sameStreamState_trans; [exact Hframe | apply analyzeImage_sameStreamState].
Qed.

Lemma fire_sameStreamState (env : Env) (o : Oracle) (id : TimerId) (m : Machine) :
  sameStreamState m (fst (call o (fire env id) m)).
Proof.
  unfold fire, tick. enter.
  destruct (existsb _ _); [| apply sameStreamState_refl].
  destruct (negb (isAnalyzing (store m)) && isCapturing (store m));
    [| apply sameStreamState_refl].
  change (sameStreamState m
            (fst (call o (bind (captureAndAnalyze env None) (fun _ => ret tt)) m))).
  rewrite call_bind.
  pose proof (captureAndAnalyze_sameStreamState env o None m) as H.
  destruct (call o (captureAndAnalyze env None) m) as [m1 res]. exact H.
Qed.

Lemma continuousCapture_sameStreamState (m : Machine) :
  sameStreamState m (startContinuousCapture m) /\
  sameStreamState m (stopContinuousCapture m).
Proof.
  assert (Hstop : forall m0, sameStreamState m0 (stopContinuousCapture m0)).
  { intros m0. unfold stopContinuousCapture.
    destruct (captureIntervalId (store m0)); repeat split. }
  split; [| apply Hstop].
  unfold startContinuousCapture. destruct (analysisMode (store m)); [repeat split |].
  eapply sameStreamState_trans; [apply Hstop | repeat split].
Qed.

(** Every operation keeps the invariant. *)
Lemma perform_streamInv (env : Env) (o : Oracle) (op : Op) (m : Machine) :
  streamInv m -> streamInv (perform env o op m).
Proof.
  intros Hinv. destruct op; simpl perform.
  - (* resetState *)
    apply streamInv_transfer with (m := stopCapture (stopContinuousCapture m)).
    + repeat split.
    + apply stopCapture_streams.
      apply streamInv_transfer with (m := m);
        [apply continuousCapture_sameStreamState | exact Hinv].
  - apply (startCapture_streams env o Hinv).
  - apply (stopCapture_streams Hinv).
  - apply streamInv_transfer with (m := m);
      [apply captureFrame_sameStreamState | exact Hinv].
  - apply streamInv_transfer with (m := m);
      [apply analyzeImage_sameStreamState | exact Hinv].
  - apply streamInv_transfer with (m := m);
      [apply captureAndAnalyze_sameStreamState | exact Hinv].
  - apply streamInv_transfer with (m := m);
      [apply continuousCapture_sameStreamState | exact Hinv].
  - apply streamInv_transfer with (m := m);
      [apply continuousCapture_sameStreamState | exact Hinv].
  - pose proof (call_fetchDesktopSources env o m) as H. cbv zeta in H.
    destruct H as (_ & _ & (Hl & Hn) & Hc & Hs).
    apply streamInv_transfer with (m := m); [repeat split; assumption | exact Hinv].
  - apply streamInv_transfer with (m := m);
      [apply fire_sameStreamState | exact Hinv].
Qed.

Lemma performAll_streamInv (env : Env) (script : list (Oracle * Op)) :
  forall m : Machine, streamInv m -> streamInv (performAll env script m).
Proof.
  induction script as [| [o op] rest IH]; intros m Hinv; simpl.
  - exact Hinv.
  - apply IH. apply perform_streamInv. exact Hinv.
Qed.

(** At most one stream is live. *)
Definition calm (x : Machine) : Prop := (length (liveStreams (world x)) <= 1)%nat.

Lemma calm_empty (x : Machine) : liveStreams (world x) = [] -> calm x.
Proof. intros H. unfold calm. rewrite H. simpl. lia. Qed.

Lemma streamInv_calm (m : Machine) : streamInv m -> calm m.
Proof.
  intros (Hlive & _). unfold calm. rewrite Hlive.
  destruct (currentStream (store m)); simpl; lia.
Qed.

(* ------------------------------------------------------------------ *)
(** ** Calls that overlap *)

(** No capture: no stream is live or held, and the flag is down. *)
Definition quiet (m : Machine) : Prop :=
  liveStreams (world m) = [] /\
  currentStream (store m) = None /\
  isCapturing (store m) = false.

(** One capture: the stream held is the one stream live, and the flag is
    up. *)
Definition heldAlone (m : Machine) : Prop :=
  exists sid,
    liveStreams (world m) = [sid] /\
    currentStream (store m) = Some sid /\
    isCapturing (store m) = true /\
    (sid < nextStream (world m))%nat.

(** What the rest of the program may do to the machine while a call is
    parked, short of a [startCapture] of its own: any stretch of code that
    leaves the stream, the flag and the platform's streams as they are, and
    the two operations that stop a capture. *)
Inductive Meanwhile : Machine -> Machine -> Prop :=
| meanwhile_nothing (m : Machine) : Meanwhile m m
| meanwhile_stretch (m x m' : Machine) :
    sameStreamState m x -> Meanwhile x m' -> Meanwhile m m'
| meanwhile_stopCapture (m m' : Machine) : Meanwhile (stopCapture m) m' -> Meanwhile m m'
| meanwhile_resetState (m m' : Machine) : Meanwhile (resetState m) m' -> Meanwhile m m'.

(** A parked call ends in [mf] with [a]: at each await something of
    [Meanwhile] runs, then the promise settles one way or the other. *)
Fixpoint endsAmid {A : Type} (t : Task A) (m mf : Machine) (a : A) : Prop :=
  match t with
  | Done b => mf = m /\ a = b
  | Await req k =>
      exists r x, Meanwhile m x /\ (let (m', t') := k r x in endsAmid t' m' mf a)
  end.

(** A parked call passes through [y]. *)
Fixpoint visitsAmid {A : Type} (t : Task A) (m y : Machine) : Prop :=
  match t with
  | Done _ => y = m
  | Await req k =>
      Meanwhile m y \/
      exists r x, Meanwhile m x /\ (let (m', t') := k r x in visitsAmid t' m' y)
  end.

Lemma quiet_streamInv (m : Machine) : quiet m -> streamInv m.
Proof.
  intros (Hlive & Hcur & Hcap). apply streamInv_fresh; assumption.
Qed.

Lemma heldAlone_streamInv (m : Machine) : heldAlone m -> streamInv m.
Proof.
  intros (sid & Hlive & Hcur & Hcap & Hfresh). unfold streamInv.
  rewrite Hlive, Hcur, Hcap. split; [reflexivity |]. split.
  - split; [discriminate | reflexivity].
  - intros s Hs. injection Hs as <-. exact Hfresh.
Qed.

Lemma quiet_same (m x : Machine) : sameStreamState m x -> quiet m -> quiet x.
Proof.
  intros (Hcur & Hcap & Hlive & _) (H1 & H2 & H3). unfold quiet.
  rewrite Hcur, Hcap, Hlive. repeat split; assumption.
Qed.

Lemma stopCapture_quiet (m : Machine) : streamInv m -> quiet (stopCapture m).
Proof.
  intros Hinv. destruct (stopCapture_streams Hinv) as (Hlive & _).
  split; [exact Hlive |].
  unfold stopCapture; destruct (currentStream (store m)) eqn:Hcur; cbn;
    rewrite ?Hcur; split; reflexivity.
Qed.

Lemma resetState_streams (m : Machine) :
  sameStreamState (stopCapture (stopContinuousCapture m)) (resetState m).
Proof. repeat split. Qed.

Lemma resetState_quiet (m : Machine) : streamInv m -> quiet (resetState m).
Proof.
  intros Hinv. apply quiet_same with (m := stopCapture (stopContinuousCapture m));
    [apply resetState_streams |].
  apply stopCapture_quiet.
  apply streamInv_transfer with (m := m);
    [apply continuousCapture_sameStreamState | exact Hinv].
Qed.

(** What runs meanwhile keeps the invariant, and keeps a machine without a
    capture without one. *)
Lemma Meanwhile_streamInv (m x : Machine) : Meanwhile m x -> streamInv m -> streamInv x.
Proof.
  induction 1 as [m | m x m' Hsame _ IH | m m' _ IH | m m' _ IH]; intros Hinv.
  - exact Hinv.
  - apply IH. apply streamInv_transfer with (m := m); assumption.
  - apply IH. apply quiet_streamInv. apply stopCapture_quiet. exact Hinv.
  - apply IH. apply quiet_streamInv. apply resetState_quiet. exact Hinv.
Qed.

Lemma Meanwhile_quiet (m x : Machine) : Meanwhile m x -> quiet m -> quiet x.
Proof.
  induction 1 as [m | m x m' Hsame _ IH | m m' _ IH | m m' _ IH]; intros Hq.
  - exact Hq.
  - apply IH. apply quiet_same with (m := m); assumption.
  - apply IH. apply stopCapture_quiet. apply quiet_streamInv. exact Hq.
  - apply IH. apply resetState_quiet. apply quiet_streamInv. exact Hq.
Qed.

(** How a [startCapture] call may end: with a capture of its own, or with
    none and a message. *)
Definition endedWell (mf : Machine) (res : bool) : Prop :=
  (res = true /\ heldAlone mf) \/
  (res = false /\ quiet mf /\
   exists msg, analysisError (store mf) = Some msg /\ msg <> "").

Lemma failWith_ends (msg : string) (x mf : Machine) (res : bool) :
  quiet x -> msg <> "" ->
  (let (m', t') := failWith msg x in endsAmid t' m' mf res) -> endedWell mf res.
Proof.
  intros Hq Hmsg. unfold failWith, ret. cbn [endsAmid]. intros [-> ->].
  right. split; [reflexivity |]. split; [exact Hq |]. exists msg. split; [reflexivity | exact Hmsg].
Qed.

Lemma holdResolved_ends (isStream : bool) (x mf : Machine) (res : bool) :
  quiet x ->
  (let (m', t') := holdResolved isStream x in endsAmid t' m' mf res) -> endedWell mf res.
Proof.
  intros (Hlive & Hcur & Hcap). unfold holdResolved, grantStream, finishCapture.
  destruct isStream; cbn.
  - intros [-> ->]. left. split; [reflexivity |]. exists (nextStream (world x)).
    cbn. rewrite Hlive. repeat split. lia.
  - intros [-> ->]. right. split; [reflexivity |]. split.
    + repeat split; cbn; assumption.
    + eexists. split; [reflexivity | discriminate].
Qed.

Lemma displayCatch_ends (e : JsError) (x mf : Machine) (res : bool) :
  quiet x ->
  (let (m', t') := displayCatch e x in endsAmid t' m' mf res) -> endedWell mf res.
Proof.
  intros Hq. unfold displayCatch. cbv zeta.
  destruct (_ || _); apply failWith_ends; try exact Hq; nonempty.
Qed.

Lemma cameraCatch_ends (e : JsError) (x mf : Machine) (res : bool) :
  quiet x ->
  (let (m', t') := cameraCatch e x in endsAmid t' m' mf res) -> endedWell mf res.
Proof.
  intros Hq. unfold cameraCatch. cbv zeta.
  destruct (_ || _); [apply failWith_ends; [exact Hq | nonempty] |].
  destruct (includes _ _); apply failWith_ends; try exact Hq; nonempty.
Qed.

Lemma electronCatch_ends (e : JsError) (x mf : Machine) (res : bool) :
  quiet x ->
  (let (m', t') := electronCatch e x in endsAmid t' m' mf res) -> endedWell mf res.
Proof. intros Hq. unfold electronCatch. apply failWith_ends; [exact Hq | nonempty]. Qed.

Lemma outerCatch_ends (e : JsError) (x mf : Machine) (res : bool) :
  quiet x ->
  (let (m', t') := outerCatch e x in endsAmid t' m' mf res) -> endedWell mf res.
Proof. intros Hq. unfold outerCatch. apply failWith_ends; [exact Hq | nonempty]. Qed.

Lemma quiet_emit (e : Event) (m : Machine) : quiet m -> quiet (emit e m).
Proof. intros H. exact H. Qed.

Lemma displayCapture_ends (env : Env) (m mf : Machine) (res : bool) :
  quiet m ->
  (let (m', t') := displayCapture env m in endsAmid t' m' mf res) -> endedWell mf res.
Proof.
  intros Hq. unfold displayCapture.
  destruct (navigator env) as [md |]; [| apply outerCatch_ends; exact Hq].
  destruct (negb _); [apply failWith_ends; [exact Hq | nonempty] |].
  unfold await. cbn [endsAmid]. intros (r & x & Hmw & H).
  pose proof (Meanwhile_quiet Hmw (quiet_emit _ Hq)) as Hx.
  revert H. destruct r as [isStream | e];
    [apply holdResolved_ends | apply displayCatch_ends]; exact Hx.
Qed.

Lemma cameraCapture_ends (env : Env) (m mf : Machine) (res : bool) :
  quiet m ->
  (let (m', t') := cameraCapture env m in endsAmid t' m' mf res) -> endedWell mf res.
Proof.
  intros Hq. unfold cameraCapture.
  destruct (navigator env) as [md |]; [| apply outerCatch_ends; exact Hq].
  destruct (negb _); [apply failWith_ends; [exact Hq | nonempty] |].
  unfold await. cbn [endsAmid]. intros (r & x & Hmw & H).
  pose proof (Meanwhile_quiet Hmw (quiet_emit _ Hq)) as Hx.
  revert H. destruct r as [isStream | e];
    [apply holdResolved_ends | apply cameraCatch_ends]; exact Hx.
Qed.

Lemma electronAcquire_ends (env : Env) (m mf : Machine) (res : bool) :
  quiet m ->
  (let (m', t') := electronAcquire env m in endsAmid t' m' mf res) -> endedWell mf res.
Proof.
  intros Hq. unfold electronAcquire.
  destruct (navigator env) as [[md |] |]; try (apply electronCatch_ends; exact Hq).
  destruct (hasGetUserMedia md); [| apply electronCatch_ends; exact Hq].
  unfold await. cbn [endsAmid]. intros (r & x & Hmw & H).
  pose proof (Meanwhile_quiet Hmw (quiet_emit _ Hq)) as Hx.
  revert H. destruct r as [isStream | e];
    [apply holdResolved_ends | apply electronCatch_ends]; exact Hx.
Qed.

(** A call awaited inside another: the outer call ends when the inner one
    has ended and what follows it has. *)
Lemma endsAmid_andThen {A B : Type} (f : A -> Async B) (mf : Machine) (b : B) :
  forall (t : Task A) (m : Machine),
    (let (m2, t2) := andThen t f m in endsAmid t2 m2 mf b) ->
    exists m1 a, endsAmid t m m1 a /\ (let (m3, t3) := f a m1 in endsAmid t3 m3 mf b).
Proof.
  fix IH 1. intros [a | R req k] m; cbn [andThen endsAmid].
  - intros H. exists m, a. split; [split; reflexivity | exact H].
  - intros (r & x & Hmw & H).
    destruct (k r x) as [m'' t''] eqn:Hk.
    destruct (IH t'' m'' H) as (m1 & a & Hends & Hrest).
    exists m1, a. split; [| exact Hrest].
    exists r, x. split; [exact Hmw |]. rewrite Hk. exact Hends.
Qed.

Lemma fetchDesktopSources_ends (env : Env) (m m1 : Machine) (u : unit) :
  quiet m ->
  (let (m', t') := fetchDesktopSources env m in endsAmid t' m' m1 u) -> quiet m1.
Proof.
  intros Hq. unfold fetchDesktopSources.
  destruct (negb (getElectronApi env)).
  - unfold ret. cbn [endsAmid]. intros [-> _]. exact Hq.
  - unfold await. cbn [endsAmid]. intros (r & x & Hmw & H).
    assert (Hx : quiet x) by (apply (Meanwhile_quiet Hmw); exact Hq).
    revert H. destruct r as [sources | e]; unfold ret; cbn [endsAmid];
      intros [-> _]; exact Hx.
Qed.

Lemma electronCapture_ends (env : Env) (m mf : Machine) (res : bool) :
  quiet m ->
  (let (m', t') := electronCapture env m in endsAmid t' m' mf res) -> endedWell mf res.
Proof.
  intros Hq. unfold electronCapture.
  destruct (negb (truthy (selectedDesktopSourceId (store m))));
    [| apply electronAcquire_ends; exact Hq].
  unfold bind. intros H.
  destruct (fetchDesktopSources env m) as [m' t] eqn:Hfetch.
  apply endsAmid_andThen in H. destruct H as (m1 & u & Hends & Hrest).
  assert (Hq1 : quiet m1).
  { apply (@fetchDesktopSources_ends env m m1 u Hq). rewrite Hfetch. exact Hends. }
  revert Hrest. destruct (availableDesktopSources (store m1)) as [| first rest].
  - apply failWith_ends; [exact Hq1 | nonempty].
  - apply electronAcquire_ends. exact Hq1.
Qed.

(** A [startCapture] call that no other [startCapture] overlaps, whatever
    else runs while it is parked. *)
Lemma startCapture_ends (env : Env) (m mf : Machine) (res : bool) :
  streamInv m ->
  (let (m', t') := startCapture env m in endsAmid t' m' mf res) -> endedWell mf res.
Proof.
  intros Hinv.
  assert (Hq : quiet (onStore (set_analysisError None) (stopCapture m)))
    by (apply stopCapture_quiet; exact Hinv).
  unfold startCapture. cbv zeta.
  destruct (captureSource _).
  - destruct (isElectron env); [apply electronCapture_ends | apply displayCapture_ends];
      exact Hq.
  - apply cameraCapture_ends. exact Hq.
  - destruct (isElectron env); [apply electronCapture_ends | apply displayCapture_ends];
      exact Hq.
Qed.

Ltac stretch_done := split; [repeat split | exact I].

Lemma captureFrame_stretches (env : Env) (options : option CaptureOptions) :
  stretchesKeep sameStreamState (captureFrame env options).
Proof.
  intros m. unfold captureFrame.
  destruct (currentStream (store m)) as [sid |]; [| unfold ret; stretch_done].
  unfold await. split; [repeat split |]. cbn [everyStretch]. intros [u | e] x.
  - split; [repeat split |]. cbn [everyStretch]. intros dims y. cbv zeta.
    destruct (scaleDimensions _ _ _) as [w h].
    destruct (canvasContext2d env); cbn [negb]; unfold frameCatch, ret; stretch_done.
  - unfold frameCatch, ret. stretch_done.
Qed.

Lemma analyzeImage_stretches (env : Env) (imageDataUrl : string) (prompt : option string) :
  stretchesKeep sameStreamState (analyzeImage env imageDataUrl prompt).
Proof.
  intros m. unfold analyzeImage.
  destruct (_ || _); [unfold ret; stretch_done |].
  cbv zeta. unfold await at 1. split; [repeat split |]. cbn [everyStretch].
  intros [[|] | e] x; try (unfold analyzeCatch, ret; stretch_done).
  unfold await. split; [repeat split |]. cbn [everyStretch].
  intros [text | e] y; unfold analyzeCatch, ret; stretch_done.
Qed.

Lemma fetchDesktopSources_stretches (env : Env) :
  stretchesKeep sameStreamState (fetchDesktopSources env).
Proof.
  intros m. unfold fetchDesktopSources.
  destruct (negb (getElectronApi env)); [unfold ret; stretch_done |].
  unfold await. split; [repeat split |]. cbn [everyStretch].
  intros [sources | e] x; unfold ret; stretch_done.
Qed.

Lemma captureAndAnalyze_stretches (env : Env) (prompt : option string) :
  stretchesKeep sameStreamState (captureAndAnalyze env prompt).
Proof.
  unfold captureAndAnalyze.
  apply stretches_bind;
    [exact sameStreamState_refl | exact sameStreamState_trans
     | apply captureFrame_stretches |].
  intros [url |]; [| apply stretches_ret; exact sameStreamState_refl].
  destruct (negb (truthy url));
    [apply stretches_ret; exact sameStreamState_refl | apply analyzeImage_stretches].
Qed.

Lemma fire_stretches (env : Env) (id : TimerId) :
  stretchesKeep sameStreamState (fire env id).
Proof.
  intros m. unfold fire, tick.
  destruct (existsb _ _); [| unfold ret; split; [apply sameStreamState_refl | exact I]].
  destruct (negb (isAnalyzing (store m)) && isCapturing (store m));
    [| unfold ret; split; [apply sameStreamState_refl | exact I]].
  assert (H : stretchesKeep sameStreamState
                (bind (captureAndAnalyze env None) (fun _ => ret tt))).
  { apply stretches_bind;
      [exact sameStreamState_refl | exact sameStreamState_trans
       | apply captureAndAnalyze_stretches |].
    intros a. apply stretches_ret. exact sameStreamState_refl. }
  exact (H m).
Qed.

(** A history of the store in which no two [startCapture] calls overlap:
    [startCapture] calls, each from its call to its return, with what runs
    meanwhile inside and between them. *)
Inductive Reaches (env : Env) : Machine -> Machine -> Prop :=
| reaches_here (m : Machine) : Reaches env m m
| reaches_meanwhile (m x m' : Machine) :
    Meanwhile m x -> Reaches env x m' -> Reaches env m m'
| reaches_startCapture (m mf m' : Machine) (res : bool) :
    (let (m0, t) := startCapture env m in endsAmid t m0 mf res) ->
    Reaches env mf m' -> Reaches env m m'.

Lemma endedWell_streamInv (mf : Machine) (res : bool) : endedWell mf res -> streamInv mf.
Proof.
  intros [(_ & H) | (_ & H & _)]; [apply heldAlone_streamInv | apply quiet_streamInv]; exact H.
Qed.

Lemma Reaches_streamInv (env : Env) (m m' : Machine) :
  Reaches env m m' -> streamInv m -> streamInv m'.
Proof.
  induction 1 as [m | m x m' Hmw _ IH | m mf m' res Hends _ IH]; intros Hinv.
  - exact Hinv.
  - apply IH. exact (Meanwhile_streamInv Hmw Hinv).
  - apply IH. exact (endedWell_streamInv (@startCapture_ends env m mf res Hinv Hends)).
Qed.

(** At most one stream is live wherever such a call passes. *)
Lemma quiet_calm (m : Machine) : quiet m -> calm m.
Proof. intros (H & _). apply calm_empty. exact H. Qed.

Lemma Meanwhile_calm (m x : Machine) : streamInv m -> Meanwhile m x -> calm x.
Proof. intros Hinv Hmw. apply streamInv_calm. exact (Meanwhile_streamInv Hmw Hinv). Qed.

Lemma failWith_visits (msg : string) (x y : Machine) :
  quiet x -> (let (m', t') := failWith msg x in visitsAmid t' m' y) -> calm y.
Proof.
  intros Hq. unfold failWith, ret. cbn [visitsAmid]. intros ->. apply quiet_calm. exact Hq.
Qed.

Lemma holdResolved_visits (isStream : bool) (x y : Machine) :
  quiet x -> (let (m', t') := holdResolved isStream x in visitsAmid t' m' y) -> calm y.
Proof.
  intros (Hlive & Hcur & Hcap). unfold holdResolved, grantStream, finishCapture.
  destruct isStream; cbn; intros ->; unfold calm; cbn; rewrite Hlive; simpl; lia.
Qed.

Lemma displayCatch_visits (e : JsError) (x y : Machine) :
  quiet x -> (let (m', t') := displayCatch e x in visitsAmid t' m' y) -> calm y.
Proof.
  intros Hq. unfold displayCatch. cbv zeta.
  destruct (_ || _); apply failWith_visits; exact Hq.
Qed.

Lemma cameraCatch_visits (e : JsError) (x y : Machine) :
  quiet x -> (let (m', t') := cameraCatch e x in visitsAmid t' m' y) -> calm y.
Proof.
  intros Hq. unfold cameraCatch. cbv zeta.
  destruct (_ || _); [apply failWith_visits; exact Hq |].
  destruct (includes _ _); apply failWith_visits; exact Hq.
Qed.

Lemma displayCapture_visits (env : Env) (m y : Machine) :
  quiet m -> (let (m', t') := displayCapture env m in visitsAmid t' m' y) -> calm y.
Proof.
  intros Hq. unfold displayCapture, outerCatch.
  destruct (navigator env) as [md |]; [| apply failWith_visits; exact Hq].
  destruct (negb _); [apply failWith_visits; exact Hq |].
  unfold await. cbn [visitsAmid]. intros [Hmw | (r & x & Hmw & H)].
  - apply quiet_calm. exact (Meanwhile_quiet Hmw (quiet_emit _ Hq)).
  - pose proof (Meanwhile_quiet Hmw (quiet_emit _ Hq)) as Hx.
    revert H. destruct r as [isStream | e];
      [apply holdResolved_visits | apply displayCatch_visits]; exact Hx.
Qed.

Lemma cameraCapture_visits (env : Env) (m y : Machine) :
  quiet m -> (let (m', t') := cameraCapture env m in visitsAmid t' m' y) -> calm y.
Proof.
  intros Hq. unfold cameraCapture, outerCatch.
  destruct (navigator env) as [md |]; [| apply failWith_visits; exact Hq].
  destruct (negb _); [apply failWith_visits; exact Hq |].
  unfold await. cbn [visitsAmid]. intros [Hmw | (r & x & Hmw & H)].
  - apply quiet_calm. exact (Meanwhile_quiet Hmw (quiet_emit _ Hq)).
  - pose proof (Meanwhile_quiet Hmw (quiet_emit _ Hq)) as Hx.
    revert H. destruct r as [isStream | e];
      [apply holdResolved_visits | apply cameraCatch_visits]; exact Hx.
Qed.

Lemma electronAcquire_visits (env : Env) (m y : Machine) :
  quiet m -> (let (m', t') := electronAcquire env m in visitsAmid t' m' y) -> calm y.
Proof.
  intros Hq. unfold electronAcquire, electronCatch.
  destruct (navigator env) as [[md |] |]; try (apply failWith_visits; exact Hq).
  destruct (hasGetUserMedia md); [| apply failWith_visits; exact Hq].
  unfold await. cbn [visitsAmid]. intros [Hmw | (r & x & Hmw & H)].
  - apply quiet_calm. exact (Meanwhile_quiet Hmw (quiet_emit _ Hq)).
  - pose proof (Meanwhile_quiet Hmw (quiet_emit _ Hq)) as Hx.
    revert H. destruct r as [isStream | e];
      [apply holdResolved_visits | apply failWith_visits]; exact Hx.
Qed.

Lemma visitsAmid_andThen {A B : Type} (f : A -> Async B) (y : Machine) :
  forall (t : Task A) (m : Machine),
    (let (m2, t2) := andThen t f m in visitsAmid t2 m2 y) ->
    visitsAmid t m y \/
    exists m1 a, endsAmid t m m1 a /\ (let (m3, t3) := f a m1 in visitsAmid t3 m3 y).
Proof.
  fix IH 1. intros [a | R req k] m; cbn [andThen visitsAmid endsAmid].
  - intros H. right. exists m, a. split; [split; reflexivity | exact H].
  - intros [Hmw | (r & x & Hmw & H)]; [left; left; exact Hmw |].
    destruct (k r x) as [m'' t''] eqn:Hk.
    destruct (IH t'' m'' H) as [Hvis | (m1 & a & Hends & Hrest)].
    + left. right. exists r, x. split; [exact Hmw |]. rewrite Hk. exact Hvis.
    + right. exists m1, a. split; [| exact Hrest].
      exists r, x. split; [exact Hmw |]. rewrite Hk. exact Hends.
Qed.

Lemma fetchDesktopSources_visits (env : Env) (m y : Machine) :
  quiet m -> (let (m', t') := fetchDesktopSources env m in visitsAmid t' m' y) -> calm y.
Proof.
  intros Hq. unfold fetchDesktopSources.
  destruct (negb (getElectronApi env)).
  - unfold ret. cbn [visitsAmid]. intros ->. apply quiet_calm. exact Hq.
  - unfold await. cbn [visitsAmid]. intros [Hmw | (r & x & Hmw & H)].
    + apply quiet_calm. apply (Meanwhile_quiet Hmw). exact Hq.
    + assert (Hx : quiet x) by (apply (Meanwhile_quiet Hmw); exact Hq).
      revert H. destruct r as [sources | e]; unfold ret; cbn [visitsAmid];
        intros ->; apply quiet_calm; exact Hx.
Qed.

Lemma electronCapture_visits (env : Env) (m y : Machine) :
  quiet m -> (let (m', t') := electronCapture env m in visitsAmid t' m' y) -> calm y.
Proof.
  intros Hq. unfold electronCapture.
  destruct (negb (truthy (selectedDesktopSourceId (store m))));
    [| apply electronAcquire_visits; exact Hq].
  unfold bind. intros H.
  destruct (fetchDesktopSources env m) as [m' t] eqn:Hfetch.
  apply visitsAmid_andThen in H. destruct H as [Hvis | (m1 & u & Hends & Hrest)].
  - apply (@fetchDesktopSources_visits env m y Hq). rewrite Hfetch. exact Hvis.
  - assert (Hq1 : quiet m1).
    { apply (@fetchDesktopSources_ends env m m1 u Hq). rewrite Hfetch. exact Hends. }
    revert Hrest. destruct (availableDesktopSources (store m1)) as [| first rest].
    + apply failWith_visits. exact Hq1.
    + apply electronAcquire_visits. exact Hq1.
Qed.

Lemma startCapture_visits (env : Env) (m y : Machine) :
  streamInv m ->
  (let (m', t') := startCapture env m in visitsAmid t' m' y) -> calm y.
Proof.
  intros Hinv.
  assert (Hq : quiet (onStore (set_analysisError None) (stopCapture m)))
    by (apply stopCapture_quiet; exact Hinv).
  unfold startCapture. cbv zeta.
  destruct (captureSource _).
  - destruct (isElectron env); [apply electronCapture_visits | apply displayCapture_visits];
      exact Hq.
  - apply cameraCapture_visits. exact Hq.
  - destruct (isElectron env); [apply electronCapture_visits | apply displayCapture_visits];
      exact Hq.
Qed.

(* ------------------------------------------------------------------ *)
(** ** startCapture: what a call reports *)

(** No capture, as far as the store knows. *)
Definition unheld (m : Machine) : Prop :=
  currentStream (store m) = None /\ isCapturing (store m) = false.

(** What a [startCapture] call leaves with its result. *)
Definition reported (mf : Machine) (res : bool) : Prop :=
  (res = true /\ isCapturing (store mf) = true /\ currentStream (store mf) <> None) \/
  (res = false /\ unheld mf /\
   exists msg, analysisError (store mf) = Some msg /\ msg <> "").

Lemma unheld_same (m x : Machine) : sameStreamState m x -> unheld m -> unheld x.
Proof.
  intros (Hcur & Hcap & _) (H1 & H2). unfold unheld. rewrite Hcur, Hcap. split; assumption.
Qed.

Lemma stopCapture_unheld (m : Machine) : unheld (stopCapture m).
Proof.
  unfold unheld, stopCapture. destruct (currentStream (store m)) eqn:Hcur; cbn;
    rewrite ?Hcur; split; reflexivity.
Qed.

Lemma resetState_unheld (m : Machine) : unheld (resetState m).
Proof.
  apply unheld_same with (m := stopCapture (stopContinuousCapture m));
    [apply resetState_streams | apply stopCapture_unheld].
Qed.

Lemma Meanwhile_unheld (m x : Machine) : Meanwhile m x -> unheld m -> unheld x.
Proof.
  induction 1 as [m | m x m' Hsame _ IH | m m' _ IH | m m' _ IH]; intros Hi.
  - exact Hi.
  - apply IH. apply unheld_same with (m := m); assumption.
  - apply IH. apply stopCapture_unheld.
  - apply IH. apply resetState_unheld.
Qed.

Lemma failWith_reports (msg : string) (x mf : Machine) (res : bool) :
  unheld x -> msg <> "" ->
  (let (m', t') := failWith msg x in endsAmid t' m' mf res) -> reported mf res.
Proof.
  intros Hi Hmsg. unfold failWith, ret. cbn [endsAmid]. intros [-> ->].
  right. split; [reflexivity |]. split; [exact Hi |].
  exists msg. split; [reflexivity | exact Hmsg].
Qed.

Lemma holdResolved_reports (isStream : bool) (x mf : Machine) (res : bool) :
  unheld x ->
  (let (m', t') := holdResolved isStream x in endsAmid t' m' mf res) -> reported mf res.
Proof.
  intros (Hcur & Hcap). unfold holdResolved, grantStream, finishCapture.
  destruct isStream; cbn.
  - intros [-> ->]. left. split; [reflexivity |]. split; [reflexivity | discriminate].
  - intros [-> ->]. right. split; [reflexivity |]. split.
    + split; cbn; [reflexivity | exact Hcap].
    + eexists. split; [reflexivity | discriminate].
Qed.

Lemma displayCatch_reports (e : JsError) (x mf : Machine) (res : bool) :
  unheld x ->
  (let (m', t') := displayCatch e x in endsAmid t' m' mf res) -> reported mf res.
Proof.
  intros Hi. unfold displayCatch. cbv zeta.
  destruct (_ || _); apply failWith_reports; try exact Hi; nonempty.
Qed.

Lemma cameraCatch_reports (e : JsError) (x mf : Machine) (res : bool) :
  unheld x ->
  (let (m', t') := cameraCatch e x in endsAmid t' m' mf res) -> reported mf res.
Proof.
  intros Hi. unfold cameraCatch. cbv zeta.
  destruct (_ || _); [apply failWith_reports; [exact Hi | nonempty] |].
  destruct (includes _ _); apply failWith_reports; try exact Hi; nonempty.
Qed.

Lemma electronCatch_reports (e : JsError) (x mf : Machine) (res : bool) :
  unheld x ->
  (let (m', t') := electronCatch e x in endsAmid t' m' mf res) -> reported mf res.
Proof. intros Hi. unfold electronCatch. apply failWith_reports; [exact Hi | nonempty]. Qed.

Lemma outerCatch_reports (e : JsError) (x mf : Machine) (res : bool) :
  unheld x ->
  (let (m', t') := outerCatch e x in endsAmid t' m' mf res) -> reported mf res.
Proof. intros Hi. unfold outerCatch. apply failWith_reports; [exact Hi | nonempty]. Qed.

Lemma displayCapture_reports (env : Env) (m mf : Machine) (res : bool) :
  unheld m ->
  (let (m', t') := displayCapture env m in endsAmid t' m' mf res) -> reported mf res.
Proof.
  intros Hi. unfold displayCapture.
  destruct (navigator env) as [md |]; [| apply outerCatch_reports; exact Hi].
  destruct (negb _); [apply failWith_reports; [exact Hi | nonempty] |].
  unfold await. cbn [endsAmid]. intros (r & x & Hmw & H).
  assert (Hx : unheld x) by (apply (Meanwhile_unheld Hmw); exact Hi).
  revert H. destruct r as [isStream | e];
    [apply holdResolved_reports | apply displayCatch_reports]; exact Hx.
Qed.

Lemma cameraCapture_reports (env : Env) (m mf : Machine) (res : bool) :
  unheld m ->
  (let (m', t') := cameraCapture env m in endsAmid t' m' mf res) -> reported mf res.
Proof.
  intros Hi. unfold cameraCapture.
  destruct (navigator env) as [md |]; [| apply outerCatch_reports; exact Hi].
  destruct (negb _); [apply failWith_reports; [exact Hi | nonempty] |].
  unfold await. cbn [endsAmid]. intros (r & x & Hmw & H).
  assert (Hx : unheld x) by (apply (Meanwhile_unheld Hmw); exact Hi).
  revert H. destruct r as [isStream | e];
    [apply holdResolved_reports | apply cameraCatch_reports]; exact Hx.
Qed.

Lemma electronAcquire_reports (env : Env) (m mf : Machine) (res : bool) :
  unheld m ->
  (let (m', t') := electronAcquire env m in endsAmid t' m' mf res) -> reported mf res.
Proof.
  intros Hi. unfold electronAcquire.
  destruct (navigator env) as [[md |] |]; try (apply electronCatch_reports; exact Hi).
  destruct (hasGetUserMedia md); [| apply electronCatch_reports; exact Hi].
  unfold await. cbn [endsAmid]. intros (r & x & Hmw & H).
  assert (Hx : unheld x) by (apply (Meanwhile_unheld Hmw); exact Hi).
  revert H. destruct r as [isStream | e];
    [apply holdResolved_reports | apply electronCatch_reports]; exact Hx.
Qed.

Lemma fetchDesktopSources_unheld (env : Env) (m m1 : Machine) (u : unit) :
  unheld m ->
  (let (m', t') := fetchDesktopSources env m in endsAmid t' m' m1 u) -> unheld m1.
Proof.
  intros Hi. unfold fetchDesktopSources.
  destruct (negb (getElectronApi env)).
  - unfold ret. cbn [endsAmid]. intros [-> _]. exact Hi.
  - unfold await. cbn [endsAmid]. intros (r & x & Hmw & H).
    assert (Hx : unheld x) by (apply (Meanwhile_unheld Hmw); exact Hi).
    revert H. destruct r as [sources | e]; unfold ret; cbn [endsAmid];
      intros [-> _]; exact Hx.
Qed.

Lemma electronCapture_reports (env : Env) (m mf : Machine) (res : bool) :
  unheld m ->
  (let (m', t') := electronCapture env m in endsAmid t' m' mf res) -> reported mf res.
Proof.
  intros Hi. unfold electronCapture.
  destruct (negb (truthy (selectedDesktopSourceId (store m))));
    [| apply electronAcquire_reports; exact Hi].
  unfold bind. intros H.
  destruct (fetchDesktopSources env m) as [m' t] eqn:Hfetch.
  apply endsAmid_andThen in H. destruct H as (m1 & u & Hends & Hrest).
  assert (Hi1 : unheld m1).
  { apply (@fetchDesktopSources_unheld env m m1 u Hi). rewrite Hfetch. exact Hends. }
  revert Hrest. destruct (availableDesktopSources (store m1)) as [| first rest].
  - apply failWith_reports; [exact Hi1 | nonempty].
  - apply electronAcquire_reports. exact Hi1.
Qed.

(** A [startCapture] call that no other [startCapture] overlaps, from any
    machine and whatever else runs while it is parked. *)
Lemma startCapture_reports (env : Env) (m mf : Machine) (res : bool) :
  (let (m', t') := startCapture env m in endsAmid t' m' mf res) -> reported mf res.
Proof.
  assert (Hi : unheld (onStore (set_analysisError None) (stopCapture m)))
    by exact (stopCapture_unheld m).
  unfold startCapture. cbv zeta.
  destruct (captureSource _).
  - destruct (isElectron env); [apply electronCapture_reports | apply displayCapture_reports];
      exact Hi.
  - apply cameraCapture_reports. exact Hi.
  - destruct (isElectron env); [apply electronCapture_reports | apply displayCapture_reports];
      exact Hi.
Qed.

(** A call that runs with nothing in between is one that ends amid
    nothing. *)
Lemma run_endsAmid {A : Type} (o : Oracle) :
  forall (t : Task A) (m : Machine), endsAmid t m (fst (run o t m)) (snd (run o t m)).
Proof.
  fix IH 1. intros [a | R req k] m; cbn [run endsAmid].
  - split; reflexivity.
  - exists (o _ req), m. split; [apply meanwhile_nothing |].
    destruct (k (o R req) m) as [m' t']. apply IH.
Qed.

(** The camera request and its two outcomes, on whatever machine the call is
    resumed. *)
Lemma startCapture_camera_parks (env : Env) (m : Machine) (md : MediaDevices) :
  captureSource (store m) = Camera ->
  navigator env = Some (Some md) ->
  hasGetUserMedia md = true ->
  exists m0 k,
    startCapture env m
      = (m0, Await (GetUserMediaCamera (maxImageWidth (store m)) (maxImageHeight (store m))) k) /\
    forall x : Machine,
      (forall e : JsError,
          includes (errorMessage e) "NotAllowedError"
            || includes (errorMessage e) "Permission denied" = true ->
          exists mf, k (Rejected e) x = (mf, Done false) /\
                     analysisError (store mf) = Some cameraDeniedMessage) /\
      (exists mf, k (Resolved true) x = (mf, Done true) /\
                  isCapturing (store mf) = true /\
                  currentStream (store mf) = Some (nextStream (world x)) /\
                  In (nextStream (world x)) (liveStreams (world mf))).
Proof.
  intros Hsrc Hnav Hmd.
  assert (Hw : maxImageWidth (store (onStore (set_analysisError None) (stopCapture m)))
               = maxImageWidth (store m))
    by (unfold stopCapture; destruct (currentStream (store m)); reflexivity).
  assert (Hh : maxImageHeight (store (onStore (set_analysisError None) (stopCapture m)))
               = maxImageHeight (store m))
    by (unfold stopCapture; destruct (currentStream (store m)); reflexivity).
  assert (Hs : captureSource (store (onStore (set_analysisError None) (stopCapture m)))
               = captureSource (store m))
    by (unfold stopCapture; destruct (currentStream (store m)); reflexivity).
  unfold startCapture. cbv zeta. rewrite Hs, Hsrc.
  unfold cameraCapture. rewrite Hnav, Hmd. cbn [negb].
  unfold await. rewrite Hw, Hh. eexists _, _. split; [reflexivity |].
  intros x. split.
  - intros e Hdenied. unfold cameraCatch. cbv zeta. rewrite Hdenied.
    unfold failWith, ret. eexists. split; reflexivity.
  - unfold holdResolved, grantStream, finishCapture, ret. eexists.
    split; [reflexivity |]. cbn. split; [reflexivity |]. split; [reflexivity |].
    left. reflexivity.
Qed.

(** Two [startCapture] calls on the camera that overlap: the first is parked
    at its request when the second starts; the second is granted a stream,
    then the first is refused. *)
Definition cameraReady : Machine :=
  onStore (set_captureSource Camera)
    (onStore (set_activeVisionModel "gpt-4o")
       (onStore (set_activeVisionProvider "openai") freshMachine)).

Definition refusedCallParked : Machine * Task bool := startCapture browserEnv cameraReady.

Definition grantedCallDone : Machine * bool :=
  call grantAll (startCapture browserEnv) (fst refusedCallParked).

Definition refusedCallDone : Machine * bool :=
  run denyAll (snd refusedCallParked) (fst grantedCallDone).

(** C3, as stated, fails.  A [startCapture] call that fails while another
    call, started after it, has succeeded returns false with [isCapturing]
    true and the other call's stream held and live. *)
Lemma overlapped_startCapture_fails_while_capturing :
  (exists k, snd refusedCallParked
             = Await (GetUserMediaCamera 1280 720) k) /\
  snd grantedCallDone = true /\
  snd refusedCallDone = false /\
  isCapturing (store (fst refusedCallDone)) = true /\
  currentStream (store (fst refusedCallDone)) = Some 0%nat /\
  liveStreams (world (fst refusedCallDone)) = [0%nat] /\
  analysisError (store (fst refusedCallDone)) = Some cameraDeniedMessage.
Proof.
  split; [eexists; vm_compute; reflexivity |].
  split; [vm_compute; reflexivity |]. split; [vm_compute; reflexivity |].
  split; [vm_compute; reflexivity |]. split; [vm_compute; reflexivity |].
  split; vm_compute; reflexivity.
Qed.

(** C3, amended.  Whatever the capture source, the host environment and the
    way the awaited promises settle, a [startCapture] call that no other
    [startCapture] call overlaps returns a boolean that tells what it left.

    Run with nothing in between: when the result is false, [isCapturing] is
    false, no stream is held and [analysisError] holds a non-empty message;
    when it is true, [isCapturing] is true, a stream is held and no error is
    recorded.  A camera request refused with a permission error yields false
    and the camera-denied message.  A request that the platform answers with
    a stream yields true: the camera's, the browser's screen share, and the
    desktop shell's, for the selected source or for the one chosen from a
    directory that is not empty.

    With anything but a [startCapture] running while the call is parked
    ([stopCapture], [resetState], stretches of the other operations), from
    any machine: when the result is false, [isCapturing] is false, no stream
    is held and [analysisError] holds a non-empty message; when it is true,
    [isCapturing] is true and a stream is held.  The call run with nothing
    in between is one of these.  On whatever machine the camera request is
    resumed, a permission error ends the call with false and the
    camera-denied message, and a stream ends it with true, that stream held
    and live. *)
Theorem startCapture_failure_is_reported :
  forall (env : Env) (o : Oracle) (m : Machine),
    let r := call o (startCapture env) m in
    (snd r = false ->
       isCapturing (store (fst r)) = false /\
       currentStream (store (fst r)) = None /\
       exists msg, analysisError (store (fst r)) = Some msg /\ msg <> "") /\
    (snd r = true ->
       isCapturing (store (fst r)) = true /\
       currentStream (store (fst r)) <> None /\
       analysisError (store (fst r)) = None) /\
    (forall (md : MediaDevices) (e : JsError),
        captureSource (store m) = Camera ->
        navigator env = Some (Some md) ->
        hasGetUserMedia md = true ->
        o _ (GetUserMediaCamera (maxImageWidth (store m)) (maxImageHeight (store m)))
          = Rejected e ->
        includes (errorMessage e) "NotAllowedError"
          || includes (errorMessage e) "Permission denied" = true ->
        snd r = false /\
        isCapturing (store (fst r)) = false /\
        analysisError (store (fst r)) = Some cameraDeniedMessage) /\
    (forall md : MediaDevices,
        navigator env = Some (Some md) ->
        (captureSource (store m) = Camera /\
         hasGetUserMedia md = true /\
         o _ (GetUserMediaCamera (maxImageWidth (store m)) (maxImageHeight (store m)))
           = Resolved true) \/
        (captureSource (store m) <> Camera /\
         isElectron env = false /\
         hasGetDisplayMedia md = true /\
         o _ (GetDisplayMedia (maxImageWidth (store m)) (maxImageHeight (store m)))
           = Resolved true) \/
        (captureSource (store m) <> Camera /\
         isElectron env = true /\
         truthy (selectedDesktopSourceId (store m)) = true /\
         hasGetUserMedia md = true /\
         o _ (GetUserMediaDesktop (selectedDesktopSourceId (store m))
                (maxImageWidth (store m)) (maxImageHeight (store m)))
           = Resolved true) \/
        (captureSource (store m) <> Camera /\
         isElectron env = true /\
         windowElectron env = true /\
         truthy (selectedDesktopSourceId (store m)) = false /\
         (exists raw rest, o _ IpcGetDesktopSources = Resolved (raw :: rest)) /\
         hasGetUserMedia md = true /\
         (forall id,
             o _ (GetUserMediaDesktop id (maxImageWidth (store m)) (maxImageHeight (store m)))
             = Resolved true)) ->
        snd r = true /\
        isCapturing (store (fst r)) = true /\
        currentStream (store (fst r)) = Some (nextStream (world m)) /\
        In (nextStream (world m)) (liveStreams (world (fst r)))) /\
    (forall (mf : Machine) (res : bool),
        (let (m0, t) := startCapture env m in endsAmid t m0 mf res) ->
        (res = false ->
           isCapturing (store mf) = false /\
           currentStream (store mf) = None /\
           exists msg, analysisError (store mf) = Some msg /\ msg <> "") /\
        (res = true ->
           isCapturing (store mf) = true /\
           currentStream (store mf) <> None)) /\
    (let (m0, t) := startCapture env m in endsAmid t m0 (fst r) (snd r)) /\
    (forall md : MediaDevices,
        captureSource (store m) = Camera ->
        navigator env = Some (Some md) ->
        hasGetUserMedia md = true ->
        exists m0 k,
          startCapture env m
            = (m0, Await (GetUserMediaCamera (maxImageWidth (store m))
                                             (maxImageHeight (store m))) k) /\
          forall x : Machine,
            (forall e : JsError,
                includes (errorMessage e) "NotAllowedError"
                  || includes (errorMessage e) "Permission denied" = true ->
                exists mf, k (Rejected e) x = (mf, Done false) /\
                           analysisError (store mf) = Some cameraDeniedMessage) /\
            (exists mf, k (Resolved true) x = (mf, Done true) /\
                        isCapturing (store mf) = true /\
                        currentStream (store mf) = Some (nextStream (world x)) /\
                        In (nextStream (world x)) (liveStreams (world mf)))).
Proof.
  intros env o m r.
  assert (Hgranted : forall md : MediaDevices,
        navigator env = Some (Some md) ->
        (captureSource (store m) = Camera /\
         hasGetUserMedia md = true /\
         o _ (GetUserMediaCamera (maxImageWidth (store m)) (maxImageHeight (store m)))
           = Resolved true) \/
        (captureSource (store m) <> Camera /\
         isElectron env = false /\
         hasGetDisplayMedia md = true /\
         o _ (GetDisplayMedia (maxImageWidth (store m)) (maxImageHeight (store m)))
           = Resolved true) \/
        (captureSource (store m) <> Camera /\
         isElectron env = true /\
         truthy (selectedDesktopSourceId (store m)) = true /\
         hasGetUserMedia md = true /\
         o _ (GetUserMediaDesktop (selectedDesktopSourceId (store m))
                (maxImageWidth (store m)) (maxImageHeight (store m)))
           = Resolved true) \/
        (captureSource (store m) <> Camera /\
         isElectron env = true /\
         windowElectron env = true /\
         truthy (selectedDesktopSourceId (store m)) = false /\
         (exists raw rest, o _ IpcGetDesktopSources = Resolved (raw :: rest)) /\
         hasGetUserMedia md = true /\
         (forall id,
             o _ (GetUserMediaDesktop id (maxImageWidth (store m)) (maxImageHeight (store m)))
             = Resolved true)) ->
        snd r = true).
  { intros md Hnav [(Hsrc & Hmd & Hok) | [(Hsrc & Hshell & Hmd & Hok)
                                          | [(Hsrc & Hshell & Hsel & Hmd & Hok)
                                            | (Hsrc & Hshell & Hwin & Hsel & Hipc & Hmd & Hok)]]].
    - exact (call_startCapture_camera_granted env o m Hsrc Hnav Hmd Hok).
    - exact (call_startCapture_display_granted env o m Hsrc Hshell Hnav Hmd Hok).
    - exact (call_startCapture_desktop_granted env o m Hsrc Hshell Hsel Hnav Hmd Hok).
    - destruct Hipc as (raw & rest & Hipc).
      exact (@call_startCapture_desktop_fetched_granted env o m md raw rest
               Hsrc Hshell Hwin Hsel Hipc Hnav Hmd Hok). }
  pose proof (call_startCapture env o m) as (_ & Hr). fold r in Hr.
  assert (Hfalse : snd r = false ->
            isCapturing (store (fst r)) = false /\
            currentStream (store (fst r)) = None /\
            exists msg, analysisError (store (fst r)) = Some msg /\ msg <> "").
  { intros Hres. destruct Hr as [(H1 & _) | (_ & H2 & H3 & H4 & _)].
    - rewrite Hres in H1. discriminate.
    - auto. }
  split; [exact Hfalse |]. split; [| split; [| split; [| split; [| split]]]].
  - intros Hres. destruct Hr as [(_ & H2 & H3 & H4 & _) | (H1 & _)].
    + rewrite H3. repeat split; try assumption. discriminate.
    + rewrite Hres in H1. discriminate.
  - intros md e Hsrc Hnav Hmd Hrej Hdenied.
    destruct (call_startCapture_camera_denied env o m Hsrc Hnav Hmd Hrej Hdenied) as [Hf Herr].
    fold r in Hf, Herr. split; [exact Hf |]. split; [| exact Herr].
    apply Hfalse. exact Hf.
  - intros md Hnav Hcase. pose proof (Hgranted md Hnav Hcase) as Hres.
    split; [exact Hres |].
    destruct Hr as [(_ & H2 & H3 & _ & H5 & _) | (H1 & _)];
      [| rewrite Hres in H1; discriminate].
    assert (Hnext : nextStream (world (onStore (set_analysisError None) (stopCapture m)))
                    = nextStream (world m))
      by (unfold stopCapture; destruct (currentStream (store m)); reflexivity).
    rewrite Hnext in H3, H5.
    split; [exact H2 |]. split; [exact H3 |]. rewrite H5. left. reflexivity.
  - intros mf res Hends.
    destruct (@startCapture_reports env m mf res Hends)
      as [(-> & Hcap & Hcur) | (-> & (Hcur & Hcap) & Hmsg)].
    + split; [discriminate |]. intros _. split; assumption.
    + split; [| discriminate]. intros _. split; [exact Hcap |]. split; [exact Hcur | exact Hmsg].
  - subst r. unfold call. destruct (startCapture env m) as [m0 t]. apply run_endsAmid.
  - intros md Hsrc Hnav Hmd. exact (startCapture_camera_parks env m Hsrc Hnav Hmd).
Qed.

(** The camera is refused with "Permission denied"; the same request,
    granted, starts the capture. *)
Lemma startCapture_failure_is_reported_witness :
  (snd (call denyAll (startCapture browserEnv) cameraMachine) = false /\
   isCapturing (store (fst (call denyAll (startCapture browserEnv) cameraMachine))) = false /\
   analysisError (store (fst (call denyAll (startCapture browserEnv) cameraMachine)))
     = Some cameraDeniedMessage) /\
  (snd (call grantAll (startCapture browserEnv) cameraMachine) = true /\
   isCapturing (store (fst (call grantAll (startCapture browserEnv) cameraMachine))) = true /\
   currentStream (store (fst (call grantAll (startCapture browserEnv) cameraMachine)))
     = Some (nextStream (world cameraMachine)) /\
   In (nextStream (world cameraMachine))
      (liveStreams (world (fst (call grantAll (startCapture browserEnv) cameraMachine))))).
Proof.
  split.
  - refine (proj1 (proj2 (proj2 (startCapture_failure_is_reported browserEnv denyAll
                                   cameraMachine)))
                  (mkMediaDevices true true) (ErrorObj "Permission denied") _ _ _ _ _);
      vm_compute; reflexivity.
  - refine (proj1 (proj2 (proj2 (proj2 (startCapture_failure_is_reported browserEnv grantAll
                                          cameraMachine))))
                  (mkMediaDevices true true) _ _).
    + vm_compute. reflexivity.
    + left. split; [vm_compute; reflexivity |]. split; vm_compute; reflexivity.
Defined.

(* ------------------------------------------------------------------ *)
(** ** One live stream at a time *)

(** Two [startCapture] calls that overlap: the second is started while the
    first is parked at its request; the first is granted a stream, then the
    second. *)
Definition firstCallParked : Machine * Task bool := startCapture browserEnv freshMachine.

Definition secondCallParked : Machine * Task bool :=
  startCapture browserEnv (fst firstCallParked).

Definition firstCallDone : Machine * bool :=
  run grantAll (snd firstCallParked) (fst secondCallParked).

Definition secondCallDone : Machine * bool :=
  run grantAll (snd secondCallParked) (fst firstCallDone).

(** C1, as stated, fails.  [startCapture] stops the previous capture before
    its request and keeps the stream it is granted after it.  When two calls
    overlap, each has stopped what there was before either is granted a
    stream: both streams are live, only the later one is referenced, and
    [stopCapture] leaves the earlier one live for good. *)
Lemma overlapping_startCapture_leaves_two_streams :
  (exists k, snd firstCallParked = Await (GetDisplayMedia 1280 720) k) /\
  (exists k, snd secondCallParked = Await (GetDisplayMedia 1280 720) k) /\
  snd firstCallDone = true /\
  snd secondCallDone = true /\
  liveStreams (world (fst secondCallDone)) = [1%nat; 0%nat] /\
  currentStream (store (fst secondCallDone)) = Some 1%nat /\
  liveStreams (world (stopCapture (fst secondCallDone))) = [0%nat] /\
  currentStream (store (stopCapture (fst secondCallDone))) = None.
Proof.
  split; [eexists; vm_compute; reflexivity |].
  split; [eexists; vm_compute; reflexivity |].
  split; [vm_compute; reflexivity |]. split; [vm_compute; reflexivity |].
  split; [vm_compute; reflexivity |]. split; [vm_compute; reflexivity |].
  split; vm_compute; reflexivity.
Qed.

(** C1, amended.  As long as no two [startCapture] calls overlap, at most
    one stream is live at any time.  From a state in which the world's live
    streams are the one the store holds (as at creation, when there is
    none):

    - after two consecutive [startCapture] calls, the second started when
      the first has returned, at most one stream is live; if the second call
      succeeded it is the stream that call acquired, which is the one the
      store references and differs from the first call's; if it failed none
      is live; either way the first call's stream has been torn down;
    - after any sequence of operations, each started when the one before has
      returned, at most one stream is live and [isCapturing] is true exactly
      when [currentStream] is set;
    - in any history in which no [startCapture] call starts while another is
      parked, whatever else runs while one is parked and between two, at
      most one stream is live, a live stream is the one the store
      references and [isCapturing] is true exactly when [currentStream] is
      set; and wherever a further [startCapture] call passes, from its call
      over each of its awaits to its return, and whatever else runs while it
      is parked, at most one stream is live;
    - what else runs is [stopCapture], [resetState] and stretches of code
      that leave the capture state as it is: such is every stretch of
      [captureFrame], [analyzeImage], [captureAndAnalyze],
      [fetchDesktopSources] and a timer's tick, from the call or a
      resumption to the next await or the return, and such are
      [startContinuousCapture] and [stopContinuousCapture]. *)
Theorem at_most_one_live_stream :
  forall (env : Env) (m : Machine),
    streamInv m ->
    (forall o1 o2 : Oracle,
        let r1 := call o1 (startCapture env) m in
        let r2 := call o2 (startCapture env) (fst r1) in
        (length (liveStreams (world (fst r2))) <= 1)%nat /\
        (snd r2 = true ->
           currentStream (store (fst r2)) = Some (nextStream (world (fst r1))) /\
           liveStreams (world (fst r2)) = [nextStream (world (fst r1))] /\
           currentStream (store (fst r2)) <> currentStream (store (fst r1))) /\
        (snd r2 = false ->
           currentStream (store (fst r2)) = None /\ liveStreams (world (fst r2)) = []) /\
        (forall sid, currentStream (store (fst r1)) = Some sid ->
                     ~ In sid (liveStreams (world (fst r2))))) /\
    (forall script : list (Oracle * Op),
        let m' := performAll env script m in
        (length (liveStreams (world m')) <= 1)%nat /\
        (forall sid, In sid (liveStreams (world m')) -> currentStream (store m') = Some sid) /\
        (isCapturing (store m') = true <-> currentStream (store m') <> None)) /\
    (forall m' : Machine,
        Reaches env m m' ->
        (length (liveStreams (world m')) <= 1)%nat /\
        (forall sid, In sid (liveStreams (world m')) -> currentStream (store m') = Some sid) /\
        (isCapturing (store m') = true <-> currentStream (store m') <> None) /\
        (forall y : Machine,
            (let (m0, t) := startCapture env m' in visitsAmid t m0 y) ->
            (length (liveStreams (world y)) <= 1)%nat)) /\
    ((forall options, stretchesKeep sameStreamState (captureFrame env options)) /\
     (forall imageDataUrl prompt,
         stretchesKeep sameStreamState (analyzeImage env imageDataUrl prompt)) /\
     (forall prompt, stretchesKeep sameStreamState (captureAndAnalyze env prompt)) /\
     stretchesKeep sameStreamState (fetchDesktopSources env) /\
     (forall id, stretchesKeep sameStreamState (fire env id)) /\
     (forall x, sameStreamState x (startContinuousCapture x)) /\
     (forall x, sameStreamState x (stopContinuousCapture x))).
Proof.
  intros env m Hinv.
  assert (Hread : forall m' : Machine,
            streamInv m' ->
            (length (liveStreams (world m')) <= 1)%nat /\
            (forall sid, In sid (liveStreams (world m')) -> currentStream (store m') = Some sid) /\
            (isCapturing (store m') = true <-> currentStream (store m') <> None)).
  { intros m' Hinv'. split; [exact (streamInv_calm Hinv') |].
    destruct Hinv' as (Hlive & Hflag & _). split; [| exact Hflag].
    intros sid Hin. rewrite Hlive in Hin.
    destruct (currentStream (store m')) as [sid' |]; simpl in Hin.
    - destruct Hin as [-> | []]. reflexivity.
    - destruct Hin. }
  split; [| split; [| split]].
  - intros o1 o2 r1 r2.
    destruct (startCapture_streams env o1 Hinv) as (Hinv1 & _). fold r1 in Hinv1.
    destruct (startCapture_streams env o2 Hinv1) as (Hinv2 & Hok & Hko). fold r2 in Hinv2, Hok, Hko.
    destruct Hinv1 as (_ & _ & Hfresh1).
    assert (Hdiff : forall sid, currentStream (store (fst r1)) = Some sid ->
                                sid <> nextStream (world (fst r1))).
    { intros sid Hsid. specialize (Hfresh1 sid Hsid). lia. }
    destruct (snd r2) eqn:Hres.
    + destruct (Hok eq_refl) as [Hcur Hlive]. rewrite Hlive, Hcur.
      split; [simpl; lia |]. split; [| split].
      * intros _. repeat split.
        intros Heq. symmetry in Heq. apply (Hdiff _ Heq). reflexivity.
      * discriminate.
      * intros sid Hsid [Hin | []]. apply (Hdiff _ Hsid). symmetry. exact Hin.
    + destruct (Hko eq_refl) as [Hcur Hlive]. rewrite Hlive, Hcur.
      split; [simpl; lia |]. split; [discriminate |]. split; [intros _; split; reflexivity |].
      intros sid _ [].
  - intros script m'. apply Hread. exact (performAll_streamInv env script Hinv).
  - intros m' Hreach. pose proof (Reaches_streamInv Hreach Hinv) as Hinv'.
    destruct (Hread m' Hinv') as (H1 & H2 & H3).
    split; [exact H1 |]. split; [exact H2 |]. split; [exact H3 |].
    intros y Hy. exact (@startCapture_visits env m' y Hinv' Hy).
  - split; [intros options; apply captureFrame_stretches |].
    split; [intros imageDataUrl prompt; apply analyzeImage_stretches |].
    split; [intros prompt; apply captureAndAnalyze_stretches |].
    split; [apply fetchDesktopSources_stretches |].
    split; [intros id; apply fire_stretches |].
    split; intros x; apply continuousCapture_sameStreamState.
Qed.

Lemma freshMachine_streamInv : streamInv freshMachine.
Proof. apply streamInv_fresh; reflexivity. Qed.

(** Two captures in a row from a new store: stream 1 is live, stream 0 is
    not. *)
Lemma at_most_one_live_stream_witness :
  liveStreams (world (fst (call grantAll (startCapture browserEnv)
                             (fst (call grantAll (startCapture browserEnv) freshMachine)))))
    = [1%nat] /\
  ~ In 0%nat
      (liveStreams (world (fst (call grantAll (startCapture browserEnv)
                                  (fst (call grantAll (startCapture browserEnv) freshMachine)))))).
Proof.
  pose proof (proj1 (at_most_one_live_stream browserEnv freshMachine_streamInv)
                    grantAll grantAll) as H.
  cbv zeta in H. destruct H as (_ & Hok & _ & Hgone).
  split.
  - destruct Hok as (_ & Hlive & _); [vm_compute; reflexivity |].
    rewrite Hlive. vm_compute. reflexivity.
  - apply Hgone. vm_compute. reflexivity.
Defined.

(* ------------------------------------------------------------------ *)
(** ** Between operations no analysis is in flight *)

Lemma call_analyzeImage_flag (env : Env) (o : Oracle) (imageDataUrl : string)
      (prompt : option string) (m : Machine) :
  isAnalyzing (store m) = false ->
  isAnalyzing (store (fst (call o (analyzeImage env imageDataUrl prompt) m))) = false.
Proof.
  intros Hidle. rewrite call_analyzeImage.
  destruct (configured (store m)); [| exact Hidle].
  cbv zeta.
  destruct (o _ (GetProviderInstance _)) as [[|] | e]; try reflexivity.
  destruct (o _ (GenerateText _ _ _)) as [text | e]; reflexivity.
Qed.

Lemma call_captureAndAnalyze_flag (env : Env) (o : Oracle) (prompt : option string)
      (m : Machine) :
  isAnalyzing (store m) = false ->
  isAnalyzing (store (fst (call o (captureAndAnalyze env prompt) m))) = false.
Proof.
  intros Hidle. rewrite call_captureAndAnalyze.
  pose proof (call_captureFrame_frame env o None m) as H. cbv zeta in H.
  destruct H as (_ & _ & Hflag & _). rewrite Hidle in Hflag.
  destruct (snd (call o (captureFrame env None) m)) as [url |]; [| exact Hflag].
  destruct (negb (truthy url)); [exact Hflag |].
  apply call_analyzeImage_flag. exact Hflag.
Qed.

(** Every operation that starts with the analysis flag down ends with it
    down: when operations do not overlap, each one finds it down. *)
Lemma perform_isAnalyzing (env : Env) (o : Oracle) (op : Op) (m : Machine) :
  isAnalyzing (store m) = false -> isAnalyzing (store (perform env o op m)) = false.
Proof.
  intros Hidle. destruct op; simpl perform.
  - rewrite <- Hidle. unfold resetState, stopContinuousCapture, stopCapture.
    destruct m as [s w]. destruct s. simpl.
    destruct captureIntervalId0; destruct currentStream0; reflexivity.
  - pose proof (call_startCapture env o m) as ((Hflag & _) & _).
    rewrite Hflag. rewrite <- Hidle. unfold stopCapture.
    destruct (currentStream (store m)); reflexivity.
  - rewrite <- Hidle. unfold stopCapture. destruct (currentStream (store m)); reflexivity.
  - pose proof (call_captureFrame_frame env o options m) as H. cbv zeta in H.
    destruct H as (_ & _ & Hflag & _). rewrite Hflag. exact Hidle.
  - apply call_analyzeImage_flag. exact Hidle.
  - apply call_captureAndAnalyze_flag. exact Hidle.
  - rewrite <- Hidle. unfold startContinuousCapture, stopContinuousCapture.
    destruct (analysisMode (store m)); [reflexivity |].
    destruct (captureIntervalId (store m)); reflexivity.
  - rewrite <- Hidle. unfold stopContinuousCapture.
    destruct (captureIntervalId (store m)); reflexivity.
  - pose proof (call_fetchDesktopSources env o m) as H. cbv zeta in H.
    destruct H as (_ & (Hflag & _) & _). rewrite Hflag. exact Hidle.
  - unfold fire, tick. enter.
    destruct (existsb _ _); [| exact Hidle].
    destruct (negb (isAnalyzing (store m)) && isCapturing (store m)); [| exact Hidle].
    change (isAnalyzing (store (fst (call o (bind (captureAndAnalyze env None)
                                               (fun _ => ret tt)) m))) = false).
    rewrite call_bind.
    pose proof (@call_captureAndAnalyze_flag env o None m Hidle) as H.
    destruct (call o (captureAndAnalyze env None) m) as [m1 res]. exact H.
Qed.

Lemma performAll_isAnalyzing (env : Env) (script : list (Oracle * Op)) :
  forall m : Machine,
    isAnalyzing (store m) = false -> isAnalyzing (store (performAll env script m)) = false.
Proof.
  induction script as [| [o op] rest IH]; intros m Hidle; simpl.
  - exact Hidle.
  - apply IH. apply perform_isAnalyzing. exact Hidle.
Qed.

(** C5, as stated, fails.  The early return for an unset provider or model
    leaves [isAnalyzing] as it finds it.  Here an analysis is parked at its
    first await (flag up) when the settings are reset; a second call then
    takes the early return and comes back empty with the flag still up. *)
Lemma analyzeImage_early_return_keeps_raised_flag :
  isAnalyzing (store inFlightMachine) = true /\
  configured (store (resetState inFlightMachine)) = false /\
  snd (call grantAll (analyzeImage browserEnv "data:," None) (resetState inFlightMachine))
    = None /\
  isAnalyzing
    (store (fst (call grantAll (analyzeImage browserEnv "data:," None)
                   (resetState inFlightMachine))))
    = true.
Proof.
  split; [vm_compute; reflexivity |]. split; [vm_compute; reflexivity |].
  split; vm_compute; reflexivity.
Qed.

(** C5, amended.  When provider and model are configured, [isAnalyzing] is
    false when [analyzeImage] returns, however the provider calls settle:
    every path that raised the flag lowers it, and this is so whatever ran
    while the call was parked at an await.  When one of them is unset the
    call finishes at once, awaiting nothing: the flag is not touched, so it
    is as the call found it, the world is as before, the configuration
    error is recorded and the result is empty.  So a call made with the flag
    down returns with the flag down, and so does every later call, whatever
    operations were run to completion in between. *)
Theorem analyzeImage_resets_isAnalyzing :
  forall (env : Env) (o : Oracle) (imageDataUrl : string) (prompt : option string)
         (m : Machine),
    let r := call o (analyzeImage env imageDataUrl prompt) m in
    (configured (store m) = true -> isAnalyzing (store (fst r)) = false) /\
    (configured (store m) = true ->
       exists m1 k1,
         analyzeImage env imageDataUrl prompt m
           = (m1, Await (GetProviderInstance (activeVisionProvider (store m))) k1) /\
         forall (r1 : Outcome bool) (x : Machine),
           (exists x' res, k1 r1 x = (x', Done res) /\ isAnalyzing (store x') = false) \/
           (exists x2 (generate : Request (Outcome (option string))) k2,
               k1 r1 x = (x2, Await generate k2) /\
               forall (r2 : Outcome (option string)) (y : Machine),
                 exists y' res,
                   k2 r2 y = (y', Done res) /\ isAnalyzing (store y') = false)) /\
    (configured (store m) = false ->
       analyzeImage env imageDataUrl prompt m
         = (onStore (set_analysisError (Some configMessage)) m, Done None) /\
       r = (onStore (set_analysisError (Some configMessage)) m, None) /\
       isAnalyzing (store (fst r)) = isAnalyzing (store m) /\
       world (fst r) = world m) /\
    (isAnalyzing (store m) = false ->
       isAnalyzing (store (fst r)) = false /\
       forall (script : list (Oracle * Op)) (o' : Oracle) (url : string) (p : option string),
         isAnalyzing
           (store (fst (call o' (analyzeImage env url p) (performAll env script (fst r)))))
         = false).
Proof.
  intros env o imageDataUrl prompt m r.
  assert (Hparked : configured (store m) = true ->
       exists m1 k1,
         analyzeImage env imageDataUrl prompt m
           = (m1, Await (GetProviderInstance (activeVisionProvider (store m))) k1) /\
         forall (r1 : Outcome bool) (x : Machine),
           (exists x' res, k1 r1 x = (x', Done res) /\ isAnalyzing (store x') = false) \/
           (exists x2 (generate : Request (Outcome (option string))) k2,
               k1 r1 x = (x2, Await generate k2) /\
               forall (r2 : Outcome (option string)) (y : Machine),
                 exists y' res,
                   k2 r2 y = (y', Done res) /\ isAnalyzing (store y') = false)).
  { intros Hc. unfold analyzeImage at 1. rewrite analyzeImage_guard, Hc. cbn [negb]. cbv zeta.
    unfold await at 1. eexists _, _. split; [reflexivity |].
    intros [[|] | e] x; cbv beta iota.
    - right. unfold await at 1. eexists _, _, _. split; [reflexivity |].
      intros [text | e] y; cbv beta iota; eexists _, _; split; reflexivity.
    - left. eexists _, _. split; reflexivity.
    - left. eexists _, _. split; reflexivity. }
  assert (Hconf : configured (store m) = true -> isAnalyzing (store (fst r)) = false).
  { intros Hc. subst r. rewrite call_analyzeImage, Hc. cbv zeta.
    destruct (o _ (GetProviderInstance _)) as [[|] | e]; try reflexivity.
    destruct (o _ (GenerateText _ _ _)) as [text | e]; reflexivity. }
  assert (Hunconf : configured (store m) = false ->
            analyzeImage env imageDataUrl prompt m
              = (onStore (set_analysisError (Some configMessage)) m, Done None) /\
            r = (onStore (set_analysisError (Some configMessage)) m, None) /\
            isAnalyzing (store (fst r)) = isAnalyzing (store m) /\
            world (fst r) = world m).
  { intros Hc. subst r. rewrite call_analyzeImage, Hc. split; [| repeat split].
    unfold analyzeImage. rewrite analyzeImage_guard, Hc. reflexivity. }
  split; [exact Hconf |]. split; [exact Hparked |]. split; [exact Hunconf |].
  intros Hidle.
  assert (Hdown : isAnalyzing (store (fst r)) = false).
  { destruct (configured (store m)) eqn:Hc.
    - apply Hconf. reflexivity.
    - destruct (Hunconf eq_refl) as (_ & _ & Hsame & _). rewrite Hsame. exact Hidle. }
  split; [exact Hdown |].
  intros script o' url p. apply call_analyzeImage_flag.
  apply performAll_isAnalyzing. exact Hdown.
Qed.

(** The provider call fails with HTTP 500: the flag is down on return. *)
Lemma analyzeImage_resets_isAnalyzing_witness :
  isAnalyzing (store (fst (call denyAll (analyzeImage browserEnv "data:," None)
                             capturingMachine))) = false.
Proof.
  refine (proj1 (proj2 (proj2 (proj2 (analyzeImage_resets_isAnalyzing browserEnv denyAll
                                        "data:," None capturingMachine))) _)).
  vm_compute. reflexivity.
Defined.

(* ------------------------------------------------------------------ *)
(** ** The desktop shell without sources *)




(* ================================================================== *)
(** * Further functions of the vision feature

    The model list heuristics of [vision.ts], the handlers of the vision
    settings page, the [see_screen] tool of the desktop shell, and the voice
    helpers of the Google Cloud text-to-speech settings page. *)

(* ------------------------------------------------------------------ *)
(** ** Strings *)

(** [f] applied to every character. *)
Fixpoint mapString (f : Ascii.ascii -> Ascii.ascii) (s : string) : string :=
  match s with
  | EmptyString => EmptyString
  | String c s' => String (f c) (mapString f s')
  end.

(** Every character of [s] is an ASCII character. *)
Fixpoint isAscii (s : string) : bool :=
  match s with
  | EmptyString => true
  | String c s' => (Ascii.nat_of_ascii c <? 128)%nat && isAscii s'
  end.

(** [toLowerCase] and [toUpperCase] of one ASCII character.  The model of
    case mapping is for strings of ASCII characters, as the identifiers of
    models and voices are: there it is JavaScript's.  Other bytes are left
    as they are, where JavaScript maps some letters outside ASCII to ASCII
    ones; what is stated about case below is stated for [isAscii] strings. *)
Definition lowerAscii (c : Ascii.ascii) : Ascii.ascii :=
  let n := Ascii.nat_of_ascii c in
  if ((65 <=? n) && (n <=? 90))%nat then Ascii.ascii_of_nat (n + 32) else c.

Definition upperAscii (c : Ascii.ascii) : Ascii.ascii :=
  let n := Ascii.nat_of_ascii c in
  if ((97 <=? n) && (n <=? 122))%nat then Ascii.ascii_of_nat (n - 32) else c.

(** [s.toLowerCase()], [s.toUpperCase()] for an ASCII [s]. *)
Definition toLowerCase (s : string) : string := mapString lowerAscii s.
Definition toUpperCase (s : string) : string := mapString upperAscii s.

Lemma mapString_append (f : Ascii.ascii -> Ascii.ascii) (a b : string) :
  mapString f (a ++ b) = mapString f a ++ mapString f b.
Proof.
  induction a as [| c a IH]; simpl; [reflexivity | rewrite IH; reflexivity].
Qed.

Lemma prefix_spec (p s : string) :
  String.prefix p s = true <-> exists b, s = p ++ b.
Proof.
  revert s. induction p as [| c p IH]; intros s; simpl.
  - split; [intros _; exists s; reflexivity | intros _; destruct s; reflexivity].
  - destruct s as [| d s]; [split; [discriminate | intros [b Hb]; discriminate] |].
    simpl. destruct (Ascii.ascii_dec c d) as [Heq | Hne].
    + subst d. rewrite IH. split; intros [b Hb]; exists b; [rewrite Hb; reflexivity |].
      injection Hb as Hb. exact Hb.
    + split; [discriminate |]. intros [b Hb]. injection Hb as Hcd _.
      contradiction Hne. symmetry. exact Hcd.
Qed.

Lemma includes_unfold (s p : string) :
  includes s p =
  if String.prefix p s then true
  else match s with
       | EmptyString => false
       | String _ s' => includes s' p
       end.
Proof. destruct s; reflexivity. Qed.

(** [s.includes(p)] holds exactly when [p] occurs somewhere in [s]. *)
Lemma includes_spec (s p : string) :
  includes s p = true <-> exists a b, s = a ++ p ++ b.
Proof.
  induction s as [| c s IH]; rewrite includes_unfold.
  - destruct (String.prefix p "") eqn:Hp.
    + split; [intros _ | reflexivity].
      apply prefix_spec in Hp. destruct Hp as [b Hb]. exists "", b. exact Hb.
    + split; [discriminate |]. intros (a & b & Hab).
      destruct a; [| discriminate]. simpl in Hab.
      assert (String.prefix p "" = true) by (apply prefix_spec; exists b; exact Hab).
      congruence.
  - destruct (String.prefix p (String c s)) eqn:Hp.
    + split; [intros _ | reflexivity].
      apply prefix_spec in Hp. destruct Hp as [b Hb]. exists "", b. exact Hb.
    + rewrite IH. split.
      * intros (a & b & Hab). exists (String c a), b. rewrite Hab. reflexivity.
      * intros (a & b & Hab). destruct a as [| d a].
        -- simpl in Hab.
           assert (String.prefix p (String c s) = true)
             by (apply prefix_spec; exists b; exact Hab).
           congruence.
        -- injection Hab as _ Hab. exists a, b. exact Hab.
Qed.

Lemma append_assoc (a b c : string) : (a ++ b) ++ c = a ++ (b ++ c).
Proof. induction a as [| x a IH]; simpl; [reflexivity | rewrite IH; reflexivity]. Qed.

(** Occurrence is transitive. *)
Lemma includes_trans (s t p : string) :
  includes s t = true -> includes t p = true -> includes s p = true.
Proof.
  rewrite !includes_spec. intros (a & b & ->) (a' & b' & ->).
  exists (a ++ a'), (b' ++ b). rewrite !append_assoc. reflexivity.
Qed.

(** Occurrence survives a character-wise map. *)
Lemma includes_mapString (f : Ascii.ascii -> Ascii.ascii) (s p : string) :
  includes s p = true -> includes (mapString f s) (mapString f p) = true.
Proof.
  rewrite !includes_spec. intros (a & b & ->).
  exists (mapString f a), (mapString f b). rewrite !mapString_append. reflexivity.
Qed.

Lemma lowerAscii_upperAscii (c : Ascii.ascii) : lowerAscii (upperAscii c) = lowerAscii c.
Proof. destruct c as [[] [] [] [] [] [] [] []]; vm_compute; reflexivity. Qed.

Lemma lowerAscii_idem (c : Ascii.ascii) : lowerAscii (lowerAscii c) = lowerAscii c.
Proof. destruct c as [[] [] [] [] [] [] [] []]; vm_compute; reflexivity. Qed.

Lemma upperAscii_lowerAscii (c : Ascii.ascii) : upperAscii (lowerAscii c) = upperAscii c.
Proof. destruct c as [[] [] [] [] [] [] [] []]; vm_compute; reflexivity. Qed.

Lemma mapString_compose (f g h : Ascii.ascii -> Ascii.ascii) :
  (forall c, f (g c) = h c) ->
  forall s, mapString f (mapString g s) = mapString h s.
Proof.
  intros Hfg s. induction s as [| c s IH]; cbn [mapString]; [reflexivity |].
  rewrite Hfg, IH. reflexivity.
Qed.

Lemma toLowerCase_toUpperCase (s : string) : toLowerCase (toUpperCase s) = toLowerCase s.
Proof. apply mapString_compose. exact lowerAscii_upperAscii. Qed.

Lemma toLowerCase_idem (s : string) : toLowerCase (toLowerCase s) = toLowerCase s.
Proof. apply mapString_compose. exact lowerAscii_idem. Qed.

Lemma toUpperCase_toLowerCase (s : string) : toUpperCase (toLowerCase s) = toUpperCase s.
Proof. apply mapString_compose. exact upperAscii_lowerAscii. Qed.

Lemma toLowerCase_append (a b : string) :
  toLowerCase (a ++ b) = toLowerCase a ++ toLowerCase b.
Proof. apply mapString_append. Qed.

(* ------------------------------------------------------------------ *)
(** ** Vision-capable models *)

Definition VISION_CAPABLE_MODEL_PATTERNS : list string :=
  [ "gpt-4o"; "gpt-4-turbo"; "gpt-4-vision";
    "claude-3"; "claude-3.5"; "claude-3-5";
    "gemini-1.5"; "gemini-2"; "gemini-pro-vision";
    "llama-4"; "llama-3.2"; "llama-3.3";
    "llava"; "bakllava"; "moondream";
    "qwen-vl"; "qwen2-vl";
    "pixtral"; "molmo" ].

(** [isVisionCapableModel(modelId)] *)
Definition isVisionCapableModel (modelId : string) : bool :=
  let modelIdLower := toLowerCase modelId in
  existsb (fun pattern => includes modelIdLower (toLowerCase pattern))
          VISION_CAPABLE_MODEL_PATTERNS.

Section ModelLists.

(** The provider store's model records; only their [id] is read here. *)
Variable ModelInfo : Type.
Variable id : ModelInfo -> string.

(** The computed ref [visionCapableModels], from [providerModels]. *)
Definition visionCapableModels (providerModels : list ModelInfo) : list ModelInfo :=
  let models := providerModels in
  filter (fun model =>
            let modelId := toLowerCase (id model) in
            existsb (fun pattern => includes modelId (toLowerCase pattern))
                    VISION_CAPABLE_MODEL_PATTERNS)
         models.

(** [displayedModels] of the settings page. *)
Definition displayedModels (showAllModels : bool) (providerModels : list ModelInfo)
  : list ModelInfo :=
  let allModels := providerModels in
  let visionModels := visionCapableModels providerModels in
  if showAllModels then allModels
  else if (0 <? length visionModels)%nat then visionModels else allModels.

(** [hasNonVisionModels] of the settings page. *)
Definition hasNonVisionModels (providerModels : list ModelInfo) : bool :=
  let allModels := providerModels in
  let visionModels := visionCapableModels providerModels in
  (length visionModels <? length allModels)%nat.

End ModelLists.

(** The patterns are written in lower case already. *)
Lemma patterns_lowercase :
  map toLowerCase VISION_CAPABLE_MODEL_PATTERNS = VISION_CAPABLE_MODEL_PATTERNS.
Proof. vm_compute. reflexivity. Qed.

Lemma isVisionCapableModel_spec (modelId : string) :
  isVisionCapableModel modelId = true <->
  exists pattern, In pattern VISION_CAPABLE_MODEL_PATTERNS /\
                  includes (toLowerCase modelId) pattern = true.
Proof.
  unfold isVisionCapableModel. cbv zeta. rewrite existsb_exists. split.
  - intros (p & Hin & Hinc). exists (toLowerCase p). split; [| exact Hinc].
    rewrite <- patterns_lowercase. apply in_map. exact Hin.
  - intros (p & Hin & Hinc). exists p. split; [exact Hin |].
    rewrite <- patterns_lowercase in Hin. apply in_map_iff in Hin.
    destruct Hin as (p0 & Hp0 & _). rewrite <- Hp0, toLowerCase_idem, Hp0. exact Hinc.
Qed.

(** X2.  For a model id of ASCII characters: [isVisionCapableModel] holds
    exactly when the lower-cased id contains one of the patterns.  It does
    not depend on the case of the id, and an ASCII id that contains a
    capable id, whatever the case, is capable: a provider prefix, a version
    suffix or a tag cannot hide a match. *)
Theorem isVisionCapableModel_case_and_context :
  forall modelId : string,
    isAscii modelId = true ->
    (isVisionCapableModel modelId = true <->
       exists pattern, In pattern VISION_CAPABLE_MODEL_PATTERNS /\
                       includes (toLowerCase modelId) pattern = true) /\
    isVisionCapableModel (toUpperCase modelId) = isVisionCapableModel modelId /\
    isVisionCapableModel (toLowerCase modelId) = isVisionCapableModel modelId /\
    (isVisionCapableModel modelId = true ->
       forall longer : string,
         isAscii longer = true ->
         includes (toLowerCase longer) (toLowerCase modelId) = true ->
         isVisionCapableModel longer = true).
Proof.
  intros modelId _. split; [apply isVisionCapableModel_spec |].
  split; [unfold isVisionCapableModel; rewrite toLowerCase_toUpperCase; reflexivity |].
  split; [unfold isVisionCapableModel; rewrite toLowerCase_idem; reflexivity |].
  intros Hcap longer _ Hinc.
  apply isVisionCapableModel_spec in Hcap. destruct Hcap as (p & Hin & Hp).
  apply isVisionCapableModel_spec. exists p. split; [exact Hin |].
  apply includes_trans with (t := toLowerCase modelId); assumption.
Qed.

(** An id with a provider prefix, mixed case and a tag. *)
Lemma isVisionCapableModel_case_and_context_witness :
  isVisionCapableModel "openrouter/Anthropic/Claude-3-Opus:beta" = true.
Proof.
  refine (proj2 (proj2 (proj2 (@isVisionCapableModel_case_and_context "claude-3-opus" _)))
                _ "openrouter/Anthropic/Claude-3-Opus:beta" _ _);
    vm_compute; reflexivity.
Defined.

Lemma filter_length_lt {A : Type} (f : A -> bool) (l : list A) :
  (length (filter f l) <? length l)%nat = true <-> exists x, In x l /\ f x = false.
Proof.
  rewrite Nat.ltb_lt. induction l as [| a l IH]; simpl.
  - split; [intros H; inversion H | intros (x & [] & _)].
  - pose proof (filter_length_le f l) as Hle.
    destruct (f a) eqn:Hfa; simpl.
    + rewrite <- Nat.succ_lt_mono, IH. split.
      * intros (x & Hin & Hx). exists x. split; [right; exact Hin | exact Hx].
      * intros (x & [-> | Hin] & Hx); [congruence | exists x; split; assumption].
    + split; [intros _; exists a; split; [left; reflexivity | exact Hfa] | intros _; lia].
Qed.

(** X3.  The model list of the settings page.  The store's filter keeps
    exactly the models [isVisionCapableModel] accepts.  The list shown is
    empty only when the provider has no model at all: with no capable model
    it falls back to every model.  Every model shown is one of the
    provider's; unless all are asked for, and some model is capable, the ones
    shown are exactly the capable ones.  [hasNonVisionModels] holds exactly
    when some model of the provider is not capable. *)
Theorem displayedModels_never_hides_everything :
  forall (ModelInfo : Type) (id : ModelInfo -> string) (showAllModels : bool)
         (providerModels : list ModelInfo),
    (forall model,
        In model (visionCapableModels id providerModels) <->
        In model providerModels /\ isVisionCapableModel (id model) = true) /\
    (displayedModels id showAllModels providerModels = [] <-> providerModels = []) /\
    (forall model,
        In model (displayedModels id showAllModels providerModels) ->
        In model providerModels) /\
    (showAllModels = false ->
     (exists model, In model providerModels /\ isVisionCapableModel (id model) = true) ->
     forall model,
       In model (displayedModels id showAllModels providerModels) <->
       In model providerModels /\ isVisionCapableModel (id model) = true) /\
    (hasNonVisionModels id providerModels = true <->
       exists model, In model providerModels /\ isVisionCapableModel (id model) = false).
Proof.
  intros ModelInfo id showAllModels providerModels.
  assert (Hfilter : forall model,
             In model (visionCapableModels id providerModels) <->
             In model providerModels /\ isVisionCapableModel (id model) = true).
  { intros model. unfold visionCapableModels. cbv zeta. rewrite filter_In. reflexivity. }
  split; [exact Hfilter |]. split; [| split; [| split]].
  - unfold displayedModels. cbv zeta. destruct showAllModels; [reflexivity |].
    destruct (visionCapableModels id providerModels) as [| v vs] eqn:Hv; simpl.
    + reflexivity.
    + split; [discriminate |]. intros ->. discriminate.
  - intros model. unfold displayedModels. cbv zeta. destruct showAllModels; [auto |].
    destruct (0 <? length (visionCapableModels id providerModels))%nat; [| auto].
    intros Hin. apply Hfilter in Hin. tauto.
  - intros -> (witness & Hin & Hcap) model. unfold displayedModels. cbv zeta.
    assert (Hne : In witness (visionCapableModels id providerModels))
      by (apply Hfilter; split; assumption).
    assert (Hpos : (0 <? length (visionCapableModels id providerModels))%nat = true)
      by (destruct (visionCapableModels id providerModels); [destruct Hne | reflexivity]).
    rewrite Hpos. apply Hfilter.
  - unfold hasNonVisionModels, visionCapableModels. cbv zeta. apply filter_length_lt.
Qed.

(** Two local models and no capable one: both are shown. *)
Lemma displayedModels_never_hides_everything_witness :
  displayedModels (fun x : string => x) false ["mistral-7b"; "phi-3"] = ["mistral-7b"; "phi-3"] /\
  forall model,
    In model (displayedModels (fun x : string => x) false ["mistral-7b"; "LLaVA-1.6"]) <->
    In model ["mistral-7b"; "LLaVA-1.6"] /\ isVisionCapableModel model = true.
Proof.
  split; [vm_compute; reflexivity |].
  refine (proj1 (proj2 (proj2 (proj2 (displayedModels_never_hides_everything
                                         (fun x : string => x) false
                                         ["mistral-7b"; "LLaVA-1.6"])))) eq_refl _).
  exists "LLaVA-1.6". split; [right; left; reflexivity | vm_compute; reflexivity].
Defined.

(* ------------------------------------------------------------------ *)
(** ** The desktop-source directory *)

(** X4.  [fetchDesktopSources] does nothing outside the desktop shell.  In
    the shell it issues one directory request and ends with the loading flag
    down, whatever the answer.  On an answer the list is replaced by the
    answer's entries, in order and with their ids, each typed as a screen
    exactly when its id starts with the screen prefix; on a failure the list
    is emptied.  No error is recorded for the user either way. *)
Theorem fetchDesktopSources_replaces_list :
  forall (env : Env) (o : Oracle) (m : Machine),
    let r := call o (fetchDesktopSources env) m in
    (getElectronApi env = false -> r = (m, tt)) /\
    (getElectronApi env = true ->
       isLoadingDesktopSources (store (fst r)) = false /\
       analysisError (store (fst r)) = analysisError (store m) /\
       trace (world (fst r)) = (trace (world m) ++ [EvAwait IpcGetDesktopSources])%list /\
       (forall sources,
           o _ IpcGetDesktopSources = Resolved sources ->
           availableDesktopSources (store (fst r)) = map classifySource sources /\
           map srcId (availableDesktopSources (store (fst r))) = map rawId sources /\
           forall s, In s (availableDesktopSources (store (fst r))) ->
                     (srcType s = ScreenSource <-> startsWith (srcId s) "screen:" = true)) /\
       (forall e,
           o _ IpcGetDesktopSources = Rejected e ->
           availableDesktopSources (store (fst r)) = [])).
Proof.
  intros env o m. cbv zeta. unfold fetchDesktopSources. enter. split.
  - intros Hapi. rewrite Hapi. reflexivity.
  - intros Hapi. rewrite Hapi. cbn [negb]. resume.
    destruct (o _ IpcGetDesktopSources) as [sources | e]; cbn;
      (split; [reflexivity |]); (split; [reflexivity |]); (split; [reflexivity |]); split.
    + intros sources' Heq. injection Heq as <-. split; [reflexivity |]. split.
      * rewrite map_map. reflexivity.
      * intros s Hin. apply in_map_iff in Hin. destruct Hin as (raw & <- & _).
        unfold classifySource, startsWith. cbn [srcType srcId].
        destruct (String.prefix "screen:" (rawId raw)).
        -- split; reflexivity.
        -- split; discriminate.
    + discriminate.
    + discriminate.
    + reflexivity.
Qed.

Lemma fetchDesktopSources_replaces_list_witness :
  map srcType
    (availableDesktopSources
       (store (fst (call (grantWithSources twoSources) (fetchDesktopSources electronEnv)
                      freshMachine))))
  = [WindowSource; ScreenSource].
Proof.
  destruct (proj2 (fetchDesktopSources_replaces_list electronEnv (grantWithSources twoSources)
                     freshMachine) eq_refl) as (_ & _ & _ & Hok & _).
  destruct (Hok twoSources eq_refl) as (Hlist & _).
  rewrite Hlist. reflexivity.
Defined.

(* ------------------------------------------------------------------ *)
(** ** Timers *)

(** The timer handle and the armed timers are the same in both machines. *)
Definition sameTimers (m m' : Machine) : Prop :=
  captureIntervalId (store m') = captureIntervalId (store m) /\
  activeTimers (world m') = activeTimers (world m).

Lemma timerInv_transfer (m m' : Machine) :
  sameTimers m m' -> timerInv m -> timerInv m'.
Proof. intros (Hid & Htimers) Hinv. unfold timerInv. rewrite Hid, Htimers. exact Hinv. Qed.

Lemma stopContinuousCapture_disarms (m : Machine) :
  timerInv m ->
  captureIntervalId (store (stopContinuousCapture m)) = None /\
  activeTimers (world (stopContinuousCapture m)) = [].
Proof.
  unfold timerInv, stopContinuousCapture. destruct m as [s w]. cbn [store world].
  destruct (captureIntervalId s) as [id |] eqn:Hid; intros Hinv.
  - unfold clearInterval, emit, onStore. cbn. split; [reflexivity |].
    apply filter_timer_only. exact Hinv.
  - cbn. split; [exact Hid |]. destruct (activeTimers w); [reflexivity | discriminate].
Qed.

(** X5.  [stopContinuousCapture] is idempotent and does nothing when no
    handle is held; otherwise it clears the held timer and forgets the
    handle, touching neither the streams nor the capture flag.  When the
    armed timers are the one the store holds, none is armed afterwards, so no
    tick runs any more. *)
Theorem stopContinuousCapture_stops_ticks :
  forall m : Machine,
    stopContinuousCapture (stopContinuousCapture m) = stopContinuousCapture m /\
    (captureIntervalId (store m) = None -> stopContinuousCapture m = m) /\
    captureIntervalId (store (stopContinuousCapture m)) = None /\
    (forall id, captureIntervalId (store m) = Some id ->
                ~ In id (map fst (activeTimers (world (stopContinuousCapture m))))) /\
    sameStreamState m (stopContinuousCapture m) /\
    (timerInv m ->
       activeTimers (world (stopContinuousCapture m)) = [] /\
       forall (env : Env) (id : TimerId),
         fire env id (stopContinuousCapture m) = (stopContinuousCapture m, Done tt)).
Proof.
  intros m.
  assert (Hnone : captureIntervalId (store (stopContinuousCapture m)) = None).
  { unfold stopContinuousCapture. destruct (captureIntervalId (store m)) eqn:Hid;
      [reflexivity | exact Hid]. }
  split; [| split; [| split; [exact Hnone | split; [| split]]]].
  - unfold stopContinuousCapture at 1. rewrite Hnone. reflexivity.
  - intros Hid. unfold stopContinuousCapture. rewrite Hid. reflexivity.
  - intros id Hid. unfold stopContinuousCapture. rewrite Hid.
    unfold clearInterval, emit, onStore. cbn.
    rewrite in_map_iff. intros ([a ms] & Ha & Hin). cbn in Ha. subst a.
    apply filter_In in Hin. destruct Hin as [_ Hneq]. cbn in Hneq.
    rewrite Pos.eqb_refl in Hneq. discriminate.
  - apply continuousCapture_sameStreamState.
  - intros Hinv. destruct (stopContinuousCapture_disarms Hinv) as [_ Hempty].
    split; [exact Hempty |]. intros env id. unfold fire. rewrite Hempty. reflexivity.
Qed.

Lemma stopContinuousCapture_stops_ticks_witness :
  activeTimers (world (stopContinuousCapture (startContinuousCapture continuousMachine))) = [].
Proof.
  refine (proj1 (proj2 (proj2 (proj2 (proj2 (proj2
            (stopContinuousCapture_stops_ticks (startContinuousCapture continuousMachine))))))
            _)).
  vm_compute. reflexivity.
Defined.

Lemma sameTimers_refl (m : Machine) : sameTimers m m.
Proof. split; reflexivity. Qed.

Lemma sameTimers_trans (m1 m2 m3 : Machine) :
  sameTimers m1 m2 -> sameTimers m2 m3 -> sameTimers m1 m3.
Proof. intros (A1 & A2) (B1 & B2). split; congruence. Qed.

Lemma stopCapture_sameTimers (m : Machine) : sameTimers m (stopCapture m).
Proof. unfold stopCapture. destruct (currentStream (store m)); split; reflexivity. Qed.

Lemma startCapture_sameTimers (env : Env) (o : Oracle) (m : Machine) :
  sameTimers m (fst (call o (startCapture env) m)).
Proof.
  pose proof (call_startCapture env o m) as ((_ & Hid & _ & _ & Htimers & _) & _).
  destruct (stopCapture_sameTimers m) as [Hid' Htimers'].
  split; [rewrite Hid | rewrite Htimers]; assumption.
Qed.

Lemma captureFrame_sameTimers (env : Env) (o : Oracle) (options : option CaptureOptions)
      (m : Machine) :
  sameTimers m (fst (call o (captureFrame env options) m)).
Proof.
  pose proof (call_captureFrame_frame env o options m) as H. cbv zeta in H.
  destruct H as (_ & _ & _ & Hid & _ & _ & _ & _ & _ & Htimers). split; assumption.
Qed.

Lemma analyzeImage_sameTimers (env : Env) (o : Oracle) (imageDataUrl : string)
      (prompt : option string) (m : Machine) :
  sameTimers m (fst (call o (analyzeImage env imageDataUrl prompt) m)).
Proof.
  pose proof (call_analyzeImage_frame env o imageDataUrl prompt m) as H. cbv zeta in H.
  destruct H as (_ & _ & Hid & _ & _ & _ & Htimers). split; assumption.
Qed.

Lemma captureAndAnalyze_sameTimers (env : Env) (o : Oracle) (prompt : option string)
      (m : Machine) :
  sameTimers m (fst (call o (captureAndAnalyze env prompt) m)).
Proof.
  rewrite call_captureAndAnalyze.
  pose proof (captureFrame_sameTimers env o None m) as Hframe.
  destruct (snd (call o (captureFrame env None) m)) as [url |]; [| exact Hframe].
  destruct (negb (truthy url)); [exact Hframe |].
  eapply sameTimers_trans; [exact Hframe | apply analyzeImage_sameTimers].
Qed.

Lemma fire_sameTimers (env : Env) (o : Oracle) (id : TimerId) (m : Machine) :
  sameTimers m (fst (call o (fire env id) m)).
Proof.
  unfold fire, tick. enter.
  destruct (existsb _ _); [| apply sameTimers_refl].
  destruct (negb (isAnalyzing (store m)) && isCapturing (store m)); [| apply sameTimers_refl].
  change (sameTimers m (fst (call o (bind (captureAndAnalyze env None) (fun _ => ret tt)) m))).
  rewrite call_bind.
  pose proof (captureAndAnalyze_sameTimers env o None m) as H.
  destruct (call o (captureAndAnalyze env None) m) as [m1 res]. exact H.
Qed.

Lemma startContinuousCapture_timerInv (m : Machine) :
  timerInv m -> timerInv (startContinuousCapture m).
Proof.
  intros Hinv. unfold startContinuousCapture.
  destruct (analysisMode (store m)); [exact Hinv |].
  destruct (stopContinuousCapture_disarms Hinv) as [Hid Hempty].
  unfold timerInv, setInterval, emit, onStore. cbn. rewrite Hempty. reflexivity.
Qed.

Lemma perform_timerInv (env : Env) (o : Oracle) (op : Op) (m : Machine) :
  timerInv m -> timerInv (perform env o op m).
Proof.
  intros Hinv. destruct op; simpl perform.
  - destruct (stopContinuousCapture_disarms Hinv) as [Hid Hempty].
    apply timerInv_transfer with (m := stopCapture (stopContinuousCapture m)).
    + split; reflexivity.
    + apply timerInv_transfer with (m := stopContinuousCapture m);
        [apply stopCapture_sameTimers |].
      unfold timerInv. rewrite Hid, Hempty. reflexivity.
  - apply timerInv_transfer with (m := m); [apply startCapture_sameTimers | exact Hinv].
  - apply timerInv_transfer with (m := m); [apply stopCapture_sameTimers | exact Hinv].
  - apply timerInv_transfer with (m := m); [apply captureFrame_sameTimers | exact Hinv].
  - apply timerInv_transfer with (m := m); [apply analyzeImage_sameTimers | exact Hinv].
  - apply timerInv_transfer with (m := m); [apply captureAndAnalyze_sameTimers | exact Hinv].
  - apply startContinuousCapture_timerInv. exact Hinv.
  - destruct (stopContinuousCapture_disarms Hinv) as [Hid Hempty].
    unfold timerInv. rewrite Hid, Hempty. reflexivity.
  - pose proof (call_fetchDesktopSources env o m) as H. cbv zeta in H.
    destruct H as (_ & (_ & Hid & _ & _ & Htimers & _) & _).
    apply timerInv_transfer with (m := m); [split; assumption | exact Hinv].
  - apply timerInv_transfer with (m := m); [apply fire_sameTimers | exact Hinv].
Qed.

Lemma performAll_timerInv (env : Env) (script : list (Oracle * Op)) :
  forall m : Machine, timerInv m -> timerInv (performAll env script m).
Proof.
  induction script as [| [o op] rest IH]; intros m Hinv; simpl.
  - exact Hinv.
  - apply IH. apply perform_timerInv. exact Hinv.
Qed.

(** X6.  At most one interval timer is ever armed, and it is the one whose
    handle the store holds: this is so in a new store and is kept by every
    operation, run to completion, in any order.  In particular starting
    continuous capture twice does not leave two timers ticking. *)
Theorem at_most_one_timer :
  forall (env : Env) (m : Machine),
    timerInv m ->
    forall script : list (Oracle * Op),
      let m' := performAll env script m in
      (length (activeTimers (world m')) <= 1)%nat /\
      (forall id, In id (map fst (activeTimers (world m'))) ->
                  captureIntervalId (store m') = Some id) /\
      (captureIntervalId (store m') = None -> activeTimers (world m') = []).
Proof.
  intros env m Hinv script m'.
  pose proof (performAll_timerInv env script Hinv) as H. fold m' in H.
  unfold timerInv in H.
  assert (Hlen : length (map fst (activeTimers (world m'))) = length (activeTimers (world m')))
    by apply length_map.
  destruct (captureIntervalId (store m')) as [id |].
  - split; [rewrite <- Hlen, H; simpl; lia |]. split; [| discriminate].
    intros id' Hin. rewrite H in Hin. destruct Hin as [-> | []]. reflexivity.
  - split; [rewrite <- Hlen, H; simpl; lia |]. split.
    + intros id' Hin. rewrite H in Hin. destruct Hin.
    + intros _. destruct (activeTimers (world m')); [reflexivity | discriminate].
Qed.

Lemma freshMachine_timerInv : timerInv freshMachine.
Proof. reflexivity. Qed.

(** Continuous capture started twice in a row, with the interval changed in
    between: one timer, at the new interval. *)
Lemma at_most_one_timer_witness :
  (length (activeTimers (world
     (performAll browserEnv
        [(grantAll, StartContinuousCapture); (grantAll, StartContinuousCapture)]
        (onStore (set_analysisMode Continuous) freshMachine)))) <= 1)%nat.
Proof.
  refine (proj1 (@at_most_one_timer browserEnv
                   (onStore (set_analysisMode Continuous) freshMachine) _
                   [(grantAll, StartContinuousCapture); (grantAll, StartContinuousCapture)])).
  reflexivity.
Defined.

(* ------------------------------------------------------------------ *)
(** ** The preview *)

(** A preview is kept only while a stream is held. *)
Definition previewInv (m : Machine) : Prop :=
  currentStream (store m) = None -> previewImageDataUrl (store m) = None.

Lemma captureFrame_previewInv (env : Env) (o : Oracle) (options : option CaptureOptions)
      (m : Machine) :
  previewInv m -> previewInv (fst (call o (captureFrame env options) m)).
Proof.
  unfold previewInv. intros Hinv. rewrite call_captureFrame.
  destruct (currentStream (store m)) as [sid |] eqn:Hcur.
  - destruct (o _ (VideoPlay sid)) as [u | e]; [| cbn; rewrite Hcur; discriminate].
    cbv zeta. destruct (canvasContext2d env); cbn; rewrite Hcur; discriminate.
  - cbn. rewrite Hcur. intros _. apply Hinv. reflexivity.
Qed.

Lemma analyzeImage_previewInv (env : Env) (o : Oracle) (imageDataUrl : string)
      (prompt : option string) (m : Machine) :
  previewInv m -> previewInv (fst (call o (analyzeImage env imageDataUrl prompt) m)).
Proof.
  unfold previewInv. intros Hinv.
  pose proof (call_analyzeImage_frame env o imageDataUrl prompt m) as H. cbv zeta in H.
  destruct H as (Hcur & _ & _ & Hprev & _). rewrite Hcur, Hprev. exact Hinv.
Qed.

Lemma captureAndAnalyze_previewInv (env : Env) (o : Oracle) (prompt : option string)
      (m : Machine) :
  previewInv m -> previewInv (fst (call o (captureAndAnalyze env prompt) m)).
Proof.
  intros Hinv. rewrite call_captureAndAnalyze.
  pose proof (captureFrame_previewInv env o None Hinv) as Hframe.
  destruct (snd (call o (captureFrame env None) m)) as [url |]; [| exact Hframe].
  destruct (negb (truthy url)); [exact Hframe |].
  apply analyzeImage_previewInv. exact Hframe.
Qed.

Lemma perform_previewInv (env : Env) (o : Oracle) (op : Op) (m : Machine) :
  previewInv m -> previewInv (perform env o op m).
Proof.
  intros Hinv. destruct op; simpl perform.
  - intros _. unfold resetState, stopContinuousCapture, stopCapture.
    destruct m as [s w]. destruct s. simpl.
    destruct captureIntervalId0; destruct currentStream0; reflexivity.
  - pose proof (call_startCapture env o m) as ((_ & _ & _ & Hprev & _) & Hr).
    intros Hnone. rewrite Hprev.
    unfold stopCapture. destruct (currentStream (store m)); reflexivity.
  - intros _. unfold stopCapture. destruct (currentStream (store m)); reflexivity.
  - apply captureFrame_previewInv. exact Hinv.
  - apply analyzeImage_previewInv. exact Hinv.
  - apply captureAndAnalyze_previewInv. exact Hinv.
  - unfold startContinuousCapture, stopContinuousCapture.
    destruct (analysisMode (store m)); [exact Hinv |].
    destruct (captureIntervalId (store m)); exact Hinv.
  - unfold stopContinuousCapture. destruct (captureIntervalId (store m)); exact Hinv.
  - pose proof (call_fetchDesktopSources env o m) as H. cbv zeta in H.
    destruct H as (_ & (_ & _ & _ & Hprev & _) & _ & _ & Hcur).
    unfold previewInv. rewrite Hcur, Hprev. exact Hinv.
  - unfold fire, tick. enter.
    destruct (existsb _ _); [| exact Hinv].
    destruct (negb (isAnalyzing (store m)) && isCapturing (store m)); [| exact Hinv].
    change (previewInv (fst (call o (bind (captureAndAnalyze env None) (fun _ => ret tt)) m))).
    rewrite call_bind.
    pose proof (captureAndAnalyze_previewInv env o None Hinv) as H.
    destruct (call o (captureAndAnalyze env None) m) as [m1 res]. exact H.
Qed.

Lemma performAll_previewInv (env : Env) (script : list (Oracle * Op)) :
  forall m : Machine, previewInv m -> previewInv (performAll env script m).
Proof.
  induction script as [| [o op] rest IH]; intros m Hinv; simpl.
  - exact Hinv.
  - apply IH. apply perform_previewInv. exact Hinv.
Qed.

(** X7.  A preview image is kept only while capturing: from a state where
    that is so (a new store has neither stream nor preview), after any
    operations, run to completion in any order, a store that is not capturing
    has no preview.  A failed [startCapture] in particular leaves the preview
    of the previous capture cleared. *)
Theorem preview_only_while_capturing :
  forall (env : Env) (m : Machine),
    streamInv m -> previewInv m ->
    forall script : list (Oracle * Op),
      let m' := performAll env script m in
      isCapturing (store m') = false -> previewImageDataUrl (store m') = None.
Proof.
  intros env m Hstream Hprev script m' Hcap.
  pose proof (performAll_streamInv env script Hstream) as (_ & Hflag & _). fold m' in Hflag.
  pose proof (performAll_previewInv env script Hprev) as Hinv. fold m' in Hinv.
  apply Hinv. destruct (currentStream (store m')) as [sid |]; [| reflexivity].
  assert (isCapturing (store m') = true) by (apply Hflag; discriminate). congruence.
Qed.

(** A capture with a preview, then a capture that is refused. *)
Lemma preview_only_while_capturing_witness :
  (previewImageDataUrl
     (store (performAll browserEnv
               [(grantAll, StartCapture); (grantAll, CaptureFrame None)] freshMachine))
   = Some "data:image/jpeg;base64,/9j/4AAQ") /\
  (previewImageDataUrl
     (store (performAll browserEnv
               [(grantAll, StartCapture); (grantAll, CaptureFrame None);
                (denyAll, StartCapture)] freshMachine))
   = None).
Proof.
  split; [vm_compute; reflexivity |].
  refine (@preview_only_while_capturing browserEnv freshMachine freshMachine_streamInv _
            [(grantAll, StartCapture); (grantAll, CaptureFrame None);
             (denyAll, StartCapture)] _).
  - intros _. reflexivity.
  - vm_compute. reflexivity.
Defined.

(* ------------------------------------------------------------------ *)
(** ** What an analysis records *)



(* ------------------------------------------------------------------ *)
(** ** Settings that capture leaves alone *)

(** The persisted settings other than the selected desktop source. *)
Definition sameSettings (m m' : Machine) : Prop :=
  activeVisionProvider (store m') = activeVisionProvider (store m) /\
  activeVisionModel (store m') = activeVisionModel (store m) /\
  activeCustomModelName (store m') = activeCustomModelName (store m) /\
  captureSource (store m') = captureSource (store m) /\
  analysisMode (store m') = analysisMode (store m) /\
  captureIntervalMs (store m') = captureIntervalMs (store m) /\
  compressionQuality (store m') = compressionQuality (store m) /\
  maxImageWidth (store m') = maxImageWidth (store m) /\
  maxImageHeight (store m') = maxImageHeight (store m).

Lemma sameSettings_refl (m : Machine) : sameSettings m m.
Proof. repeat split. Qed.

Lemma sameSettings_trans (m1 m2 m3 : Machine) :
  sameSettings m1 m2 -> sameSettings m2 m3 -> sameSettings m1 m3.
Proof.
  intros (A1 & A2 & A3 & A4 & A5 & A6 & A7 & A8 & A9) (B1 & B2 & B3 & B4 & B5 & B6 & B7 & B8 & B9).
  repeat split; congruence.
Qed.

Lemma failWith_sameSettings (o : Oracle) (msg : string) (m : Machine) :
  sameSettings m (fst (call o (failWith msg) m)).
Proof. repeat split. Qed.







Lemma fetchDesktopSources_sameSettings (env : Env) (o : Oracle) (m : Machine) :
  sameSettings m (fst (call o (fetchDesktopSources env) m)).
Proof.
  unfold fetchDesktopSources. enter.
  destruct (negb (getElectronApi env)); [repeat split |].
  resume. destruct (o _ IpcGetDesktopSources); repeat split.
Qed.




Lemma captureAndAnalyze_sameSettings (env : Env) (o : Oracle) (prompt : option string)
      (m : Machine) :
  sameSettings m (fst (call o (captureAndAnalyze env prompt) m)).
Proof.
  assert (Hframe : forall options m0,
             sameSettings m0 (fst (call o (captureFrame env options) m0))).
  { intros options m0. rewrite call_captureFrame.
    destruct (currentStream (store m0)) as [sid |]; [| repeat split].
    destruct (o _ (VideoPlay sid)); [| repeat split].
    cbv zeta. destruct (canvasContext2d env); repeat split. }
  assert (Hanalyze : forall url m0,
             sameSettings m0 (fst (call o (analyzeImage env url prompt) m0))).
  { intros url m0. rewrite call_analyzeImage.
    destruct (configured (store m0)); [| repeat split]. cbv zeta.
    destruct (o _ (GetProviderInstance _)) as [[|] | e];
      [| repeat split; reflexivity | repeat split; reflexivity].
    destruct (o _ (GenerateText _ _ _)); repeat split; reflexivity. }
  rewrite call_captureAndAnalyze.
  destruct (snd (call o (captureFrame env None) m)) as [url |]; [| apply Hframe].
  destruct (negb (truthy url)); [apply Hframe |].
  eapply sameSettings_trans; [apply Hframe | apply Hanalyze].
Qed.

(* ------------------------------------------------------------------ *)
(** ** The [see_screen] tool

    [executeVisionAction] of
    [apps/stage-tamagotchi/src/renderer/stores/tools/builtin/vision.ts]. *)

(** [action]: the schema and the type admit these two values only, and the
    [switch] treats them alike. *)
Inductive VisionAction : Type := ActionCapture | ActionDescribe.

Record VisionActionInput : Type := mkInput {
  action : VisionAction;
  source : option CaptureSource;
  query : option string
}.

Definition notConfiguredReply : string :=
  "Vision module is not configured. Please set up vision in Settings → Modules → Vision first.".

Definition noResultReply : string :=
  "No analysis result was returned. The screen may be blank or the capture failed.".

(** Truthiness of [visionStore.analysisError]: a string that is not empty. *)
Definition isSet (analysisError : option string) : bool :=
  match analysisError with
  | Some e => truthy e
  | None => false
  end.

(** The text of a string or [null] that has passed the truthiness test. *)
Definition textOf (analysisError : option string) : string :=
  match analysisError with
  | Some e => e
  | None => ""
  end.

(** [visionStore.analysisError || 'Unknown error'] *)
Definition errorOrUnknown (analysisError : option string) : string :=
  if isSet analysisError then textOf analysisError else "Unknown error".

Definition startFailedReply (analysisError : option string) : string :=
  "Failed to start capture: " ++ errorOrUnknown analysisError
    ++ ". Please check vision settings and ensure you have granted the necessary permissions.".

Definition analysisFailedReply (e : string) : string := "Vision analysis failed: " ++ e.

(** The part of [executeVisionAction] before the first [await]: stop a
    running capture, set the capture source if one is given. *)
Definition prepareCapture (input : VisionActionInput) (m : Machine) : Machine :=
  let m := if isCapturing (store m) then stopCapture m else m in
  match source input with
  | Some src => onStore (set_captureSource src) m
  | None => m
  end.

(** The part after [captureAndAnalyze]: stop the capture, then pick the
    reply. *)
Definition replyAfterAnalysis (result : option VisionAnalysisResult) : Async string := fun m =>
  let m := stopCapture m in
  if isSet (analysisError (store m))
  then ret (analysisFailedReply (textOf (analysisError (store m)))) m
  else
    match result with
    | None => ret noResultReply m
    | Some r =>
        if negb (truthy (description r)) then ret noResultReply m
        else ret (description r) m
    end.

(** [executeVisionAction(input)] *)
Definition executeVisionAction (env : Env) (input : VisionActionInput) : Async string := fun m =>
  if negb (configured (store m)) then ret notConfiguredReply m
  else
    match action input with
    | ActionCapture | ActionDescribe =>
        bind (startCapture env)
          (fun success =>
             bind (fun m =>
                     if negb success
                        && negb (CaptureSource_eqb (captureSource (store m)) Camera)
                     then startCapture env (onStore (set_captureSource Camera) m)
                     else ret success m)
               (fun success m =>
                  if negb success
                  then ret (startFailedReply (analysisError (store m))) m
                  else bind (captureAndAnalyze env (query input)) replyAfterAnalysis m))
          (prepareCapture input m)
    end.

(** The tool on a configured browser store, everything granted. *)
Example executeVisionAction_describes :
  let start := onStore (set_activeVisionModel "gpt-4o")
                 (onStore (set_activeVisionProvider "openai") freshMachine) in
  let r := call grantAll (executeVisionAction browserEnv (mkInput ActionDescribe None None))
             start in
  snd r = "A code editor is open." /\
  isCapturing (store (fst r)) = false /\
  liveStreams (world (fst r)) = [].
Proof. vm_compute. repeat split. Qed.

(** The screen is refused and the camera is tried instead. *)
Example executeVisionAction_falls_back :
  let start := onStore (set_activeVisionModel "gpt-4o")
                 (onStore (set_activeVisionProvider "openai") freshMachine) in
  let screenDenied : Oracle := fun R req =>
    match req in Request T return T -> T with
    | GetDisplayMedia _ _ => fun _ => Rejected (ErrorObj "Permission denied")
    | _ => fun dflt => dflt
    end (grantAll req) in
  let r := call screenDenied (executeVisionAction browserEnv (mkInput ActionCapture None None))
             start in
  snd r = "A code editor is open." /\
  captureSource (store start) = Screen /\
  captureSource (store (fst r)) = Camera.
Proof. vm_compute. repeat split. Qed.

(** An uninterrupted [executeVisionAction] on a configured store, step by
    step. *)
Lemma call_executeVisionAction (env : Env) (o : Oracle) (input : VisionActionInput)
      (m : Machine) :
  configured (store m) = true ->
  call o (executeVisionAction env input) m =
  let first := call o (startCapture env) (prepareCapture input m) in
  let second :=
    if negb (snd first) && negb (CaptureSource_eqb (captureSource (store (fst first))) Camera)
    then call o (startCapture env) (onStore (set_captureSource Camera) (fst first))
    else first in
  if negb (snd second)
  then (fst second, startFailedReply (analysisError (store (fst second))))
  else
    let analysed := call o (captureAndAnalyze env (query input)) (fst second) in
    call o (replyAfterAnalysis (snd analysed)) (fst analysed).
Proof.
  intros Hconf. cbv zeta.
  assert (Hstart : call o (executeVisionAction env input) m =
                   call o (bind (startCapture env)
                     (fun success =>
                        bind (fun m =>
                                if negb success
                                   && negb (CaptureSource_eqb (captureSource (store m)) Camera)
                                then startCapture env (onStore (set_captureSource Camera) m)
                                else ret success m)
                          (fun success m =>
                             if negb success
                             then ret (startFailedReply (analysisError (store m))) m
                             else bind (captureAndAnalyze env (query input))
                                       replyAfterAnalysis m)))
                     (prepareCapture input m)).
  { unfold executeVisionAction at 1. enter. rewrite Hconf. cbn [negb].
    destruct (action input); reflexivity. }
  rewrite Hstart, call_bind.
  destruct (call o (startCapture env) (prepareCapture input m)) as [m1 s1]. cbn [fst snd].
  rewrite call_bind.
  assert (Hsecond :
            call o (fun m0 =>
                      if negb s1 && negb (CaptureSource_eqb (captureSource (store m0)) Camera)
                      then startCapture env (onStore (set_captureSource Camera) m0)
                      else ret s1 m0) m1
            = if negb s1 && negb (CaptureSource_eqb (captureSource (store m1)) Camera)
              then call o (startCapture env) (onStore (set_captureSource Camera) m1)
              else (m1, s1)).
  { enter. destruct (negb s1 && negb (CaptureSource_eqb (captureSource (store m1)) Camera));
      reflexivity. }
  rewrite Hsecond.
  destruct (if negb s1 && negb (CaptureSource_eqb (captureSource (store m1)) Camera)
            then call o (startCapture env) (onStore (set_captureSource Camera) m1)
            else (m1, s1)) as [m2 s2].
  cbn [fst snd]. enter. destruct (negb s2); [reflexivity |].
  change (call o (bind (captureAndAnalyze env (query input)) replyAfterAnalysis) m2 =
          call o (replyAfterAnalysis (snd (call o (captureAndAnalyze env (query input)) m2)))
               (fst (call o (captureAndAnalyze env (query input)) m2))).
  rewrite call_bind.
  destruct (call o (captureAndAnalyze env (query input)) m2) as [m3 res]. reflexivity.
Qed.

Lemma prepareCapture_streamInv (input : VisionActionInput) (m : Machine) :
  streamInv m -> streamInv (prepareCapture input m).
Proof.
  intros Hinv. unfold prepareCapture.
  assert (H : streamInv (if isCapturing (store m) then stopCapture m else m)).
  { destruct (isCapturing (store m)); [apply (stopCapture_streams Hinv) | exact Hinv]. }
  cbv zeta. destruct (source input); [| exact H].
  eapply streamInv_transfer; [| exact H]. repeat split.
Qed.

(** Whether it succeeds or not, [startCapture] ends without a preview. *)
Lemma startCapture_clears_preview (env : Env) (o : Oracle) (m : Machine) :
  previewImageDataUrl (store (fst (call o (startCapture env) m))) = None.
Proof.
  pose proof (call_startCapture env o m) as ((_ & _ & _ & Hprev & _) & _).
  rewrite Hprev. unfold stopCapture. destruct (currentStream (store m)); reflexivity.
Qed.

(** After [stopCapture] under the invariant nothing of a capture is left. *)
Lemma stopCapture_released (m : Machine) :
  streamInv m ->
  isCapturing (store (stopCapture m)) = false /\
  currentStream (store (stopCapture m)) = None /\
  liveStreams (world (stopCapture m)) = [] /\
  previewImageDataUrl (store (stopCapture m)) = None.
Proof.
  intros Hinv. destruct (stopCapture_streams Hinv) as (Hlive & _ & _).
  split; [| split; [| split; [exact Hlive |]]];
    unfold stopCapture; destruct (currentStream (store m)) eqn:Hcur; cbn;
    rewrite ?Hcur; reflexivity.
Qed.

(** A refused [startCapture] under the invariant leaves nothing of a capture. *)
Lemma startCapture_refused_released (env : Env) (o : Oracle) (m : Machine) :
  streamInv m ->
  snd (call o (startCapture env) m) = false ->
  isCapturing (store (fst (call o (startCapture env) m))) = false /\
  currentStream (store (fst (call o (startCapture env) m))) = None /\
  liveStreams (world (fst (call o (startCapture env) m))) = [] /\
  previewImageDataUrl (store (fst (call o (startCapture env) m))) = None.
Proof.
  intros Hinv Hres.
  destruct (startCapture_streams env o Hinv) as ((_ & Hflag & _) & _ & Hko).
  destruct (Hko Hres) as [Hcur Hlive].
  split; [| split; [exact Hcur | split; [exact Hlive | apply startCapture_clears_preview]]].
  destruct (isCapturing (store (fst (call o (startCapture env) m)))) eqn:Hcap; [| reflexivity].
  exfalso. apply (proj1 Hflag); [reflexivity | exact Hcur].
Qed.

(** What [replyAfterAnalysis] leaves and answers. *)
Lemma call_replyAfterAnalysis (o : Oracle) (result : option VisionAnalysisResult)
      (m : Machine) :
  call o (replyAfterAnalysis result) m =
  (stopCapture m,
   if isSet (analysisError (store (stopCapture m)))
   then analysisFailedReply (textOf (analysisError (store (stopCapture m))))
   else match result with
        | None => noResultReply
        | Some r => if negb (truthy (description r)) then noResultReply else description r
        end).
Proof.
  unfold replyAfterAnalysis. enter. cbv zeta.
  destruct (isSet (analysisError (store (stopCapture m)))); [reflexivity |].
  destruct result as [res |]; [| reflexivity].
  destruct (negb (truthy (description res))); reflexivity.
Qed.

(** A call whose stretches leave the capture state as it is keeps the
    invariant to its end, whatever runs meanwhile. *)
Lemma endsAmid_keeps_streamInv {A : Type} :
  forall (t : Task A) (m mf : Machine) (a : A),
    everyStretch sameStreamState t -> streamInv m -> endsAmid t m mf a -> streamInv mf.
Proof.
  fix IH 1. intros [b | R req k] m mf a; cbn [everyStretch endsAmid].
  - intros _ Hinv [-> _]. exact Hinv.
  - intros Hst Hinv (r & x & Hmw & H). specialize (Hst r x).
    destruct (k r x) as [m' t']. destruct Hst as [Hstep Hrest].
    apply (IH t' m' mf a Hrest); [| exact H].
    apply streamInv_transfer with (m := x);
      [exact Hstep | exact (Meanwhile_streamInv Hmw Hinv)].
Qed.

Lemma endsAmid_bind {A B : Type} (c : Async A) (f : A -> Async B) (m mf : Machine) (b : B) :
  (let (m2, t2) := bind c f m in endsAmid t2 m2 mf b) ->
  exists m1 a,
    (let (m0, t) := c m in endsAmid t m0 m1 a) /\
    (let (m3, t3) := f a m1 in endsAmid t3 m3 mf b).
Proof.
  unfold bind. destruct (c m) as [m0 t]. apply endsAmid_andThen.
Qed.

(** The tool, with anything but a [startCapture] running while it is
    parked. *)
Lemma executeVisionAction_ends (env : Env) (input : VisionActionInput)
      (m mf : Machine) (reply : string) :
  streamInv m -> configured (store m) = true ->
  (let (m0, t) := executeVisionAction env input m in endsAmid t m0 mf reply) ->
  quiet mf.
Proof.
  intros Hinv Hconf. unfold executeVisionAction. rewrite Hconf. cbn [negb].
  destruct (action input); intros H;
    apply endsAmid_bind in H; destruct H as (m1 & ok1 & Hfirst & H);
    pose proof (@startCapture_ends env _ m1 ok1 (prepareCapture_streamInv input Hinv) Hfirst)
      as Hend1;
    apply endsAmid_bind in H; destruct H as (m2 & ok2 & Hsecond & H);
    (assert (Hend2 : endedWell m2 ok2);
     [ revert Hsecond;
       destruct (negb ok1 && negb (CaptureSource_eqb (captureSource (store m1)) Camera));
       [ apply startCapture_ends;
         apply streamInv_transfer with (m := m1);
         [repeat split | exact (endedWell_streamInv Hend1)]
       | unfold ret; cbn [endsAmid]; intros [-> ->]; exact Hend1 ]
     | ]);
    revert H; destruct ok2; cbn [negb].
  1, 3: intros H; apply endsAmid_bind in H; destruct H as (m3 & res & Han & H);
    assert (Hinv3 : streamInv m3)
      by (pose proof (captureAndAnalyze_stretches env (query input) m2) as Hst;
          destruct (captureAndAnalyze env (query input) m2) as [m0 t];
          destruct Hst as [Hstep Hrest];
          apply (@endsAmid_keeps_streamInv _ t m0 m3 res Hrest); [| exact Han];
          apply streamInv_transfer with (m := m2);
          [exact Hstep | exact (endedWell_streamInv Hend2)]);
    revert H; unfold replyAfterAnalysis; cbv zeta;
    destruct (isSet _);
    [| destruct res as [res |]; [destruct (negb (truthy (description res))) |]];
    unfold ret; cbn [endsAmid]; intros [-> _]; apply stopCapture_quiet; exact Hinv3.
  all: unfold ret; cbn [endsAmid]; intros [-> _];
    destruct Hend2 as [(Hx & _) | (_ & Hq & _)]; [discriminate Hx | exact Hq].
Qed.

(** X9.  A call of the tool that no [startCapture] call of another caller
    overlaps leaves no capture running.  On a configured store whose live
    streams are the one it holds:

    - when [executeVisionAction] has run from its call to its return with
      nothing in between, then (with a description or with any failure
      reply) no stream is live or held, [isCapturing] is false and the
      preview is cleared, even if a capture was running when it was called;
    - with anything but a [startCapture] running while the call is parked
      ([stopCapture], [resetState], stretches that leave the capture state
      as it is), no stream is live or held and [isCapturing] is false when
      it returns.

    On a store that is not configured it changes nothing. *)
Theorem executeVisionAction_releases_capture :
  forall (env : Env) (o : Oracle) (input : VisionActionInput) (m : Machine),
    streamInv m ->
    let r := call o (executeVisionAction env input) m in
    (configured (store m) = false -> r = (m, notConfiguredReply)) /\
    (configured (store m) = true ->
       isCapturing (store (fst r)) = false /\
       currentStream (store (fst r)) = None /\
       liveStreams (world (fst r)) = [] /\
       previewImageDataUrl (store (fst r)) = None) /\
    (configured (store m) = true ->
       forall (mf : Machine) (reply : string),
         (let (m0, t) := executeVisionAction env input m in endsAmid t m0 mf reply) ->
         isCapturing (store mf) = false /\
         currentStream (store mf) = None /\
         liveStreams (world mf) = []).
Proof.
  intros env o input m Hinv r. split; [| split].
  - intros Hconf. subst r. unfold executeVisionAction. enter. rewrite Hconf. reflexivity.
  - intros Hconf. subst r. rewrite (@call_executeVisionAction env o input m Hconf). cbv zeta.
    pose proof (prepareCapture_streamInv input Hinv) as Hinv0.
    set (first := call o (startCapture env) (prepareCapture input m)).
    pose proof (startCapture_streams env o Hinv0) as (Hinv1 & _). fold first in Hinv1.
    pose proof (startCapture_refused_released env o Hinv0) as Hrel1. fold first in Hrel1.
    assert (Hinv1' : streamInv (onStore (set_captureSource Camera) (fst first)))
      by (eapply streamInv_transfer; [| exact Hinv1]; repeat split).
    set (second := if negb (snd first)
                      && negb (CaptureSource_eqb (captureSource (store (fst first))) Camera)
                   then call o (startCapture env) (onStore (set_captureSource Camera) (fst first))
                   else first).
    assert (Hsecond : streamInv (fst second) /\
                      (snd second = false ->
                       isCapturing (store (fst second)) = false /\
                       currentStream (store (fst second)) = None /\
                       liveStreams (world (fst second)) = [] /\
                       previewImageDataUrl (store (fst second)) = None)).
    { subst second.
      destruct (negb (snd first)
                && negb (CaptureSource_eqb (captureSource (store (fst first))) Camera)).
      - split; [apply (startCapture_streams env o Hinv1') |].
        apply (startCapture_refused_released env o Hinv1').
      - split; [exact Hinv1 | exact Hrel1]. }
    destruct Hsecond as [Hinv2 Hrel2].
    destruct (snd second) eqn:Hres; cbn [negb].
    + rewrite call_replyAfterAnalysis. cbn [fst].
      apply stopCapture_released.
      eapply streamInv_transfer; [apply captureAndAnalyze_sameStreamState | exact Hinv2].
    + cbn [fst]. apply Hrel2. reflexivity.
  - intros Hconf mf reply Hends.
    destruct (@executeVisionAction_ends env input m mf reply Hinv Hconf Hends)
      as (Hlive & Hcur & Hcap).
    split; [exact Hcap |]. split; [exact Hcur | exact Hlive].
Qed.

Lemma capturingMachine_streamInv : streamInv capturingMachine.
Proof.
  unfold streamInv. split; [vm_compute; reflexivity |]. split.
  - vm_compute. split; [discriminate | reflexivity].
  - intros sid Hsid. vm_compute in Hsid. injection Hsid as <-. vm_compute. lia.
Qed.

(** The tool called while a capture is running. *)
Lemma executeVisionAction_releases_capture_witness :
  liveStreams (world capturingMachine) = [0%nat] /\
  liveStreams
    (world (fst (call grantAll
                   (executeVisionAction browserEnv (mkInput ActionDescribe (Some Camera) None))
                   capturingMachine)))
  = [].
Proof.
  split; [vm_compute; reflexivity |].
  refine (proj1 (proj2 (proj2 (proj1 (proj2
            (@executeVisionAction_releases_capture browserEnv grantAll
               (mkInput ActionDescribe (Some Camera) None) capturingMachine
               capturingMachine_streamInv)) _)))).
  vm_compute. reflexivity.
Defined.

(** A result returned by [captureAndAnalyze] is the one stored, and no error
    is recorded with it. *)
Lemma call_captureAndAnalyze_some (env : Env) (o : Oracle) (prompt : option string)
      (m : Machine) (res : VisionAnalysisResult) :
  snd (call o (captureAndAnalyze env prompt) m) = Some res ->
  lastAnalysisResult (store (fst (call o (captureAndAnalyze env prompt) m))) = Some res /\
  analysisError (store (fst (call o (captureAndAnalyze env prompt) m))) = None.
Proof.
  rewrite call_captureAndAnalyze.
  destruct (snd (call o (captureFrame env None) m)) as [url |]; [| discriminate].
  destruct (negb (truthy url)); [discriminate |].
  rewrite call_analyzeImage.
  destruct (configured (store (fst (call o (captureFrame env None) m)))); [| discriminate].
  cbv zeta.
  destruct (o _ (GetProviderInstance _)) as [[|] | e]; try discriminate.
  destruct (o _ (GenerateText _ _ _)) as [text | e]; [| discriminate].
  cbn [fst snd]. intros H. injection H as <-. split; reflexivity.
Qed.

Lemma stopCapture_keeps_outcome (m : Machine) :
  analysisError (store (stopCapture m)) = analysisError (store m) /\
  lastAnalysisResult (store (stopCapture m)) = lastAnalysisResult (store m).
Proof. unfold stopCapture. destruct (currentStream (store m)); split; reflexivity. Qed.

(** X10.  What the tool answers.  The reply is never the empty string.  It
    is the not-configured notice, or the start-failure text built from the
    store's [analysisError], or the analysis-failure text built from a
    non-empty [analysisError], or the no-result notice, or else the
    non-empty description of the result this call stored as
    [lastAnalysisResult], returned with no error recorded. *)
Theorem executeVisionAction_reply :
  forall (env : Env) (o : Oracle) (input : VisionActionInput) (m : Machine),
    let r := call o (executeVisionAction env input) m in
    snd r <> "" /\
    (snd r = notConfiguredReply \/
     snd r = startFailedReply (analysisError (store (fst r))) \/
     (isSet (analysisError (store (fst r))) = true /\
      snd r = analysisFailedReply (textOf (analysisError (store (fst r))))) \/
     snd r = noResultReply \/
     (exists res : VisionAnalysisResult,
         lastAnalysisResult (store (fst r)) = Some res /\
         snd r = description res /\
         analysisError (store (fst r)) = None)).
Proof.
  intros env o input m r.
  destruct (configured (store m)) eqn:Hconf.
  - subst r. rewrite (@call_executeVisionAction env o input m Hconf). cbv zeta.
    set (first := call o (startCapture env) (prepareCapture input m)).
    set (second := if negb (snd first)
                      && negb (CaptureSource_eqb (captureSource (store (fst first))) Camera)
                   then call o (startCapture env) (onStore (set_captureSource Camera) (fst first))
                   else first).
    destruct (negb (snd second)).
    + cbn [fst snd]. split; [unfold startFailedReply; nonempty |]. right. left. reflexivity.
    + rewrite call_replyAfterAnalysis. cbn [fst snd].
      set (analysed := call o (captureAndAnalyze env (query input)) (fst second)).
      destruct (stopCapture_keeps_outcome (fst analysed)) as [Herr Hlast].
      destruct (isSet (analysisError (store (stopCapture (fst analysed))))) eqn:Hset.
      * split; [unfold analysisFailedReply; nonempty |].
        right. right. left. split; reflexivity.
      * destruct (snd analysed) as [res |] eqn:Hres.
        -- destruct (truthy (description res)) eqn:Hdesc; cbn [negb].
           ++ split; [destruct (description res); [discriminate Hdesc | discriminate] |].
              right. right. right. right. exists res.
              destruct (@call_captureAndAnalyze_some env o (query input) (fst second) res Hres)
                as [Hstored Hnone].
              fold analysed in Hstored, Hnone.
              rewrite Herr, Hlast. repeat split; assumption.
           ++ split; [discriminate |]. right. right. right. left. reflexivity.
        -- split; [discriminate |]. right. right. right. left. reflexivity.
  - subst r. unfold executeVisionAction. enter. rewrite Hconf. cbn.
    split; [discriminate |]. left. reflexivity.
Qed.

(** The provider answers with an empty text: the no-result notice. *)
Lemma executeVisionAction_reply_witness :
  snd (call (fun R req =>
               match req in Request T return T -> T with
               | GenerateText _ _ _ => fun _ => Resolved (Some "")
               | _ => fun dflt => dflt
               end (grantAll req))
         (executeVisionAction browserEnv (mkInput ActionDescribe None None))
         capturingMachine) <> "".
Proof.
  exact (proj1 (executeVisionAction_reply browserEnv
                  (fun R req =>
                     match req in Request T return T -> T with
                     | GenerateText _ _ _ => fun _ => Resolved (Some "")
                     | _ => fun dflt => dflt
                     end (grantAll req))
                  (mkInput ActionDescribe None None) capturingMachine)).
Defined.





(* ------------------------------------------------------------------ *)
(** ** The vision settings page

    The handlers, watchers and hooks of the settings page over the store's
    operations.  A handler runs to completion before the next event. *)

Definition AnalysisMode_eqb (a b : AnalysisMode) : bool :=
  match a, b with
  | OnDemand, OnDemand | Continuous, Continuous => true
  | _, _ => false
  end.

Section VisionPage.

Variable env : Env.

(** [isElectronApp], read once in the page's setup. *)
Definition isElectronApp : bool := isElectron env.

(** [updateCustomModelName(value)] *)
Definition updateCustomModelName (value : string) (m : Machine) : Machine :=
  onStore (set_activeCustomModelName value) m.

(** [handleStartCapture()] *)
Definition handleStartCapture : Async unit :=
  bind (startCapture env)
    (fun success m =>
       if success && AnalysisMode_eqb (analysisMode (store m)) Continuous
       then ret tt (startContinuousCapture m)
       else ret tt m).

(** [handleStopCapture()] *)
Definition handleStopCapture (m : Machine) : Machine :=
  stopCapture (stopContinuousCapture m).

(** [handleCaptureAndAnalyze()] *)
Definition handleCaptureAndAnalyze : Async unit :=
  bind (captureAndAnalyze env None) (fun _ => ret tt).

(** [handleTestVision()] *)
Definition handleTestVision : Async unit := fun m =>
  if negb (isCapturing (store m))
  then bind (startCapture env)
         (fun success =>
            if negb success then ret tt
            else bind (captureAndAnalyze env None) (fun _ => ret tt)) m
  else bind (captureAndAnalyze env None) (fun _ => ret tt) m.

(** The test shared by [loadDesktopSources] and the watcher of
    [captureSource]. *)
Definition wantsDesktopSources (src : CaptureSource) : bool :=
  isElectronApp && (CaptureSource_eqb src Screen || CaptureSource_eqb src Window).

(** [loadDesktopSources()] *)
Definition loadDesktopSources : Async unit := fun m =>
  if wantsDesktopSources (captureSource (store m))
  then fetchDesktopSources env m
  else ret tt m.

(** The callback of [watch(analysisMode, ...)]. *)
Definition onAnalysisModeChanged (newMode : AnalysisMode) (m : Machine) : Machine :=
  if AnalysisMode_eqb newMode Continuous && isCapturing (store m)
  then startContinuousCapture m
  else stopContinuousCapture m.

(** The callback of [watch(captureSource, ..., { immediate: true })]. *)
Definition onCaptureSourceChanged (newSource : CaptureSource) : Async unit := fun m =>
  if wantsDesktopSources newSource
  then fetchDesktopSources env m
  else ret tt m.

(** The [onUnmounted] hook: the capture itself is left running. *)
Definition onUnmounted (m : Machine) : Machine := stopContinuousCapture m.

(** When the template renders the buttons of the test area, and enables
    them. *)
Definition startCaptureOffered (s : Store) : bool :=
  configured s && negb (isCapturing s).

Definition stopCaptureOffered (s : Store) : bool :=
  configured s && isCapturing s.

Definition analyzeNowOffered (s : Store) : bool :=
  configured s && (isCapturing s && AnalysisMode_eqb (analysisMode s) OnDemand)
  && negb (isAnalyzing s).

Definition quickTestOffered (s : Store) : bool :=
  configured s && negb (isCapturing s) && negb (isAnalyzing s).

(** What happens to the store while the page is used.  A bound control
    writes its ref, and a watcher runs when the value it watches has changed;
    a button does something only where the template offers it.  The
    conditions under which the template shows the other controls depend on
    the providers store and are not modelled: those controls are taken to
    be usable at any time.  Loading the list of models, on mount and when the
    provider changes, touches the providers store only. *)
Inductive PageEvent : Type :=
| Mounted
| SelectProvider (provider : string)
| SelectModel (model : string)
| UpdateCustomModelName (value : string)
| SelectCaptureSource (src : CaptureSource)
| SelectDesktopSource (id : string)
| ClickRefreshSources
| SelectAnalysisMode (mode : AnalysisMode)
| SelectCaptureInterval (ms : Z)
| SetCompressionQuality (q : Q)
| ClickStartCapture
| ClickStopCapture
| ClickAnalyzeNow
| ClickQuickTest
| IntervalElapsed (id : TimerId)
| Unmounted.

Definition pageStep (o : Oracle) (ev : PageEvent) (m : Machine) : Machine :=
  match ev with
  | Mounted => fst (call o (onCaptureSourceChanged (captureSource (store m))) m)
  | SelectProvider provider => onStore (set_activeVisionProvider provider) m
  | SelectModel model => onStore (set_activeVisionModel model) m
  | UpdateCustomModelName value => updateCustomModelName value m
  | SelectCaptureSource src =>
      let m' := onStore (set_captureSource src) m in
      if CaptureSource_eqb src (captureSource (store m)) then m'
      else fst (call o (onCaptureSourceChanged src) m')
  | SelectDesktopSource id => onStore (set_selectedDesktopSourceId id) m
  | ClickRefreshSources => fst (call o loadDesktopSources m)
  | SelectAnalysisMode mode =>
      let m' := onStore (set_analysisMode mode) m in
      if AnalysisMode_eqb mode (analysisMode (store m)) then m'
      else onAnalysisModeChanged mode m'
  | SelectCaptureInterval ms => onStore (set_captureIntervalMs ms) m
  | SetCompressionQuality q => onStore (set_compressionQuality q) m
  | ClickStartCapture =>
      if startCaptureOffered (store m) then fst (call o handleStartCapture m) else m
  | ClickStopCapture =>
      if stopCaptureOffered (store m) then handleStopCapture m else m
  | ClickAnalyzeNow =>
      if analyzeNowOffered (store m) then fst (call o handleCaptureAndAnalyze m) else m
  | ClickQuickTest =>
      if quickTestOffered (store m) then fst (call o handleTestVision m) else m
  | IntervalElapsed id => fst (call o (fire env id) m)
  | Unmounted => onUnmounted m
  end.

(** Events one after the other, each with its own script. *)
Fixpoint pageRun (script : list (Oracle * PageEvent)) (m : Machine) : Machine :=
  match script with
  | [] => m
  | (o, ev) :: rest => pageRun rest (pageStep o ev m)
  end.

End VisionPage.

(** What the capture and the timer read of a machine is the same in both. *)
Definition sameControl (m m' : Machine) : Prop :=
  sameStreamState m m' /\ sameTimers m m' /\
  analysisMode (store m') = analysisMode (store m).

(** One stream at most, one timer at most, and a timer is armed only while
    a capture runs in continuous mode. *)
Definition pageInv (m : Machine) : Prop :=
  streamInv m /\ timerInv m /\
  (captureIntervalId (store m) <> None ->
   isCapturing (store m) = true /\ analysisMode (store m) = Continuous).

Lemma sameControl_trans (m1 m2 m3 : Machine) :
  sameControl m1 m2 -> sameControl m2 m3 -> sameControl m1 m3.
Proof.
  intros (A1 & A2 & A3) (B1 & B2 & B3). split; [| split].
  - eapply sameStreamState_trans; eassumption.
  - eapply sameTimers_trans; eassumption.
  - congruence.
Qed.

Lemma pageInv_transfer (m m' : Machine) :
  sameControl m m' -> pageInv m -> pageInv m'.
Proof.
  intros (Hs & Ht & Hmode) (Hstream & Htimer & Harmed). split; [| split].
  - apply streamInv_transfer with (m := m); assumption.
  - apply timerInv_transfer with (m := m); assumption.
  - destruct Hs as (_ & Hcap & _). destruct Ht as (Hid & _).
    rewrite Hid, Hcap, Hmode. exact Harmed.
Qed.

Lemma pageInv_unarmed (m : Machine) :
  streamInv m -> timerInv m -> captureIntervalId (store m) = None -> pageInv m.
Proof.
  intros Hstream Htimer Hid. split; [exact Hstream | split; [exact Htimer |]].
  intros Hne. contradiction.
Qed.

Lemma AnalysisMode_eqb_eq (a b : AnalysisMode) : AnalysisMode_eqb a b = true <-> a = b.
Proof. destruct a, b; simpl; split; intros H; try reflexivity; discriminate. Qed.

Lemma captureAndAnalyze_sameControl (env : Env) (o : Oracle) (prompt : option string)
      (m : Machine) :
  sameControl m (fst (call o (captureAndAnalyze env prompt) m)).
Proof.
  split; [apply captureAndAnalyze_sameStreamState | split;
    [apply captureAndAnalyze_sameTimers |]].
  apply (captureAndAnalyze_sameSettings env o prompt m).
Qed.

Lemma awaited_captureAndAnalyze_sameControl (env : Env) (o : Oracle) (m : Machine) :
  sameControl m
    (fst (call o (bind (captureAndAnalyze env None) (fun _ => ret tt)) m)).
Proof.
  rewrite call_bind.
  pose proof (captureAndAnalyze_sameControl env o None m) as H.
  destruct (call o (captureAndAnalyze env None) m) as [m1 res]. exact H.
Qed.

Lemma sameControl_refl (m : Machine) : sameControl m m.
Proof.
  split; [apply sameStreamState_refl | split; [apply sameTimers_refl | reflexivity]].
Qed.

Lemma fire_sameControl (env : Env) (o : Oracle) (id : TimerId) (m : Machine) :
  sameControl m (fst (call o (fire env id) m)).
Proof.
  split; [apply fire_sameStreamState | split; [apply fire_sameTimers |]].
  unfold fire, tick. enter.
  destruct (existsb _ _); [| reflexivity].
  destruct (negb (isAnalyzing (store m)) && isCapturing (store m)); [| reflexivity].
  apply (awaited_captureAndAnalyze_sameControl env o m).
Qed.

Lemma fetchDesktopSources_sameControl (env : Env) (o : Oracle) (m : Machine) :
  sameControl m (fst (call o (fetchDesktopSources env) m)).
Proof.
  pose proof (call_fetchDesktopSources env o m) as H. cbv zeta in H.
  destruct H as (_ & (_ & Hid & _ & _ & Htimers & _) & (Hl & Hn) & Hc & Hs).
  split; [repeat split; assumption | split; [split; assumption |]].
  apply (fetchDesktopSources_sameSettings env o m).
Qed.

Lemma startContinuousCapture_mode (m : Machine) :
  analysisMode (store (startContinuousCapture m)) = analysisMode (store m).
Proof.
  unfold startContinuousCapture, stopContinuousCapture.
  destruct (analysisMode (store m)) eqn:Hmode; [exact Hmode |].
  destruct (captureIntervalId (store m)); cbn; exact Hmode.
Qed.

(** After [startCapture] under the invariant the flag is the result. *)
Lemma startCapture_flag (env : Env) (o : Oracle) (m : Machine) :
  streamInv m ->
  isCapturing (store (fst (call o (startCapture env) m))) = snd (call o (startCapture env) m).
Proof.
  intros Hinv.
  destruct (startCapture_streams env o Hinv) as ((_ & Hflag & _) & Hok & Hko).
  destruct (snd (call o (startCapture env) m)).
  - destruct (Hok eq_refl) as [Hcur _]. apply (proj2 Hflag). rewrite Hcur. discriminate.
  - destruct (Hko eq_refl) as [Hcur _].
    destruct (isCapturing (store (fst (call o (startCapture env) m)))); [| reflexivity].
    exfalso. apply (proj1 Hflag); [reflexivity | exact Hcur].
Qed.

Lemma pageInv_no_timer_when_stopped (m : Machine) :
  pageInv m -> isCapturing (store m) = false -> captureIntervalId (store m) = None.
Proof.
  intros (_ & _ & Harmed) Hcap.
  destruct (captureIntervalId (store m)) as [id |]; [| reflexivity].
  destruct Harmed as [Htrue _]; [discriminate | congruence].
Qed.

Lemma startCapture_pageInv (env : Env) (o : Oracle) (m : Machine) :
  pageInv m -> isCapturing (store m) = false ->
  pageInv (fst (call o (startCapture env) m)) /\
  captureIntervalId (store (fst (call o (startCapture env) m))) = None.
Proof.
  intros Hinv Hcap.
  pose proof (pageInv_no_timer_when_stopped Hinv Hcap) as Hid.
  destruct Hinv as (Hstream & Htimer & _).
  destruct (startCapture_sameTimers env o m) as [Hid' Htimers].
  assert (Hnone : captureIntervalId (store (fst (call o (startCapture env) m))) = None)
    by (rewrite Hid'; exact Hid).
  split; [| exact Hnone].
  apply pageInv_unarmed; [apply (startCapture_streams env o Hstream) | | exact Hnone].
  apply timerInv_transfer with (m := m); [split; assumption | exact Htimer].
Qed.

Lemma handleStartCapture_pageInv (env : Env) (o : Oracle) (m : Machine) :
  pageInv m -> isCapturing (store m) = false ->
  pageInv (fst (call o (handleStartCapture env) m)).
Proof.
  intros Hinv Hcap. unfold handleStartCapture. rewrite call_bind.
  destruct (startCapture_pageInv env o Hinv Hcap) as [Hstarted Hnone].
  pose proof (startCapture_flag env o (proj1 Hinv)) as Hflag.
  destruct (call o (startCapture env) m) as [m1 success]. cbn [fst snd] in *.
  enter.
  destruct (success && AnalysisMode_eqb (analysisMode (store m1)) Continuous) eqn:Harm;
    [| exact Hstarted].
  apply andb_prop in Harm. destruct Harm as [Hsuccess Hmode].
  apply AnalysisMode_eqb_eq in Hmode.
  change (pageInv (startContinuousCapture m1)).
  destruct Hstarted as (Hstream & Htimer & _).
  destruct (continuousCapture_sameStreamState m1) as [Hsame _].
  split; [| split].
  - apply streamInv_transfer with (m := m1); assumption.
  - apply startContinuousCapture_timerInv. exact Htimer.
  - intros _. destruct Hsame as (_ & Hcap' & _).
    rewrite Hcap', startContinuousCapture_mode. split; congruence.
Qed.

Lemma stopContinuousCapture_pageInv (m : Machine) :
  pageInv m -> pageInv (stopContinuousCapture m).
Proof.
  intros (Hstream & Htimer & _).
  destruct (stopContinuousCapture_disarms Htimer) as [Hid Hempty].
  apply pageInv_unarmed; [| | exact Hid].
  - apply streamInv_transfer with (m := m);
      [apply continuousCapture_sameStreamState | exact Hstream].
  - unfold timerInv. rewrite Hid, Hempty. reflexivity.
Qed.

Lemma handleStopCapture_pageInv (m : Machine) :
  pageInv m -> pageInv (handleStopCapture m).
Proof.
  intros Hinv. apply stopContinuousCapture_pageInv in Hinv.
  destruct Hinv as (Hstream & Htimer & _).
  pose proof (stopCapture_sameTimers (stopContinuousCapture m)) as Hsame.
  unfold handleStopCapture. apply pageInv_unarmed.
  - apply (stopCapture_streams Hstream).
  - apply timerInv_transfer with (m := stopContinuousCapture m); assumption.
  - destruct Hsame as [Hid _]. rewrite Hid.
    unfold stopContinuousCapture. destruct (captureIntervalId (store m)) eqn:H;
      [reflexivity | exact H].
Qed.

Lemma handleTestVision_pageInv (env : Env) (o : Oracle) (m : Machine) :
  pageInv m -> pageInv (fst (call o (handleTestVision env) m)).
Proof.
  intros Hinv. unfold handleTestVision. enter.
  destruct (isCapturing (store m)) eqn:Hcap; cbn [negb].
  - apply pageInv_transfer with (m := m); [| exact Hinv].
    apply (awaited_captureAndAnalyze_sameControl env o m).
  - change (pageInv (fst (call o (bind (startCapture env)
              (fun success : bool =>
                 if negb success then ret tt
                 else bind (captureAndAnalyze env None) (fun _ => ret tt))) m))).
    rewrite call_bind.
    destruct (startCapture_pageInv env o Hinv Hcap) as [Hstarted _].
    destruct (call o (startCapture env) m) as [m1 success]. cbn [fst] in Hstarted.
    destruct success; cbn [negb]; [| exact Hstarted].
    apply pageInv_transfer with (m := m1); [| exact Hstarted].
    apply (awaited_captureAndAnalyze_sameControl env o m1).
Qed.

Lemma onAnalysisModeChanged_pageInv (mode : AnalysisMode) (m : Machine) :
  pageInv m -> pageInv (onAnalysisModeChanged mode (onStore (set_analysisMode mode) m)).
Proof.
  intros (Hstream & Htimer & _).
  set (m' := onStore (set_analysisMode mode) m).
  assert (Hstream' : streamInv m')
    by (apply streamInv_transfer with (m := m); [repeat split | exact Hstream]).
  assert (Htimer' : timerInv m')
    by (apply timerInv_transfer with (m := m); [split; reflexivity | exact Htimer]).
  unfold onAnalysisModeChanged.
  destruct (AnalysisMode_eqb mode Continuous && isCapturing (store m')) eqn:Hgo.
  - apply andb_prop in Hgo. destruct Hgo as [Hmode Hcap].
    apply AnalysisMode_eqb_eq in Hmode.
    destruct (continuousCapture_sameStreamState m') as [Hsame _].
    split; [| split].
    + apply streamInv_transfer with (m := m'); assumption.
    + apply startContinuousCapture_timerInv. exact Htimer'.
    + intros _. destruct Hsame as (_ & Hcap' & _).
      rewrite Hcap', startContinuousCapture_mode. split; [exact Hcap |].
      subst mode. reflexivity.
  - destruct (stopContinuousCapture_disarms Htimer') as [Hid Hempty].
    apply pageInv_unarmed; [| | exact Hid].
    + apply streamInv_transfer with (m := m');
        [apply continuousCapture_sameStreamState | exact Hstream'].
    + unfold timerInv. rewrite Hid, Hempty. reflexivity.
Qed.

Lemma onCaptureSourceChanged_sameControl (env : Env) (o : Oracle) (src : CaptureSource)
      (m : Machine) :
  sameControl m (fst (call o (onCaptureSourceChanged env src) m)).
Proof.
  unfold onCaptureSourceChanged. enter.
  destruct (wantsDesktopSources env src); [| apply sameControl_refl].
  apply (fetchDesktopSources_sameControl env o m).
Qed.

(** Every event of the page keeps the invariant. *)
Lemma pageStep_pageInv (env : Env) (o : Oracle) (ev : PageEvent) (m : Machine) :
  pageInv m -> pageInv (pageStep env o ev m).
Proof.
  intros Hinv. destruct ev; cbn [pageStep].
  - apply pageInv_transfer with (m := m);
      [apply onCaptureSourceChanged_sameControl | exact Hinv].
  - apply pageInv_transfer with (m := m); [repeat split | exact Hinv].
  - apply pageInv_transfer with (m := m); [repeat split | exact Hinv].
  - apply pageInv_transfer with (m := m); [repeat split | exact Hinv].
  - cbv zeta.
    assert (Hset : sameControl m (onStore (set_captureSource src) m)) by (repeat split).
    destruct (CaptureSource_eqb src (captureSource (store m))).
    + apply pageInv_transfer with (m := m); [exact Hset | exact Hinv].
    + apply pageInv_transfer with (m := onStore (set_captureSource src) m);
        [apply onCaptureSourceChanged_sameControl |].
      apply pageInv_transfer with (m := m); [exact Hset | exact Hinv].
  - apply pageInv_transfer with (m := m); [repeat split | exact Hinv].
  - apply pageInv_transfer with (m := m); [| exact Hinv].
    unfold loadDesktopSources. enter.
    destruct (wantsDesktopSources env (captureSource (store m))); [| apply sameControl_refl].
    apply (fetchDesktopSources_sameControl env o m).
  - cbv zeta. destruct (AnalysisMode_eqb mode (analysisMode (store m))) eqn:Hsame.
    + apply AnalysisMode_eqb_eq in Hsame.
      apply pageInv_transfer with (m := m); [| exact Hinv].
      split; [repeat split | split; [split; reflexivity | exact Hsame]].
    + apply onAnalysisModeChanged_pageInv. exact Hinv.
  - apply pageInv_transfer with (m := m); [repeat split | exact Hinv].
  - apply pageInv_transfer with (m := m); [repeat split | exact Hinv].
  - unfold startCaptureOffered.
    destruct (configured (store m)); [| exact Hinv].
    destruct (isCapturing (store m)) eqn:Hcap; [exact Hinv |].
    apply handleStartCapture_pageInv; assumption.
  - destruct (stopCaptureOffered (store m)); [| exact Hinv].
    apply handleStopCapture_pageInv. exact Hinv.
  - destruct (analyzeNowOffered (store m)); [| exact Hinv].
    apply pageInv_transfer with (m := m); [| exact Hinv].
    apply (awaited_captureAndAnalyze_sameControl env o m).
  - destruct (quickTestOffered (store m)); [| exact Hinv].
    apply handleTestVision_pageInv. exact Hinv.
  - apply pageInv_transfer with (m := m); [apply fire_sameControl | exact Hinv].
  - apply stopContinuousCapture_pageInv. exact Hinv.
Qed.

Lemma pageRun_pageInv (env : Env) (script : list (Oracle * PageEvent)) :
  forall m : Machine, pageInv m -> pageInv (pageRun env script m).
Proof.
  induction script as [| [o ev] rest IH]; intros m Hinv; simpl.
  - exact Hinv.
  - apply IH. apply pageStep_pageInv. exact Hinv.
Qed.

Lemma freshMachine_pageInv : pageInv freshMachine.
Proof.
  apply pageInv_unarmed;
    [exact freshMachine_streamInv | exact freshMachine_timerInv | reflexivity].
Qed.

(** X12.  Under the controls of the settings page a timer is armed only
    while a capture runs in continuous mode.  From a state in which this is
    so and the streams and timers are the ones the store holds (as in a new
    store), after any sequence of page events, each handled to completion:
    every armed timer finds [isCapturing] true and [analysisMode] continuous,
    and at most one timer is armed and at most one stream live. *)
Theorem page_timer_only_in_continuous_capture :
  forall (env : Env) (script : list (Oracle * PageEvent)) (m : Machine),
    pageInv m ->
    let m' := pageRun env script m in
    pageInv m' /\
    (activeTimers (world m') <> [] ->
     isCapturing (store m') = true /\ analysisMode (store m') = Continuous) /\
    (length (activeTimers (world m')) <= 1)%nat /\
    (length (liveStreams (world m')) <= 1)%nat.
Proof.
  intros env script m Hinv m'.
  pose proof (pageRun_pageInv env script Hinv) as Hafter. fold m' in Hafter.
  split; [exact Hafter |].
  destruct Hafter as ((Hlive & _) & Htimer & Harmed).
  unfold timerInv in Htimer.
  split; [| split].
  - intros Hne. apply Harmed. intros Hid. rewrite Hid in Htimer.
    destruct (activeTimers (world m')); [contradiction | discriminate].
  - rewrite <- (length_map fst), Htimer.
    destruct (captureIntervalId (store m')); simpl; lia.
  - rewrite Hlive. destruct (currentStream (store m')); simpl; lia.
Qed.

(** Provider and model are chosen, the mode is set to continuous and the
    capture is started: the timer is armed, and finds the capture running. *)
Lemma page_timer_only_in_continuous_capture_witness :
  isCapturing
    (store (pageRun browserEnv
              [(grantAll, SelectProvider "openai"); (grantAll, SelectModel "gpt-4o");
               (grantAll, SelectAnalysisMode Continuous); (grantAll, ClickStartCapture);
               (grantAll, IntervalElapsed 1%positive)]
              freshMachine)) = true /\
  analysisMode
    (store (pageRun browserEnv
              [(grantAll, SelectProvider "openai"); (grantAll, SelectModel "gpt-4o");
               (grantAll, SelectAnalysisMode Continuous); (grantAll, ClickStartCapture);
               (grantAll, IntervalElapsed 1%positive)]
              freshMachine)) = Continuous.
Proof.
  refine (proj1 (proj2 (@page_timer_only_in_continuous_capture browserEnv
            [(grantAll, SelectProvider "openai"); (grantAll, SelectModel "gpt-4o");
             (grantAll, SelectAnalysisMode Continuous); (grantAll, ClickStartCapture);
             (grantAll, IntervalElapsed 1%positive)]
            freshMachine freshMachine_pageInv)) _).
  vm_compute. discriminate.
Defined.

(** The operations that set or clear the interval timer. *)
Definition touchesTimer (op : Op) : bool :=
  match op with
  | ResetState | StartContinuousCapture | StopContinuousCapture => true
  | _ => false
  end.

(** X13.  The timer outlives the capture.  Only [startContinuousCapture],
    [stopContinuousCapture] and [resetState] set or clear the interval
    timer: every other operation, [stopCapture] and [startCapture] among
    them, leaves the handle and the armed timers as they are.  A timer that
    fires after [stopCapture] changes nothing and asks for nothing. *)
Theorem timer_outlives_capture :
  forall (env : Env) (o : Oracle) (m : Machine),
    (forall op : Op, touchesTimer op = false -> sameTimers m (perform env o op m)) /\
    (forall id : TimerId,
        call o (fire env id) (stopCapture m) = (stopCapture m, tt)).
Proof.
  intros env o m. split.
  - intros op Hop. destruct op; try discriminate Hop; simpl perform.
    + apply startCapture_sameTimers.
    + apply stopCapture_sameTimers.
    + apply captureFrame_sameTimers.
    + apply analyzeImage_sameTimers.
    + apply captureAndAnalyze_sameTimers.
    + pose proof (call_fetchDesktopSources env o m) as H. cbv zeta in H.
      destruct H as (_ & (_ & Hid & _ & _ & Htimers & _) & _). split; assumption.
    + apply fire_sameTimers.
  - intros id.
    assert (Hcap : isCapturing (store (stopCapture m)) = false)
      by (unfold stopCapture; destruct (currentStream (store m)); reflexivity).
    unfold fire, tick, call. cbv beta. rewrite Hcap, andb_false_r.
    destruct (existsb _ _); reflexivity.
Qed.

(** The capture of a store in continuous mode is stopped with its timer
    armed: the timer stays, and its tick does nothing. *)
Lemma timer_outlives_capture_witness :
  sameTimers (startContinuousCapture continuousMachine)
    (perform browserEnv grantAll StopCapture (startContinuousCapture continuousMachine)).
Proof.
  exact (proj1 (timer_outlives_capture browserEnv grantAll
                  (startContinuousCapture continuousMachine)) StopCapture eq_refl).
Defined.

Lemma handleStopCapture_idempotent (m : Machine) :
  handleStopCapture (handleStopCapture m) = handleStopCapture m.
Proof.
  destruct m as [s w].
  destruct s as [? ? ? ? ? ? ? ? ? ? ? ? ? ? ? [sid |] ? ? ? [id |]]; reflexivity.
Qed.

(** X14.  The stop button stops everything, the page's unmount hook only
    the timer.  When the streams and timers are the ones the store holds,
    after [handleStopCapture] no stream is live, no timer is armed, the
    flag and the preview are cleared, and the last result and error are
    kept; pressing it again changes nothing.  After [onUnmounted] no timer
    is armed, and the stream and the capture flag are as before. *)
Theorem handleStopCapture_stops_everything :
  forall m : Machine,
    streamInv m -> timerInv m ->
    let m' := handleStopCapture m in
    (isCapturing (store m') = false /\
     currentStream (store m') = None /\
     liveStreams (world m') = [] /\
     previewImageDataUrl (store m') = None) /\
    (captureIntervalId (store m') = None /\ activeTimers (world m') = []) /\
    (lastAnalysisResult (store m') = lastAnalysisResult (store m) /\
     analysisError (store m') = analysisError (store m)) /\
    handleStopCapture m' = m' /\
    (activeTimers (world (onUnmounted m)) = [] /\ sameStreamState m (onUnmounted m)).
Proof.
  intros m Hstream Htimer m'. subst m'.
  destruct (stopContinuousCapture_disarms Htimer) as [Hid Hempty].
  destruct (continuousCapture_sameStreamState m) as [_ Hsame].
  assert (Hstream' : streamInv (stopContinuousCapture m))
    by (apply streamInv_transfer with (m := m); assumption).
  destruct (stopCapture_sameTimers (stopContinuousCapture m)) as [Hid' Htimers'].
  split; [exact (stopCapture_released Hstream') |].
  split; [unfold handleStopCapture; rewrite Hid', Htimers'; split; assumption |].
  split; [| split; [apply handleStopCapture_idempotent |
                    split; [exact Hempty | exact Hsame]]].
  unfold handleStopCapture.
  destruct (stopCapture_keeps_outcome (stopContinuousCapture m)) as [Herr Hlast].
  rewrite Herr, Hlast. unfold stopContinuousCapture.
  destruct (captureIntervalId (store m)); split; reflexivity.
Qed.

(** A continuous capture with its timer armed is stopped. *)
Lemma handleStopCapture_stops_everything_witness :
  liveStreams (world (handleStopCapture (startContinuousCapture continuousMachine))) = [] /\
  activeTimers (world (handleStopCapture (startContinuousCapture continuousMachine))) = [].
Proof.
  refine ((fun H => conj (proj1 (proj2 (proj2 (proj1 H)))) (proj2 (proj1 (proj2 H))))
            (@handleStopCapture_stops_everything
               (startContinuousCapture continuousMachine) _ _)).
  - unfold streamInv. split; [vm_compute; reflexivity |]. split.
    + vm_compute. split; [discriminate | reflexivity].
    + intros sid Hsid. vm_compute in Hsid. injection Hsid as <-. vm_compute. lia.
  - vm_compute. reflexivity.
Defined.




(* ------------------------------------------------------------------ *)
(** ** Voices of the Google Cloud text-to-speech page *)

Import Ascii.

(** The character classes [[a-z]] and [[A-Z]]. *)
Definition isLowerLetter (c : Ascii.ascii) : bool :=
  let n := Ascii.nat_of_ascii c in ((97 <=? n) && (n <=? 122))%nat.

Definition isUpperLetter (c : Ascii.ascii) : bool :=
  let n := Ascii.nat_of_ascii c in ((65 <=? n) && (n <=? 90))%nat.

(** Exactly [n] leading characters of the class [p], and what follows. *)
Fixpoint takeClass (p : Ascii.ascii -> bool) (n : nat) (s : string) : option (string * string) :=
  match n with
  | O => Some ("", s)
  | S n' =>
      match s with
      | String c s' =>
          if p c
          then match takeClass p n' s' with
               | Some (taken, rest) => Some (String c taken, rest)
               | None => None
               end
          else None
      | EmptyString => None
      end
  end.

(** [[a-z]{n}-[A-Z]{2}] at the start of [s]: the text it matches. *)
Definition languageCodeWith (n : nat) (s : string) : option string :=
  match takeClass isLowerLetter n s with
  | Some (language, String "-"%char rest) =>
      match takeClass isUpperLetter 2 rest with
      | Some (region, _) => Some (language ++ "-" ++ region)
      | None => None
      end
  | _ => None
  end.

(** [voiceName.match(/^([a-z]{2,3}-[A-Z]{2})/)]: the quantifier is greedy,
    so three letters are tried before two. *)
Definition matchLanguageCode (voiceName : string) : option string :=
  match languageCodeWith 3 voiceName with
  | Some code => Some code
  | None => languageCodeWith 2 voiceName
  end.

(** [extractLanguageCode(voiceName)] *)
Definition extractLanguageCode (voiceName : string) : string :=
  match matchLanguageCode voiceName with
  | Some code => code
  | None => "en-US"
  end.

(** [isChirp3HDVoice(voiceName)] *)
Definition isChirp3HDVoice (voiceName : string) : bool :=
  includes voiceName "Chirp3-HD" || includes voiceName "Chirp-HD".

(** [getModelForVoice(voiceName)], for a voice name of ASCII characters
    (see [toUpperCase]). *)
Definition getModelForVoice (voiceName : string) : option string :=
  let voiceUpper := toUpperCase voiceName in
  if includes voiceUpper "CHIRP3-HD" || includes voiceUpper "CHIRP-HD" then Some "chirp3-hd"
  else if includes voiceUpper "CHIRP" then Some "chirp"
  else if includes voiceUpper "JOURNEY" then Some "journey"
  else if includes voiceUpper "STUDIO" then Some "studio"
  else if includes voiceUpper "POLYGLOT" then Some "polyglot"
  else None.

(** The [input] of a request: [{ ssml: input }] or [{ text: input }]. *)
Inductive SynthesisInput : Type :=
| Ssml (ssml : string)
| Text (text : string).

(** The request [handleGenerateSpeech] sends: the address, and the body
    with its optional top-level [model]. *)
Record SynthesisRequest : Type := mkSynthesisRequest {
  requestUrl : string;
  requestInput : SynthesisInput;
  voiceLanguageCode : string;
  voiceName : string;
  audioEncoding : string;
  requestModel : option string
}.

(** The two entries read of the provider's configuration; an entry may be
    missing. *)
Record ProviderConfig : Type := mkProviderConfig {
  apiKey : option string;
  baseUrl : option string
}.

(** [v || dflt] *)
Definition orDefault (v : string) (dflt : string) : string :=
  if truthy v then v else dflt.

Definition apiKeyRequired : string :=
  "API Key is required. Get one at https://console.cloud.google.com/apis/credentials".

(** [handleGenerateSpeech(input, voiceId, useSSML)] up to its [fetch]: the
    error thrown, or the request sent. *)
Definition synthesisRequest (config : ProviderConfig) (selectedAudioEncoding : string)
           (input voiceId : string) (useSSML : bool) : JsError + SynthesisRequest :=
  let base := orDefault (textOf (baseUrl config)) "https://texttospeech.googleapis.com/v1/" in
  if negb (isSet (apiKey config)) then inl (ErrorObj apiKeyRequired)
  else
    let languageCode := extractLanguageCode voiceId in
    let isChirp3HD := isChirp3HDVoice voiceId in
    let effectiveUseSSML := useSSML && negb isChirp3HD in
    let model := getModelForVoice voiceId in
    inr (mkSynthesisRequest
           (base ++ "text:synthesize?key=" ++ textOf (apiKey config))
           (if effectiveUseSSML then Ssml input else Text input)
           languageCode
           voiceId
           (orDefault selectedAudioEncoding "MP3")
           (match model with
            | Some name => if truthy name then Some name else None
            | None => None
            end)).

(** Every character of [s] is of the class [p]. *)
Fixpoint allOf (p : Ascii.ascii -> bool) (s : string) : bool :=
  match s with
  | EmptyString => true
  | String c s' => p c && allOf p s'
  end.

Lemma takeClass_sound (p : Ascii.ascii -> bool) :
  forall (n : nat) (s taken rest : string),
    takeClass p n s = Some (taken, rest) ->
    s = taken ++ rest /\ String.length taken = n /\ allOf p taken = true.
Proof.
  induction n as [| n IH]; intros s taken rest H; simpl in H.
  - injection H as <- <-. repeat split.
  - destruct s as [| c s]; [discriminate |].
    destruct (p c) eqn:Hc; [| discriminate].
    destruct (takeClass p n s) as [[taken' rest'] |] eqn:Htake; [| discriminate].
    injection H as <- <-. destruct (IH _ _ _ Htake) as (Hs & Hlen & Hall).
    simpl. rewrite Hc, Hall, Hlen, <- Hs. repeat split.
Qed.

Lemma takeClass_complete (p : Ascii.ascii -> bool) :
  forall taken rest : string,
    allOf p taken = true ->
    takeClass p (String.length taken) (taken ++ rest) = Some (taken, rest).
Proof.
  induction taken as [| c taken IH]; intros rest Hall; simpl in *; [reflexivity |].
  apply andb_prop in Hall. destruct Hall as [Hc Hall].
  rewrite Hc, (IH rest Hall). reflexivity.
Qed.

Lemma takeClass_stops (p : Ascii.ascii -> bool) :
  forall (taken : string) (c : Ascii.ascii) (rest : string),
    p c = false ->
    takeClass p (S (String.length taken)) (taken ++ String c rest) = None.
Proof.
  induction taken as [| d taken IH]; intros c rest Hc.
  - simpl. rewrite Hc. reflexivity.
  - change (takeClass p (S (S (String.length taken))) (String d (taken ++ String c rest)) = None).
    cbn [takeClass]. destruct (p d); [| reflexivity].
    change (match takeClass p (S (String.length taken)) (taken ++ String c rest) with
            | Some (taken0, rest0) => Some (String d taken0, rest0)
            | None => None
            end = None).
    rewrite (IH c rest Hc). reflexivity.
Qed.

Lemma length_append (a b : string) :
  String.length (a ++ b) = (String.length a + String.length b)%nat.
Proof. induction a as [| c a IH]; simpl; [reflexivity | rewrite IH; reflexivity]. Qed.

(** What a match of [[a-z]{n}-[A-Z]{2}] is made of. *)
Lemma languageCodeWith_sound (n : nat) (s code : string) :
  languageCodeWith n s = Some code ->
  exists language region rest,
    code = language ++ "-" ++ region /\ s = code ++ rest /\
    String.length language = n /\ allOf isLowerLetter language = true /\
    String.length region = 2%nat /\ allOf isUpperLetter region = true.
Proof.
  unfold languageCodeWith. intros H.
  destruct (takeClass isLowerLetter n s) as [[language after] |] eqn:Hlang; [| discriminate].
  destruct after as [| dash after]; [discriminate |].
  destruct (Ascii.ascii_dec dash "-"%char) as [-> | Hne].
  - destruct (takeClass isUpperLetter 2 after) as [[region rest] |] eqn:Hreg; [| discriminate].
    injection H as <-.
    destruct (takeClass_sound _ _ _ Hlang) as (Hs & Hlen & Hall).
    destruct (takeClass_sound _ _ _ Hreg) as (Hs' & Hlen' & Hall').
    exists language, region, rest. repeat split; try assumption.
    rewrite Hs, Hs', !append_assoc. reflexivity.
  - exfalso. destruct dash as [[] [] [] [] [] [] [] []]; try discriminate H.
    apply Hne. reflexivity.
Qed.

Lemma languageCodeWith_complete (language region rest : string) :
  allOf isLowerLetter language = true ->
  String.length region = 2%nat -> allOf isUpperLetter region = true ->
  languageCodeWith (String.length language) ((language ++ "-" ++ region) ++ rest)
  = Some (language ++ "-" ++ region).
Proof.
  intros Hall Hlen Hall'. unfold languageCodeWith.
  rewrite !append_assoc, (takeClass_complete isLowerLetter language _ Hall).
  change ("-" ++ region ++ rest) with (String "-"%char (region ++ rest)). cbv iota beta.
  rewrite <- Hlen, (takeClass_complete isUpperLetter region rest Hall'). reflexivity.
Qed.

Lemma append_empty_r (s : string) : s ++ "" = s.
Proof. induction s as [| c s IH]; simpl; [reflexivity | rewrite IH; reflexivity]. Qed.

(** A match is matched again, as itself. *)
Lemma matchLanguageCode_fixed (s code : string) :
  matchLanguageCode s = Some code -> matchLanguageCode code = Some code.
Proof.
  unfold matchLanguageCode. intros H.
  destruct (languageCodeWith 3 s) as [code3 |] eqn:H3.
  - injection H as <-.
    destruct (languageCodeWith_sound _ _ H3)
      as (language & region & rest & Hcode & _ & Hlen & Hall & Hlen' & Hall').
    pose proof (@languageCodeWith_complete language region "" Hall Hlen' Hall') as Hagain.
    rewrite append_empty_r, Hlen, <- Hcode in Hagain. rewrite Hagain. reflexivity.
  - destruct (languageCodeWith_sound _ _ H)
      as (language & region & rest & Hcode & _ & Hlen & Hall & Hlen' & Hall').
    pose proof (@languageCodeWith_complete language region "" Hall Hlen' Hall') as Hagain.
    rewrite append_empty_r, Hlen, <- Hcode in Hagain. rewrite Hagain.
    assert (Hthree : languageCodeWith 3 code = None).
    { unfold languageCodeWith. rewrite Hcode.
      change ("-" ++ region) with (String "-"%char region). rewrite <- Hlen.
      rewrite (@takeClass_stops isLowerLetter language "-"%char region eq_refl).
      reflexivity. }
    rewrite Hthree. reflexivity.
Qed.

(** Extracting from an extracted code gives it back. *)
Lemma extractLanguageCode_fixed (voice : string) :
  extractLanguageCode (extractLanguageCode voice) = extractLanguageCode voice.
Proof.
  unfold extractLanguageCode at 2 3.
  destruct (matchLanguageCode voice) as [code |] eqn:Hmatch; [| reflexivity].
  unfold extractLanguageCode. rewrite (matchLanguageCode_fixed _ Hmatch). reflexivity.
Qed.



Lemma upperAscii_idem (c : Ascii.ascii) : upperAscii (upperAscii c) = upperAscii c.
Proof. destruct c as [[] [] [] [] [] [] [] []]; vm_compute; reflexivity. Qed.

Lemma toUpperCase_idem (s : string) : toUpperCase (toUpperCase s) = toUpperCase s.
Proof. apply mapString_compose. exact upperAscii_idem. Qed.

Lemma getModelForVoice_case (a b : string) :
  toUpperCase a = toUpperCase b -> getModelForVoice a = getModelForVoice b.
Proof. intros H. unfold getModelForVoice. rewrite H. reflexivity. Qed.

(** A voice the Chirp HD test accepts gets the model [chirp3-hd]. *)
Lemma isChirp3HDVoice_model (voice : string) :
  isChirp3HDVoice voice = true -> getModelForVoice voice = Some "chirp3-hd".
Proof.
  intros H. unfold isChirp3HDVoice in H. unfold getModelForVoice. cbv zeta.
  apply orb_prop in H. destruct H as [H | H];
    apply (includes_mapString upperAscii) in H; fold (toUpperCase voice) in H.
  - change (mapString upperAscii "Chirp3-HD") with "CHIRP3-HD" in H. rewrite H. reflexivity.
  - change (mapString upperAscii "Chirp-HD") with "CHIRP-HD" in H.
    rewrite H, orb_true_r. reflexivity.
Qed.

(** The models there are. *)
Lemma getModelForVoice_names (voice model : string) :
  getModelForVoice voice = Some model ->
  In model ["chirp3-hd"; "chirp"; "journey"; "studio"; "polyglot"] /\ truthy model = true.
Proof.
  unfold getModelForVoice. cbv zeta.
  destruct (includes (toUpperCase voice) "CHIRP3-HD" || includes (toUpperCase voice) "CHIRP-HD");
    [intros H; injection H as <-; split; [simpl; tauto | reflexivity] |].
  destruct (includes (toUpperCase voice) "CHIRP");
    [intros H; injection H as <-; split; [simpl; tauto | reflexivity] |].
  destruct (includes (toUpperCase voice) "JOURNEY");
    [intros H; injection H as <-; split; [simpl; tauto | reflexivity] |].
  destruct (includes (toUpperCase voice) "STUDIO");
    [intros H; injection H as <-; split; [simpl; tauto | reflexivity] |].
  destruct (includes (toUpperCase voice) "POLYGLOT");
    [intros H; injection H as <-; split; [simpl; tauto | reflexivity] |].
  discriminate.
Qed.

(** X17.  The model of a voice and the test for Chirp HD voices, for voice
    names of ASCII characters.  Every voice that [isChirp3HDVoice] accepts
    gets the model [chirp3-hd].  The model does not depend on the case of
    the voice name, the test does: the converse fails.  A model, when there
    is one, is one of five non-empty names, and [chirp] is answered only for
    a name with [CHIRP] in it that the Chirp HD test rejects. *)
Theorem chirp_hd_voice_gets_its_model :
  (forall voice : string,
      isAscii voice = true ->
      (isChirp3HDVoice voice = true -> getModelForVoice voice = Some "chirp3-hd") /\
      getModelForVoice (toUpperCase voice) = getModelForVoice voice /\
      getModelForVoice (toLowerCase voice) = getModelForVoice voice /\
      (forall model, getModelForVoice voice = Some model ->
                     In model ["chirp3-hd"; "chirp"; "journey"; "studio"; "polyglot"] /\
                     truthy model = true) /\
      (getModelForVoice voice = Some "chirp" ->
         includes (toUpperCase voice) "CHIRP" = true /\ isChirp3HDVoice voice = false)) /\
  ~ (forall voice : string,
        isAscii voice = true ->
        getModelForVoice voice = Some "chirp3-hd" -> isChirp3HDVoice voice = true).
Proof.
  split.
  - intros voice _. split; [apply isChirp3HDVoice_model |]. split; [| split; [| split]].
    + apply getModelForVoice_case. apply toUpperCase_idem.
    + apply getModelForVoice_case. apply toUpperCase_toLowerCase.
    + intros model. apply getModelForVoice_names.
    + intros Hchirp. split.
      * revert Hchirp. unfold getModelForVoice. cbv zeta.
        destruct (includes (toUpperCase voice) "CHIRP3-HD" || includes (toUpperCase voice) "CHIRP-HD");
          [discriminate |].
        destruct (includes (toUpperCase voice) "CHIRP"); [reflexivity |].
        destruct (includes (toUpperCase voice) "JOURNEY"); [discriminate |].
        destruct (includes (toUpperCase voice) "STUDIO"); [discriminate |].
        destruct (includes (toUpperCase voice) "POLYGLOT"); discriminate.
      * destruct (isChirp3HDVoice voice) eqn:Hvoice; [| reflexivity].
        rewrite (isChirp3HDVoice_model voice Hvoice) in Hchirp. discriminate.
  - intros H. specialize (H "en-US-chirp3-hd-Charon" eq_refl eq_refl). discriminate H.
Qed.

(** A Chirp 3 HD voice as Google names it. *)
Lemma chirp_hd_voice_gets_its_model_witness :
  getModelForVoice "en-US-Chirp3-HD-Charon" = Some "chirp3-hd".
Proof.
  refine (proj1 (proj1 chirp_hd_voice_gets_its_model "en-US-Chirp3-HD-Charon" _) _);
    vm_compute; reflexivity.
Defined.

(** X18.  The request [handleGenerateSpeech] sends.  Without an API key it
    throws before anything is sent.  With one, the request names the voice
    as given, under a language code of the pattern's form, with a non-empty
    audio encoding and the voice's model, and its address ends in the key.
    SSML goes out only when the caller asked for it and the voice is not a
    Chirp HD voice: a Chirp HD voice is always sent plain text together with
    the model [chirp3-hd].  As the model is found without regard to case and
    the Chirp HD test is not, a voice can be sent SSML together with the
    model [chirp3-hd]. *)
Theorem synthesisRequest_for_voice :
  (forall (config : ProviderConfig) (encoding input voice : string) (useSSML : bool),
      (isSet (apiKey config) = false ->
       synthesisRequest config encoding input voice useSSML = inl (ErrorObj apiKeyRequired)) /\
      (isSet (apiKey config) = true ->
       exists req : SynthesisRequest,
         synthesisRequest config encoding input voice useSSML = inr req /\
         voiceName req = voice /\
         extractLanguageCode (voiceLanguageCode req) = voiceLanguageCode req /\
         truthy (audioEncoding req) = true /\
         requestModel req = getModelForVoice voice /\
         (exists base, truthy base = true /\
                       requestUrl req = base ++ "text:synthesize?key=" ++ textOf (apiKey config)) /\
         requestInput req =
           (if useSSML && negb (isChirp3HDVoice voice) then Ssml input else Text input) /\
         (isChirp3HDVoice voice = true ->
            requestInput req = Text input /\ requestModel req = Some "chirp3-hd"))) /\
  (exists (voice : string) (req : SynthesisRequest),
      synthesisRequest (mkProviderConfig (Some "key") None) "MP3" "<speak>Hi</speak>" voice true
      = inr req /\
      requestInput req = Ssml "<speak>Hi</speak>" /\
      requestModel req = Some "chirp3-hd").
Proof.
  split.
  - intros config encoding input voice useSSML. unfold synthesisRequest. cbv zeta.
    destruct (isSet (apiKey config)); cbn [negb].
    + split; [discriminate |]. intros _.
      assert (Hmodel : match getModelForVoice voice with
                       | Some name => if truthy name then Some name else None
                       | None => None
                       end = getModelForVoice voice).
      { destruct (getModelForVoice voice) as [name |] eqn:Hname; [| reflexivity].
        destruct (getModelForVoice_names _ Hname) as [_ Htruthy]. rewrite Htruthy.
        reflexivity. }
      eexists. split; [reflexivity |]. cbn [voiceName voiceLanguageCode audioEncoding
                                            requestModel requestUrl requestInput].
      split; [reflexivity |].
      split; [apply (extractLanguageCode_fixed voice) |].
      split; [unfold orDefault; destruct (truthy encoding) eqn:H; [exact H | reflexivity] |].
      split; [exact Hmodel |].
      split.
      { eexists. split; [| reflexivity].
        unfold orDefault. destruct (truthy (textOf (baseUrl config))) eqn:H;
          [exact H | reflexivity]. }
      split; [reflexivity |].
      intros Hhd. rewrite Hhd, andb_false_r, Hmodel. split; [reflexivity |].
      apply isChirp3HDVoice_model. exact Hhd.
    + split; [reflexivity | discriminate].
  - exists "en-US-chirp3-hd-Charon". eexists. split; [reflexivity |]. split; reflexivity.
Qed.
